(** * Entity type system of calm-dsl: compile / decompile

    A shallow embedding of [calm/dsl/builtins/models/entity.py]: the
    attribute gate [_validate], class creation through the [EntityType]
    metaclass, [compile], [decompile] and the metadata side channel kept in
    the description text.

    Python objects are modelled by value.  Functions that mutate an object
    the caller can still see (the wire mapping handed to [decompile], the
    definition whose [__name__] is rewritten by [compile], the logger) thread
    that object through a state-and-exception monad in which, as in Python,
    a raised exception keeps every mutation made before it; a nested
    [decompile] hands back the mapping it was given and the warnings it
    logged together with its result.  A second model
    refines the attribute-gathering half of [compile] to a store of list
    objects, where aliasing between defaults, class attributes and compiled
    collections can be stated.  The callers in [calm/dsl/cli/bps.py] that
    work on compiled payloads and on launch parameters follow. *)

From Stdlib Require Import String Ascii List ZArith Bool Arith Lia.
From ExtLib Require Import Structures.Monad Structures.MonadState Structures.MonadExc.
Import ListNotations MonadNotation.
Local Open Scope monad_scope.
Local Open Scope string_scope.
Local Open Scope list_scope.

Set Implicit Arguments.
Set Warnings "-register-all".

(** ** Strings *)

Module Str.

Definition empty : string := EmptyString.

Definition nl : string := String (ascii_of_nat 10) EmptyString.

(** [s.startswith(p)] *)
Definition startswith (s p : string) : bool := String.prefix p s.

(** [s[n:]] *)
Fixpoint from (n : nat) (s : string) : string :=
  match n, s with
  | O, _ => s
  | S n', String _ s' => from n' s'
  | S _, EmptyString => EmptyString
  end.

(** [s[:n]] *)
Fixpoint upto (n : nat) (s : string) : string :=
  match n, s with
  | O, _ => EmptyString
  | S n', String c s' => String c (upto n' s')
  | S _, EmptyString => EmptyString
  end.

(** [s.endswith(p)] *)
Definition endswith (s p : string) : bool :=
  Nat.leb (String.length p) (String.length s)
  && String.eqb (from (String.length s - String.length p) s) p.

(** [s.find(sub)]: index of the first occurrence, [None] for Python's -1. *)
Fixpoint find (sub s : string) : option nat :=
  if String.prefix sub s then Some O
  else match s with
       | EmptyString => None
       | String _ s' => option_map S (find sub s')
       end.

(** Number of positions of [s] at which [sub] occurs. *)
Fixpoint occurrences (sub s : string) : nat :=
  (if String.prefix sub s then 1 else 0)
  + match s with
    | EmptyString => 0
    | String _ s' => occurrences sub s'
    end.

(** [c in s] for a character. *)
Fixpoint has_char (c : ascii) (s : string) : bool :=
  match s with
  | EmptyString => false
  | String c' s' => Ascii.eqb c c' || has_char c s'
  end.

(** The characters of [s], each as a one-character string. *)
Fixpoint chars (s : string) : list string :=
  match s with
  | EmptyString => []
  | String c s' => String c EmptyString :: chars s'
  end.

Definition is_empty (s : string) : bool :=
  match s with EmptyString => true | _ => false end.

End Str.

(** ** Dictionaries

    A Python [dict] keeps insertion order and the loops of the source
    iterate in that order, so a dictionary is an association list with at
    most one entry per key. *)

Module Dict.

Section Ops.
Variable V : Type.

Definition t := list (string * V).

Fixpoint get (k : string) (d : t) : option V :=
  match d with
  | [] => None
  | (k', v) :: d' => if String.eqb k k' then Some v else get k d'
  end.

Definition mem (k : string) (d : t) : bool :=
  match get k d with Some _ => true | None => false end.

(** [d[k] = v] *)
Fixpoint set (k : string) (v : V) (d : t) : t :=
  match d with
  | [] => [(k, v)]
  | (k', v') :: d' =>
      if String.eqb k k' then (k', v) :: d' else (k', v') :: set k v d'
  end.

(** The mapping left by [d.pop(k, default)]. *)
Definition remove (k : string) (d : t) : t :=
  filter (fun kv => negb (String.eqb k (fst kv))) d.

(** [d.setdefault(k, v)] *)
Definition setdefault (k : string) (v : V) (d : t) : t :=
  if mem k d then d else d ++ [(k, v)].

Definition keys (d : t) : list string := map fst d.

(** [{**d1, **d2}] *)
Definition merge (d1 d2 : t) : t :=
  fold_left (fun acc kv => set (fst kv) (snd kv) acc) d2 d1.

End Ops.

Arguments get {V} k d.
Arguments mem {V} k d.
Arguments set {V} k v d.
Arguments remove {V} k d.
Arguments setdefault {V} k v d.
Arguments keys {V} d.
Arguments merge {V} d1 d2.

End Dict.

(** ** Python values *)

(** A class is named by its identifier; [isinstance] is decided from the
    method resolution order an object carries. *)
Definition tyid := string.

Inductive value : Type :=
| VNone
| VBool (b : bool)
| VInt (z : Z)
| VStr (s : string)
| VList (l : list value)
| VDict (d : list (string * value))
(** An entity definition: a class created by a metaclass whose method
    resolution order is [mro]; [name] is its [__name__], [d] its
    [__dict__].  Variables and actions are such classes. *)
| VEntity (mro : list tyid) (name : string) (d : list (string * value))
(** An object dictionary: the values carrying [__is_object__]. *)
| VObject (d : list (string * value))
(** An instance of a class whose metaclass has resolution order [mro]
    (the action descriptors); [exc] is the message of the exception kept in
    its [__exception__] attribute, if any. *)
| VDescr (mro : list tyid) (exc : option string).

(** The type of Python values, for use where a binder is itself called
    [value], as in the source. *)
Abbreviation pyvalue := value (only parsing).

Inductive exn : Type :=
(** [TypeError] with message [fmt], its placeholders filled from [args]. *)
| TypeError (fmt : string) (args : list value)
| KeyError (key : string)
| AttributeError (attr : string)
| UnboundLocalError (var : string)
(** The exception carried by a descriptor placeholder. *)
| CarriedError (msg : string)
(** Any exception raised inside the YAML codec. *)
| YAMLError (msg : string)
(** Any exception raised by a collaborator outside this module. *)
| ExternalError (msg : string).

Inductive result (A : Type) : Type :=
| Ok (a : A)
| Raise (e : exn).

Arguments Ok {A} a.
Arguments Raise {A} e.

#[export] Instance Monad_result : Monad result :=
  {| ret := @Ok;
     bind := fun _ _ m k => match m with Ok a => k a | Raise e => Raise e end |}.

#[export] Instance Exc_result : MonadExc exn result :=
  {| raise := @Raise;
     catch := fun _ m h => match m with Ok a => Ok a | Raise e => h e end |}.

(** Computations over a mutable state [S]: a raised exception leaves the
    state as it was when it was raised. *)
Definition py (S A : Type) : Type := S -> S * result A.

#[export] Instance Monad_py {S} : Monad (py S) :=
  {| ret := fun _ a s => (s, Ok a);
     bind := fun _ _ m k s =>
       match m s with
       | (s', Ok a) => k a s'
       | (s', Raise e) => (s', Raise e)
       end |}.

#[export] Instance State_py {S} : MonadState S (py S) :=
  {| get := fun s => (s, Ok s);
     put := fun s' _ => (s', Ok tt) |}.

#[export] Instance Exc_py {S} : MonadExc exn (py S) :=
  {| raise := fun _ e s => (s, Raise e);
     catch := fun _ m h s =>
       match m s with
       | (s', Ok a) => (s', Ok a)
       | (s', Raise e) => h e s'
       end |}.

(** A pure, fallible step inside a stateful computation. *)
Definition lift {S A} (r : result A) : py S A := fun s => (s, r).

Definition is_type_error (e : exn) : bool :=
  match e with TypeError _ _ => true | _ => false end.

Module Py.

(** Truth value of an object. *)
Definition truthy (v : value) : bool :=
  match v with
  | VNone => false
  | VBool b => b
  | VInt z => negb (Z.eqb z 0)
  | VStr s => negb (Str.is_empty s)
  | VList l => match l with [] => false | _ => true end
  | VDict d => match d with [] => false | _ => true end
  | VObject d => match d with [] => false | _ => true end
  | VEntity _ _ _ => true
  | VDescr _ _ => true
  end.

Definition eqb_option_string (a b : option string) : bool :=
  match a, b with
  | None, None => true
  | Some x, Some y => String.eqb x y
  | _, _ => false
  end.

Fixpoint eqb_strings (a b : list string) : bool :=
  match a, b with
  | [], [] => true
  | x :: a', y :: b' => String.eqb x y && eqb_strings a' b'
  | _, _ => false
  end.

(** [a == b].  Mappings compare without regard to key order, sequences
    element by element, booleans as the integers 0 and 1.  Classes and
    descriptor objects compare by identity in Python; by value, that is
    equality of their contents. *)
Fixpoint eqb (a b : value) {struct a} : bool :=
  let items :=
    fix items (d1 : list (string * value)) (d2 : list (string * value)) : bool :=
      match d1 with
      | [] => true
      | (k, v) :: d1' =>
          match Dict.get k d2 with
          | Some w => eqb v w && items d1' d2
          | None => false
          end
      end in
  let dict_eqb d1 d2 := Nat.eqb (length d1) (length d2) && items d1 d2 in
  match a, b with
  | VNone, VNone => true
  | VBool x, VBool y => Bool.eqb x y
  | VBool x, VInt y => Z.eqb (if x then 1 else 0) y
  | VInt x, VBool y => Z.eqb x (if y then 1 else 0)
  | VInt x, VInt y => Z.eqb x y
  | VStr x, VStr y => String.eqb x y
  | VList xs, VList ys =>
      (fix elems (xs : list value) (ys : list value) : bool :=
         match xs, ys with
         | [], [] => true
         | x :: xs', y :: ys' => eqb x y && elems xs' ys'
         | _, _ => false
         end) xs ys
  | VDict d1, VDict d2 => dict_eqb d1 d2
  | VObject d1, VObject d2 => dict_eqb d1 d2
  | VObject d1, VDict d2 => dict_eqb d1 d2
  | VDict d1, VObject d2 => dict_eqb d1 d2
  | VEntity m1 n1 d1, VEntity m2 n2 d2 =>
      eqb_strings m1 m2 && String.eqb n1 n2 && dict_eqb d1 d2
  | VDescr m1 e1, VDescr m2 e2 => eqb_strings m1 m2 && eqb_option_string e1 e2
  | _, _ => false
  end.

(** [type(v).__name__], used in error messages. *)
Definition type_name (v : value) : string :=
  match v with
  | VNone => "NoneType"
  | VBool _ => "bool"
  | VInt _ => "int"
  | VStr _ => "str"
  | VList _ => "list"
  | VDict _ => "dict"
  | VObject _ => "ObjectDict"
  | VEntity mro _ _ => hd "type" mro
  | VDescr _ _ => "descriptor"
  end.

(** The elements produced by iterating over [v] ([for x in v], [list(v)]). *)
Definition iter (v : value) : result (list value) :=
  match v with
  | VList l => Ok l
  | VStr s => Ok (map VStr (Str.chars s))
  | VDict d => Ok (map (fun kv => VStr (fst kv)) d)
  | VObject d => Ok (map (fun kv => VStr (fst kv)) d)
  | _ => Raise (TypeError "'{}' object is not iterable" [VStr (type_name v)])
  end.

(** [v[key]] for a string key. *)
Definition getitem (v : value) (key : string) : result value :=
  match v with
  | VDict d | VObject d =>
      match Dict.get key d with
      | Some w => Ok w
      | None => Raise (KeyError key)
      end
  | _ => Raise (TypeError "'{}' object is not subscriptable with {}"
                          [VStr (type_name v); VStr key])
  end.

(** [v.get(key)] *)
Definition get (v : value) (key : string) : result value :=
  match v with
  | VDict d | VObject d =>
      Ok (match Dict.get key d with Some w => w | None => VNone end)
  | _ => Raise (AttributeError "get")
  end.

(** [v[outer][key] = w], the two-level store used on the metadata record;
    yields the updated [v]. *)
Definition setitem2 (v : value) (outer key : string) (w : value) : result value :=
  match v with
  | VDict d =>
      match Dict.get outer d with
      | Some (VDict inner) => Ok (VDict (Dict.set outer (VDict (Dict.set key w inner)) d))
      | Some (VObject inner) => Ok (VDict (Dict.set outer (VObject (Dict.set key w inner)) d))
      | Some u => Raise (TypeError "'{}' object does not support item assignment"
                                   [VStr (type_name u)])
      | None => Raise (KeyError outer)
      end
  | _ => Raise (TypeError "'{}' object is not subscriptable" [VStr (type_name v)])
  end.

(** [v[outer].pop(key)]; yields the updated [v]. *)
Definition popitem2 (v : value) (outer key : string) : result value :=
  match v with
  | VDict d =>
      match Dict.get outer d with
      | Some (VDict inner) =>
          if Dict.mem key inner
          then Ok (VDict (Dict.set outer (VDict (Dict.remove key inner)) d))
          else Raise (KeyError key)
      | Some (VObject inner) =>
          if Dict.mem key inner
          then Ok (VDict (Dict.set outer (VObject (Dict.remove key inner)) d))
          else Raise (KeyError key)
      | Some _ => Raise (AttributeError "pop")
      | None => Raise (KeyError outer)
      end
  | _ => Raise (TypeError "'{}' object is not subscriptable" [VStr (type_name v)])
  end.

End Py.

(** ** Type descriptors

    What [get_schema_details] hands to [__init_subclass__] is outside this
    module; a descriptor records the parts the code below reads. *)

(** A call that can change the object it is handed and log warnings, as
    [decompile(cdict)] does: the object as the call leaves it, the warnings
    it logs, and what it returns or raises.  A call that raises keeps the
    changes and the warnings made before. *)
Record call (O A : Type) : Type := {
  c_obj : O;
  c_log : list string;
  c_result : result A
}.

(** A call that changes nothing and logs nothing. *)
Definition quiet {O A} (o : O) (r : result A) : call O A :=
  {| c_obj := o; c_log := []; c_result := r |}.

(** The object found in [entity_type] during [decompile]: a built-in class
    such as [str] or [dict], or an entity kind. *)
Record pytype : Type := {
  ty_name : string;                               (* [__name__] *)
  ty_decompile : option (value -> call value value); (* [decompile], when defined *)
  ty_isinstance : value -> bool;                  (* [isinstance(v, entity_type)] *)
  ty_call : value -> result value                 (* [entity_type(v)] *)
}.

Record validator : Type := {
  v_is_object : bool;                             (* [__is_object__], default False *)
  v_validate : value -> bool -> result value;     (* [validate(value, is_array)] *)
  v_kind : option pytype;                         (* [__kind__], when defined *)
  v_type : pytype                                 (* the validator itself, used as a type *)
}.

(** A zero-argument default factory: the built-in [list], or a factory whose
    result is modelled by value. *)
Inductive factory : Type :=
| FList
| FValue (v : value).

Record schema : Type := {
  validator_dict : Dict.t (validator * bool);     (* [__validator_dict__] *)
  default_attrs : Dict.t factory;                 (* [__default_attrs__] *)
  display_map : Dict.t string                     (* [__display_map__] *)
}.

(** A metaclass derived from [EntityType]. *)
Record mclass : Type := {
  m_name : tyid;
  m_mro : list tyid;                              (* itself first *)
  schema_name : option string;                    (* [__schema_name__] *)
  openapi_type : option string;                   (* [__openapi_type__] *)
  m_schema : option schema;                       (* set by [__init_subclass__] *)
  m_attrs : list string                           (* further attributes it defines *)
}.

(** An entity definition (a class whose metaclass is an [mclass]). *)
Record entity : Type := {
  e_mro : list tyid;
  e_name : string;
  e_dict : Dict.t value
}.

Definition entity_value (e : entity) : value :=
  VEntity (e_mro e) (e_name e) (e_dict e).

Definition mem_string (x : string) (l : list string) : bool :=
  existsb (String.eqb x) l.

(** [isinstance(v, T)] for a metaclass [T]. *)
Definition isinstance (v : value) (T : mclass) : bool :=
  match v with
  | VEntity mro _ _ => mem_string (m_name T) mro
  | _ => false
  end.

(** [isinstance(type(v), T)] for a metaclass [T]. *)
Definition isinstance_type (v : value) (T : mclass) : bool :=
  match v with
  | VDescr mro _ => mem_string (m_name T) mro
  | _ => false
  end.

Definition not_a_type : exn :=
  TypeError "isinstance() arg 2 must be a type, a tuple of types, or a union" [].

(** [isinstance(v, T)] where [T] came from [types.get(..., None)]. *)
Definition isinstance_opt (v : value) (T : option mclass) : result bool :=
  match T with
  | Some T => Ok (isinstance v T)
  | None => Raise not_a_type
  end.

Definition isinstance_type_opt (v : value) (T : option mclass) : result bool :=
  match T with
  | Some T => Ok (isinstance_type v T)
  | None => Raise not_a_type
  end.

(** [isinstance(v, (T1, T2))]: the members are tried in order. *)
Definition isinstance_opt2 (v : value) (T1 T2 : option mclass) : result bool :=
  b1 <- isinstance_opt v T1 ;;
  if (b1 : bool) then ret true else isinstance_opt v T2.

(** [name.startswith("__") and name.endswith("__")] *)
Definition is_dunder (name : string) : bool :=
  Str.startswith name "__" && Str.endswith name "__".

Definition option_string_value (o : option string) : value :=
  match o with Some s => VStr s | None => VNone end.

(** [call_factory f] is the value of [f()]. *)
Definition call_factory (f : factory) : value :=
  match f with
  | FList => VList []
  | FValue v => v
  end.

(** ** The attribute gate *)

Section Gate.

(** [EntityTypeBase.subclasses], the process-wide registry. *)
Variable types : Dict.t mclass.

(** [if ValidatorType is not None: ValidatorType.validate(value, is_array)]
    followed by [return value]. *)
Definition validate_and_return (V : option validator) (is_array : bool)
           (value : pyvalue) : result pyvalue :=
  match V with
  | Some V => _ <- v_validate V value is_array ;; ret value
  | None => ret value
  end.

(** The body of [_validate]; [setattr_name value name] stands for
    [setattr(value, "name", name)] and yields the variable after it. *)
Definition validate_body (setattr_name : value -> string -> result value)
           (vdict : Dict.t (validator * bool)) (name : string)
           (value : pyvalue) : result pyvalue :=
  if is_dunder name then Ok value
  else
    (* the [try] block: [inl r] returns [r], [inr] falls through with
       [ValidatorType] and [is_array] bound *)
    let attempt : result (pyvalue + validator * bool) :=
      match Dict.get name vdict with
      | None => Raise (TypeError "Unknown attribute {} given" [VStr name])
      | Some (V, is_array) =>
          if v_is_object V
          then r <- v_validate V value is_array ;; ret (inl r)
          else ret (inr (V, is_array))
      end in
    match attempt with
    | Ok (inl r) => Ok r
    | Ok (inr (V, is_array)) => validate_and_return (Some V) is_array value
    | Raise e =>
        if negb (is_type_error e) then Raise e
        else
          (* except TypeError: check if value is a variable/action *)
          match Dict.get "Variable" types with
          | None => Raise (TypeError "Variable type not defined" [])
          | Some VariableType =>
              match Dict.get "Descriptor" types with
              | None => Raise (TypeError "Descriptor type not defined" [])
              | Some DescriptorType =>
                  if negb ((Dict.mem "variables" vdict && isinstance value VariableType)
                           || (Dict.mem "actions" vdict
                               && isinstance_type value DescriptorType))
                  then Raise e
                  else if isinstance value VariableType then
                    match Dict.get "variables" vdict with
                    | None => Raise (KeyError "variables")
                    | Some (V, _) =>
                        value' <- setattr_name value name ;;
                        validate_and_return (Some V) false value'
                    end
                  else if isinstance_type value DescriptorType then
                    validate_and_return None false value
                  else
                    (* excluded by the test above *)
                    Raise (UnboundLocalError "ValidatorType")
              end
          end
    end.

(** [setattr(cls, name, v)] after validation: [__name__] is the class
    name and must be a string, anything else lands in [__dict__]. *)
Definition type_setattr (mro : list tyid) (cname : string) (d : Dict.t value)
           (name : string) (v : value) : result value :=
  if String.eqb name "__name__" then
    match v with
    | VStr s => Ok (VEntity mro s d)
    | _ => Raise (TypeError "can only assign string to {}.__name__, not '{}'"
                            [VStr cname; VStr (Py.type_name v)])
    end
  else Ok (VEntity mro cname (Dict.set name v d)).

(** [EntityType.validate] and [EntityType.__setattr__] over a given gate. *)
Definition validate_with (gate : Dict.t (validator * bool) -> string -> value -> result value)
           (mcls : mclass) (name : string) (v : value) : result value :=
  match m_schema mcls with
  | Some sch => gate (validator_dict sch) name v
  | None => Ok VNone
  end.

(** The gate reached from [setattr(value, "name", name)]: its value is a
    string, never a variable, so it assigns no further name. *)
Definition _validate_name : Dict.t (validator * bool) -> string -> value -> result value :=
  validate_body (fun _ _ => Raise (ExternalError "setattr")).

(** [setattr(value, "name", name)] on a variable, whose metaclass is the
    registered Variable kind. *)
Definition setattr_name (value : pyvalue) (name : string) : result pyvalue :=
  match value, Dict.get "Variable" types with
  | VEntity mro cname d, Some VariableType =>
      v <- validate_with _validate_name VariableType "name" (VStr name) ;;
      type_setattr mro cname d "name" v
  | _, _ => Raise (AttributeError "name")
  end.

(** [_validate(vdict, name, value)] *)
Definition _validate : Dict.t (validator * bool) -> string -> value -> result value :=
  validate_body setattr_name.

(** [EntityType.validate(mcls, name, value)] *)
Definition validate : mclass -> string -> value -> result value :=
  validate_with _validate.

(** [EntityType.__setattr__(cls, name, value)]; yields the class after the
    assignment. *)
Definition __setattr__ (mcls : mclass) (cls : entity) (name : string)
           (v : value) : result entity :=
  v' <- validate mcls name v ;;
  r <- type_setattr (e_mro cls) (e_name cls) (e_dict cls) name v' ;;
  match r with
  | VEntity mro n d => ret {| e_mro := mro; e_name := n; e_dict := d |}
  | _ => ret cls
  end.

(** [EntityDict.__setitem__(self, name, value)] on a dictionary created
    with [validators]. *)
Definition __setitem__ (validators : Dict.t (validator * bool))
           (self : Dict.t value) (name : string) (v : value)
  : result (Dict.t value) :=
  v' <- _validate validators name v ;;
  ret (Dict.set name v' self).

(** [getattr(mcls, "__validator_dict__")] and its siblings. *)
Definition get_schema (mcls : mclass) (attr : string) : result schema :=
  match m_schema mcls with
  | Some sch => Ok sch
  | None => Raise (AttributeError attr)
  end.

(** [EntityType.get_default_attrs(mcls)] *)
Definition get_default_attrs (mcls : mclass) : Dict.t value :=
  match m_schema mcls with
  | Some sch => map (fun kf => (fst kf, call_factory (snd kf))) (default_attrs sch)
  | None => []
  end.

(** Attribute names every class answers [hasattr] for, whatever its own
    [__dict__]: those of [type] and of the metaclass.  The classes below
    are created with the single base [Entity]; [Entity] and [object] add
    dunder-style names only, which are left out. *)
Definition metaclass_attrs (mcls : mclass) : list string :=
  ["__name__"; "__qualname__"; "__bases__"; "__mro__"; "__dict__"; "__class__";
   "mro"; "subclasses"; "get_entity_types"; "validate_dict"; "to_yaml";
   "validate"; "get_user_attrs"; "get_default_attrs"; "update_attrs";
   "get_all_attrs"; "get_name"; "compile"; "decompile"; "json_dumps";
   "json_loads"; "yaml_dump"; "get_ref"; "get_dict"] ++ m_attrs mcls.

(** [hasattr(cls, name)] for a class whose single base is [Entity]. *)
Definition hasattr (mcls : mclass) (cls : entity) (name : string) : bool :=
  Dict.mem name (e_dict cls) || mem_string name (metaclass_attrs mcls).

Definition option_truthy (o : option string) : bool :=
  match o with Some s => negb (Str.is_empty s) | None => false end.

(** The namespace filled by [__new__] from a plain [kwargs]:
    [__prepare__] gives a plain [dict] for a kind without schema name and an
    [EntityDict] otherwise. *)
Fixpoint fill_namespace (validators : option (Dict.t (validator * bool)))
         (kwargs : Dict.t value) (entitydict : Dict.t value)
  : result (Dict.t value) :=
  match kwargs with
  | [] => ret entitydict
  | (k, v) :: rest =>
      d <- match validators with
           | Some vd => __setitem__ vd entitydict k v
           | None => ret (Dict.set k v entitydict)
           end ;;
      fill_namespace validators rest d
  end.

Fixpoint set_defaults (mcls : mclass) (defaults : Dict.t value) (cls : entity)
  : result entity :=
  match defaults with
  | [] => ret cls
  | (k, v) :: rest =>
      cls' <- (if hasattr mcls cls k then ret cls else __setattr__ mcls cls k v) ;;
      set_defaults mcls rest cls'
  end.

Definition module_name : string := "calm.dsl.builtins.models.entity".

(** [EntityType.__new__(mcls, name, (Entity,), kwargs)] for a plain
    dictionary [kwargs], the call [decompile] and [get_ref] make.  (The
    body of a class statement arrives as an [EntityDict] whose entries went
    through [__setitem__] one by one, as [fill_namespace] does here.) *)
Definition __new__ (mcls : mclass) (name : string) (kwargs : Dict.t value)
  : result entity :=
  validators <- (if option_truthy (schema_name mcls)
                 then sch <- get_schema mcls "__validator_dict__" ;;
                      ret (Some (validator_dict sch))
                 else ret None) ;;
  entitydict <- fill_namespace validators kwargs [] ;;
  (* type.__new__ *)
  let ns := Dict.setdefault "__doc__" VNone
              (Dict.setdefault "__module__" (VStr module_name) entitydict) in
  let cls := {| e_mro := m_mro mcls; e_name := name; e_dict := ns |} in
  cls <- __setattr__ mcls cls "__kind__" (option_string_value (openapi_type mcls)) ;;
  set_defaults mcls (get_default_attrs mcls) cls.

End Gate.

(** ** Compile and decompile *)

(** The marker that opens the metadata block of a description. *)
Definition sep_string : string :=
  "### Calm DSL Metadata/Hints (Do not edit/change)".

Definition metadata_warning : string :=
  "Error while loading metadata from description".

Fixpoint map_result {A B} (f : A -> result B) (l : list A) : result (list B) :=
  match l with
  | [] => ret []
  | x :: l' => y <- f x ;; ys <- map_result f l' ;; ret (y :: ys)
  end.

(** What [compile] can change besides its result: the definition (its
    [__name__]), the mapping being built, the warnings logged. *)
Record cstate : Type := {
  cs_cls : entity;
  cs_cdict : Dict.t value;
  cs_log : list string
}.

(** What [decompile] can change: the caller's mapping, the log, and its
    locals [name] and [description]. *)
Record dstate : Type := {
  ds_cdict : Dict.t value;
  ds_log : list string;
  ds_name : value;
  ds_description : value
}.

Section Compiler.

Variable types : Dict.t mclass.

(** The YAML codec ([ruamel.yaml], safe loader and block-style dumper). *)
Variable yaml_load : string -> result value.
Variable yaml_dump : value -> result string.

(** [get_valid_identifier] of the utilities module, followed by the check
    of [type.__new__] that a class name is a string. *)
Variable get_valid_identifier : value -> result string.

(** The provider-spec decoder. *)
Variable provider_spec : value -> result value.

(** [v.compile(cls)] of an object dictionary. *)
Variable object_compile : Dict.t value -> entity -> result value.

(** [EntityType.get_user_attrs(cls)].  [getattr(cls, name, value)] is the
    entry of [__dict__] itself. *)
Fixpoint user_attrs_of (ActionType VariableType DescriptorType : option mclass)
         (items : Dict.t value) (user_attrs : Dict.t value)
  : result (Dict.t value) :=
  match items with
  | [] => ret user_attrs
  | (name, value) :: rest =>
      skip <- (if is_dunder name then
                 b <- isinstance_opt2 value VariableType ActionType ;;
                 if (b : bool) then ret false
                 else b' <- isinstance_type_opt value DescriptorType ;;
                      ret (negb b')
               else ret false) ;;
      if (skip : bool)
      then user_attrs_of ActionType VariableType DescriptorType rest user_attrs
      else user_attrs_of ActionType VariableType DescriptorType rest
                         (Dict.set name value user_attrs)
  end.

Definition get_user_attrs (cls : entity) : result (Dict.t value) :=
  user_attrs_of (Dict.get "Action" types) (Dict.get "Variable" types)
                (Dict.get "Descriptor" types) (e_dict cls) [].

(** [EntityType.get_all_attrs(cls)] *)
Definition get_all_attrs (mcls : mclass) (cls : entity) : result (Dict.t value) :=
  let default_attrs := get_default_attrs mcls in
  user_attrs <- get_user_attrs cls ;;
  ret (Dict.merge default_attrs user_attrs).

(** [attrs[attr_name].append(value)]; [attr_name] is unbound until a
    variable or an action has been met. *)
Definition append_attr (attr_name : option string) (value : pyvalue)
           (attrs : Dict.t pyvalue) : result (Dict.t pyvalue) :=
  match attr_name with
  | None => Raise (UnboundLocalError "attr_name")
  | Some a =>
      match Dict.get a attrs with
      | None => Raise (KeyError a)
      | Some (VList l) => Ok (Dict.set a (VList (l ++ [value])) attrs)
      | Some _ => Raise (AttributeError "append")
      end
  end.

(** The [if]/[elif] chain of the promotion loop: the collection the value
    goes to.  A descriptor placeholder without exception leaves [attr_name]
    as the previous iteration set it. *)
Definition classify (ActionType VariableType DescriptorType : option mclass)
           (key : string) (value : pyvalue) (attr_name : option string)
  : result (option string) :=
  is_action <- isinstance_opt value ActionType ;;
  if (is_action : bool) then ret (Some "actions")
  else
    is_variable <- isinstance_opt value VariableType ;;
    if (is_variable : bool) then ret (Some "variables")
    else
      is_descr <- isinstance_type_opt value DescriptorType ;;
      if (is_descr : bool) then
        match value with
        | VDescr _ (Some msg) => raise (CarriedError msg)
        | _ => ret attr_name
        end
      else raise (TypeError
        "Field {} has value of type {} but it is not handled for this entity"
        [VStr key; VStr (Py.type_name value)]).

(** The promotion loop of [update_attrs] over the keys of [attrs]. *)
Fixpoint promote (vdict : Dict.t (validator * bool))
         (ActionType VariableType DescriptorType : option mclass)
         (keys : list string) (attrs : Dict.t value)
         (attr_name : option string) (del_keys : list string)
  : result (Dict.t value * list string) :=
  match keys with
  | [] => ret (attrs, del_keys)
  | key :: rest =>
      match Dict.get key attrs with
      | None => promote vdict ActionType VariableType DescriptorType
                        rest attrs attr_name del_keys
      | Some value =>
          if Dict.mem key vdict
          then promote vdict ActionType VariableType DescriptorType
                       rest attrs attr_name del_keys
          else
            attr_name' <- classify ActionType VariableType DescriptorType
                                   key value attr_name ;;
            attrs' <- append_attr attr_name' value attrs ;;
            promote vdict ActionType VariableType DescriptorType
                    rest attrs' attr_name' (del_keys ++ [key])
      end
  end.

(** [list(attrs.get(key, []))] *)
Definition list_copy (key : string) (attrs : Dict.t value) : result value :=
  l <- Py.iter (match Dict.get key attrs with Some v => v | None => VList [] end) ;;
  ret (VList l).

(** [EntityType.update_attrs(mcls, attrs)]; yields [attrs] after it. *)
Definition update_attrs (mcls : mclass) (attrs : Dict.t value)
  : result (Dict.t value) :=
  match m_schema mcls with
  | None => ret attrs
  | Some sch =>
      let vdict := validator_dict sch in
      if negb (Dict.mem "variables" vdict) && negb (Dict.mem "actions" vdict)
      then ret attrs
      else
        vars <- list_copy "variables" attrs ;;
        let attrs := Dict.set "variables" vars attrs in
        attrs <- (if Dict.mem "actions" vdict
                  then acts <- list_copy "actions" attrs ;;
                       ret (Dict.set "actions" acts attrs)
                  else ret attrs) ;;
        r <- promote vdict (Dict.get "Action" types) (Dict.get "Variable" types)
                     (Dict.get "Descriptor" types) (Dict.keys attrs) attrs None [] ;;
        let '(attrs, del_keys) := r in
        ret (fold_left (fun a k => Dict.remove k a) del_keys attrs)
  end.

(** The translation loop of [compile]: attribute names to wire keys. *)
Fixpoint to_wire (display_map : Dict.t string) (cls : entity)
         (attrs : Dict.t value) (cdict : Dict.t value)
  : result (Dict.t value) :=
  match attrs with
  | [] => ret cdict
  | (k, v) :: rest =>
      cdict <- match v with
               | VObject d =>
                   match Dict.get k display_map with
                   | None => Raise (KeyError k)
                   | Some w => c <- object_compile d cls ;;
                               ret (Dict.setdefault w c cdict)
                   end
               | _ => ret cdict
               end ;;
      match Dict.get k display_map with
      | None => Raise (KeyError k)
      | Some w => to_wire display_map cls rest (Dict.setdefault w v cdict)
      end
  end.

Definition set_cdict (k : string) (v : value) : py cstate unit :=
  st <- get ;;
  put {| cs_cls := cs_cls st; cs_cdict := Dict.set k v (cs_cdict st);
         cs_log := cs_log st |}.

Definition warning {S} (log : S -> list string) (set_log : list string -> S -> S)
           (msg : string) : py S unit :=
  st <- get ;;
  put (set_log (log st ++ [msg]) st).

Definition cs_warning : string -> py cstate unit :=
  warning cs_log (fun l st => {| cs_cls := cs_cls st; cs_cdict := cs_cdict st;
                                 cs_log := l |}).

(** [cls.__name__ = v] *)
Definition set_cls_name (mcls : mclass) (v : value) : py cstate unit :=
  st <- get ;;
  cls <- lift (__setattr__ types mcls (cs_cls st) "__name__" v) ;;
  put {| cs_cls := cls; cs_cdict := cs_cdict st; cs_log := cs_log st |}.

(** The [try] block of the metadata step of [compile]; [description] is
    the text up to and including the marker, [md_str] the text after it. *)
Definition compile_metadata_try (mcls : mclass) (description md_str : string)
  : py cstate unit :=
  md_obj <- lift (yaml_load md_str) ;;
  meta <- lift (Py.getitem md_obj "calm_dsl_metadata") ;;
  display_name <- lift (Py.get meta "display_name") ;;
  st <- get ;;
  let dsl_name := match Dict.get "name" (cs_cdict st) with
                  | Some v => v
                  | None => VNone
                  end in
  md_obj <- (if Py.truthy dsl_name
                && (Py.truthy display_name && negb (Py.eqb display_name dsl_name))
             then
               set_cdict "name" display_name ;;
               set_cls_name mcls display_name ;;
               lift (Py.setitem2 md_obj "calm_dsl_metadata" "dsl_name" dsl_name)
             else ret md_obj) ;;
  md_new_str <- lift (yaml_dump md_obj) ;;
  set_cdict "description" (VStr (description ++ Str.nl ++ md_new_str)).

(** The metadata step of [compile]. *)
Definition compile_metadata (mcls : mclass) : py cstate unit :=
  st <- get ;;
  match Dict.get "description" (cs_cdict st) with
  | None => ret tt
  | Some (VStr description) =>
      match Str.find sep_string description with
      | None => ret tt
      | Some metadata_ind =>
          let md_str := Str.from (metadata_ind + String.length sep_string) description in
          let description :=
            Str.upto (metadata_ind + String.length sep_string) description in
          catch (compile_metadata_try mcls description md_str)
                (fun _ => cs_warning metadata_warning)
      end
  | Some _ => raise (AttributeError "find")
  end.

(** [cls.__doc__] *)
Definition doc_of (cls : entity) : value :=
  match Dict.get "__doc__" (e_dict cls) with Some v => v | None => VNone end.

(** Name and description defaults of [compile]. *)
Definition name_defaults (cls : entity) (cdict : Dict.t value) : Dict.t value :=
  let cdict :=
    match Dict.get "name" cdict with
    | Some v => if Py.eqb v (VStr Str.empty)
                then Dict.set "name" (VStr (e_name cls)) cdict else cdict
    | None => cdict
    end in
  match Dict.get "description" cdict with
  | Some v => if Py.eqb v (VStr Str.empty)
              then Dict.set "description"
                     (if Py.truthy (doc_of cls) then doc_of cls else VStr Str.empty)
                     cdict
              else cdict
  | None => cdict
  end.

(** [compile] up to the name and description defaults: the mapping before
    the metadata step. *)
Definition compile_wire (mcls : mclass) (cls : entity) : result (Dict.t value) :=
  attrs <- get_all_attrs mcls cls ;;
  attrs <- update_attrs mcls attrs ;;
  (* convert keys to api schema *)
  sch <- get_schema mcls "__display_map__" ;;
  cdict <- to_wire (display_map sch) cls attrs [] ;;
  (* Add name & description if present *)
  ret (name_defaults cls cdict).

(** [EntityType.compile(cls)], run on the state holding [cls]; the mapping
    it returns is left in the state as well. *)
Definition compile (mcls : mclass) : py cstate (Dict.t value) :=
  st <- get ;;
  cdict <- lift (compile_wire mcls (cs_cls st)) ;;
  put {| cs_cls := cs_cls st; cs_cdict := cdict; cs_log := cs_log st |} ;;
  (* Send cls name if it is different from cdict["name"] for round trip *)
  compile_metadata mcls ;;
  st <- get ;;
  ret (cs_cdict st).

(** [compile] of a definition, starting with an empty log. *)
Definition run_compile (mcls : mclass) (cls : entity) : cstate * result (Dict.t value) :=
  compile mcls {| cs_cls := cls; cs_cdict := []; cs_log := [] |}.

End Compiler.

Section Decompiler.

Variable types : Dict.t mclass.
Variable yaml_load : string -> result value.
Variable yaml_dump : value -> result string.
Variable get_valid_identifier : value -> result string.
Variable provider_spec : value -> result value.

Definition ds_warning : string -> py dstate unit :=
  warning ds_log (fun l st => {| ds_cdict := ds_cdict st; ds_log := l;
                                 ds_name := ds_name st;
                                 ds_description := ds_description st |}).

Definition set_name (v : value) : py dstate unit :=
  st <- get ;;
  put {| ds_cdict := ds_cdict st; ds_log := ds_log st; ds_name := v;
         ds_description := ds_description st |}.

Definition set_description (v : value) : py dstate unit :=
  st <- get ;;
  put {| ds_cdict := ds_cdict st; ds_log := ds_log st; ds_name := ds_name st;
         ds_description := v |}.

(** The [try] block of the metadata step of [decompile]; the local
    [description] already holds the text up to and including the marker. *)
Definition decompile_metadata_try (description md_str : string) : py dstate unit :=
  md_obj <- lift (yaml_load md_str) ;;
  meta <- lift (Py.getitem md_obj "calm_dsl_metadata") ;;
  dsl_name <- lift (Py.get meta "dsl_name") ;;
  st <- get ;;
  md_obj <- (if Py.truthy dsl_name && negb (Py.eqb (ds_name st) dsl_name)
             then
               set_name dsl_name ;;
               lift (Py.popitem2 md_obj "calm_dsl_metadata" "dsl_name")
             else ret md_obj) ;;
  md_new_str <- lift (yaml_dump md_obj) ;;
  set_description (VStr (description ++ Str.nl ++ md_new_str)).

(** The metadata step of [decompile]. *)
Definition decompile_metadata : py dstate unit :=
  st <- get ;;
  match ds_description st with
  | VNone => ret tt
  | VStr description =>
      match Str.find sep_string description with
      | None => ret tt
      | Some metadata_ind =>
          let md_str := Str.from (metadata_ind + String.length sep_string) description in
          let description :=
            Str.upto (metadata_ind + String.length sep_string) description in
          set_description (VStr description) ;;
          catch (decompile_metadata_try description md_str)
                (fun _ => ds_warning metadata_warning)
      end
  | _ => raise (AttributeError "find")
  end.

(** [{v: k for k, v in display_map.items()}] *)
Definition invert (display_map : Dict.t string) : Dict.t string :=
  fold_left (fun acc kv => Dict.set (snd kv) (fst kv) acc) display_map [].

(** The first loop of [decompile]: wire keys back to property names; a key
    without (truthy) inverse entry is skipped. *)
Fixpoint from_wire (inverse : Dict.t string) (cdict : Dict.t value)
         (attrs : Dict.t value) : Dict.t value :=
  match cdict with
  | [] => attrs
  | (k, v) :: rest =>
      match Dict.get k inverse with
      | Some p =>
          if Str.is_empty p then from_wire inverse rest attrs
          else from_wire inverse rest (Dict.setdefault p v attrs)
      | None => from_wire inverse rest attrs
      end
  end.

(** [new_value.append(entity_type.decompile(val))] for each [val] of a
    list: every element is left as its call leaves it, the elements after a
    call that raises are not reached. *)
Fixpoint decompile_each (decompile : value -> call value value) (l : list value)
  : call (list value) (list value) :=
  match l with
  | [] => quiet [] (Ok [])
  | val :: rest =>
      let c := decompile val in
      match c_result c with
      | Ok e =>
          let cs := decompile_each decompile rest in
          {| c_obj := c_obj c :: c_obj cs;
             c_log := c_log c ++ c_log cs;
             c_result := es <- c_result cs ;; ret (e :: es) |}
      | Raise x =>
          {| c_obj := c_obj c :: rest; c_log := c_log c; c_result := Raise x |}
      end
  end.

(** The conversion of one known property, with [entity_type] resolved.
    Built-in types are called on the value and leave it alone; a
    [decompile] is handed the value itself, or its elements. *)
Definition decompile_with (entity_type : pytype) (is_array : bool) (v : value)
  : call value value :=
  match ty_decompile entity_type with
  | Some decompile =>
      if is_array then
        match v with
        | VList l =>
            let cs := decompile_each decompile l in
            {| c_obj := VList (c_obj cs);
               c_log := c_log cs;
               c_result := new_value <- c_result cs ;; ret (VList new_value) |}
        | _ => quiet v (Raise (TypeError "Value {} is not of type list" [v]))
        end
      else decompile v
  | None =>
      (* validation for existing classes (str, dict etc.) *)
      quiet v
        (if is_array then
           vals <- Py.iter v ;;
           new_value <-
             map_result
               (fun val =>
                  if ty_isinstance entity_type val then ty_call entity_type val
                  else Raise (TypeError "Value {} is not of type {}"
                                        [val; VStr (ty_name entity_type)]))
               vals ;;
           ret (VList new_value)
         else ty_call entity_type v)
  end.

(** The body of the second loop of [decompile] for property [k]. *)
Definition decompile_attr (validator_dict : Dict.t (validator * bool))
           (k : string) (v : value) : call value value :=
  match Dict.get k validator_dict with
  | None => quiet v (Raise (KeyError k))
  | Some (validator, is_array) =>
      match v_kind validator with
      | Some entity_type =>
          if String.eqb (ty_name entity_type) "ProviderSpecType"
          then quiet v (provider_spec v)
          else decompile_with entity_type is_array v
      | None => decompile_with (v_type validator) is_array v
      end
  end.

(** The second loop of [decompile]: the converted attributes, and the
    values of [attrs] as the conversions leave them. *)
Fixpoint decompile_attrs (validator_dict : Dict.t (validator * bool))
         (attrs : Dict.t value) : call (Dict.t value) (Dict.t value) :=
  match attrs with
  | [] => quiet [] (Ok [])
  | (k, v) :: rest =>
      let c := decompile_attr validator_dict k v in
      match c_result c with
      | Ok new_value =>
          let cs := decompile_attrs validator_dict rest in
          {| c_obj := (k, c_obj c) :: c_obj cs;
             c_log := c_log c ++ c_log cs;
             c_result := rest' <- c_result cs ;; ret ((k, new_value) :: rest') |}
      | Raise x =>
          {| c_obj := (k, c_obj c) :: rest; c_log := c_log c; c_result := Raise x |}
      end
  end.

(** The values the first loop puts into [attrs] are the objects of the
    caller's mapping themselves: [attrs[p]] is the object under the first
    wire key mapped to [p], so what the second loop's calls change in it
    shows in the caller's mapping.  [shared inverse cdict seen objects] is
    [cdict] with these objects as [objects] has them; [seen] holds the
    properties met so far.  A wire mapping is a tree, as [json.loads] gives
    it: no object sits in two places. *)
Fixpoint shared (inverse : Dict.t string) (cdict : Dict.t value)
         (seen : list string) (objects : Dict.t value) : Dict.t value :=
  match cdict with
  | [] => []
  | (k, v) :: rest =>
      match Dict.get k inverse with
      | Some p =>
          if Str.is_empty p || mem_string p seen
          then (k, v) :: shared inverse rest seen objects
          else (k, match Dict.get p objects with Some v' => v' | None => v end)
               :: shared inverse rest (p :: seen) objects
      | None => (k, v) :: shared inverse rest seen objects
      end
  end.

(** [decompile] after the metadata step: from the name, the description and
    what is left of the wire mapping to the new definition; [c_obj] is the
    caller's mapping afterwards. *)
Definition decompile_build (mcls : mclass) (name description : value)
           (cdict : Dict.t value) : call (Dict.t value) entity :=
  (* Impose validation for valid identifier *)
  match get_valid_identifier name with
  | Raise x => quiet cdict (Raise x)
  | Ok dsl_class_name =>
      (* Convert attribute names to x-calm-dsl-display-name, if given *)
      match get_schema mcls "__display_map__" with
      | Raise x => quiet cdict (Raise x)
      | Ok sch =>
          let inverse := invert (display_map sch) in
          let attrs := from_wire inverse cdict [] in
          match get_schema mcls "__validator_dict__" with
          | Raise x => quiet cdict (Raise x)
          | Ok sch =>
              let c := decompile_attrs (validator_dict sch) attrs in
              {| c_obj := shared inverse cdict [] (c_obj c);
                 c_log := c_log c;
                 c_result :=
                   attrs <- c_result c ;;
                   (* Create new class based on type *)
                   cls <- __new__ types mcls dsl_class_name attrs ;;
                   __setattr__ types mcls cls "__doc__" description |}
          end
      end
  end.

(** [EntityType.decompile(mcls, cdict)], run on the state holding the
    caller's [cdict]. *)
Definition decompile (mcls : mclass) : py dstate entity :=
  st <- get ;;
  let cdict := ds_cdict st in
  (* Remove extra info *)
  let name := match Dict.get "name" cdict with
              | Some v => v
              | None => option_string_value (schema_name mcls)
              end in
  let description := match Dict.get "description" cdict with
                     | Some v => v
                     | None => VNone
                     end in
  put {| ds_cdict := Dict.remove "description" cdict; ds_log := ds_log st;
         ds_name := name; ds_description := description |} ;;
  decompile_metadata ;;
  st <- get ;;
  let c := decompile_build mcls (ds_name st) (ds_description st) (ds_cdict st) in
  put {| ds_cdict := c_obj c; ds_log := ds_log st ++ c_log c;
         ds_name := ds_name st; ds_description := ds_description st |} ;;
  lift (c_result c).

(** [decompile] of a wire mapping, starting with an empty log. *)
Definition run_decompile (mcls : mclass) (cdict : Dict.t value)
  : dstate * result entity :=
  decompile mcls {| ds_cdict := cdict; ds_log := []; ds_name := VNone;
                    ds_description := VNone |}.

End Decompiler.

(** ** A reference YAML codec

    [compile] and [decompile] are parametric in the codec.  To run them on
    concrete descriptions, this module gives the behaviour of the safe
    loader and of the block-style safe dumper on the fragment the metadata
    block lives in: block mappings, nested by indentation, of plain or
    single-quoted scalars, with comments.  Text outside the fragment is
    answered with [ExternalError] and is not used below. *)

Module RefYaml.

Definition code (c : ascii) : nat := nat_of_ascii c.

Definition is_space (c : ascii) : bool := Nat.eqb (code c) 32.

Definition is_digit (c : ascii) : bool :=
  Nat.leb 48 (code c) && Nat.leb (code c) 57.

Definition is_letter (c : ascii) : bool :=
  (Nat.leb 65 (code c) && Nat.leb (code c) 90)
  || (Nat.leb 97 (code c) && Nat.leb (code c) 122)
  || Nat.eqb (code c) 95.

(** Split at line feeds. *)
Fixpoint lines_aux (s : string) (cur : string) : list string :=
  match s with
  | EmptyString => [cur]
  | String c s' =>
      if Nat.eqb (code c) 10 then cur :: lines_aux s' EmptyString
      else lines_aux s' (cur ++ String c EmptyString)%string
  end.

Definition lines (s : string) : list string := lines_aux s EmptyString.

(** Cut a comment: a [#] at the start of the line or after a space. *)
Fixpoint strip_comment (after_space : bool) (s : string) : string :=
  match s with
  | EmptyString => EmptyString
  | String c s' =>
      if after_space && Nat.eqb (code c) 35 then EmptyString
      else String c (strip_comment (is_space c) s')
  end.

Fixpoint lstrip (s : string) : string :=
  match s with
  | String c s' => if is_space c then lstrip s' else s
  | EmptyString => EmptyString
  end.

Fixpoint rstrip (s : string) : string :=
  match s with
  | EmptyString => EmptyString
  | String c s' =>
      match rstrip s' with
      | EmptyString => if is_space c then EmptyString else String c EmptyString
      | r => String c r
      end
  end.

Definition strip (s : string) : string := lstrip (rstrip s).

Definition indent_of (s : string) : nat := String.length s - String.length (lstrip s).

(** Position of the colon that ends a key: the first one followed by a
    space or by the end of the line. *)
Fixpoint key_end (s : string) : option nat :=
  match s with
  | EmptyString => None
  | String c s' =>
      if Nat.eqb (code c) 58
         && match s' with
            | EmptyString => true
            | String c' _ => is_space c'
            end
      then Some O
      else option_map S (key_end s')
  end.

Definition outside (what : string) : exn :=
  ExternalError ("outside the modelled fragment: " ++ what)%string.

Definition null_words : list string := ["null"; "Null"; "NULL"; "~"].
Definition true_words : list string := ["true"; "True"; "TRUE"].
Definition false_words : list string := ["false"; "False"; "FALSE"].

Fixpoint all_chars (p : ascii -> bool) (s : string) : bool :=
  match s with
  | EmptyString => true
  | String c s' => p c && all_chars p s'
  end.

Fixpoint digits_value (s : string) (acc : Z) : Z :=
  match s with
  | EmptyString => acc
  | String c s' => digits_value s' (10 * acc + Z.of_nat (code c - 48))
  end.

(** Characters that cannot open a plain scalar. *)
Definition indicator (c : ascii) : bool :=
  existsb (Nat.eqb (code c))
          [91; 93; 123; 125; 44; 38; 42; 33; 124; 62; 34; 37; 64; 96; 45; 63].

Definition quote : ascii := ascii_of_nat 39.

(** The value of a scalar written as [raw]. *)
Definition load_scalar (raw : string) : result value :=
  match raw with
  | EmptyString => Ok VNone
  | String c rest =>
      if mem_string raw null_words then Ok VNone
      else if mem_string raw true_words then Ok (VBool true)
      else if mem_string raw false_words then Ok (VBool false)
      else if all_chars is_digit raw then Ok (VInt (digits_value raw 0))
      else if Ascii.eqb c quote then
        let inner := Str.upto (String.length rest - 1) rest in
        if Str.endswith rest (String quote EmptyString)
           && negb (Str.has_char quote inner)
        then Ok (VStr inner)
        else Raise (outside "quoted scalar")
      else if indicator c || is_digit c || Nat.eqb (code c) 46 || Nat.eqb (code c) 43
      then Raise (outside "scalar")
      else match key_end raw with
           | Some _ => Raise (YAMLError "mapping values are not allowed here")
           | None => Ok (VStr raw)
           end
  end.

(** A line of a block mapping: indentation, key, text after the colon. *)
Definition entry : Type := nat * string * string.

Fixpoint entries (ls : list string) : result (list entry) :=
  match ls with
  | [] => ret []
  | l :: ls' =>
      let text := rstrip (strip_comment true l) in
      let body := lstrip text in
      if Str.is_empty body then entries ls'
      else
        match key_end body with
        | None => Raise (outside "not a mapping entry")
        | Some i =>
            let key := Str.upto i body in
            match key with
            | EmptyString => Raise (YAMLError "expected a key")
            | String c _ =>
                if indicator c then Raise (outside "key")
                else
                  rest <- entries ls' ;;
                  ret ((indent_of text, key, strip (Str.from (S i) body)) :: rest)
            end
        end
  end.

(** The block mapping whose entries sit at indentation [ind]; yields the
    mapping and the entries after it. *)
Fixpoint block (fuel : nat) (ind : nat) (es : list entry)
  : result (Dict.t value * list entry) :=
  match fuel with
  | O => Raise (outside "nesting")
  | S fuel' =>
      match es with
      | [] => ret ([], [])
      | (i, key, raw) :: rest =>
          if Nat.ltb i ind then ret ([], es)
          else if Nat.ltb ind i then Raise (YAMLError "bad indentation of a mapping entry")
          else
            r <- match raw, rest with
                 | EmptyString, (i', _, _) :: _ =>
                     if Nat.ltb ind i'
                     then r <- block fuel' i' rest ;;
                          ret (VDict (fst r), snd r)
                     else ret (VNone, rest)
                 | _, (i', _, _) :: _ =>
                     if Nat.ltb ind i'
                     then Raise (YAMLError "mapping values are not allowed here")
                     else v <- load_scalar raw ;; ret (v, rest)
                 | _, [] => v <- load_scalar raw ;; ret (v, rest)
                 end ;;
            more <- block fuel' ind (snd r) ;;
            if Dict.mem key (fst more)
            then Raise (YAMLError "found duplicate key")
            else ret ((key, fst r) :: fst more, snd more)
      end
  end.

(** [yaml.load(text)] *)
Definition load (text : string) : result value :=
  es <- entries (lines text) ;;
  match es with
  | [] => ret VNone
  | (ind, _, _) :: _ =>
      r <- block (S (2 * length es)) ind es ;;
      match snd r with
      | [] => ret (VDict (fst r))
      | _ => Raise (YAMLError "bad indentation of a mapping entry")
      end
  end.

(** Keys are written in sorted order. *)
Fixpoint insert_sorted (kv : string * value) (d : Dict.t value) : Dict.t value :=
  match d with
  | [] => [kv]
  | kv' :: d' =>
      if String.leb (fst kv) (fst kv') then kv :: d
      else kv' :: insert_sorted kv d'
  end.

Definition sort_items (d : Dict.t value) : Dict.t value :=
  fold_right insert_sorted [] d.

Fixpoint spaces (n : nat) : string :=
  match n with
  | O => EmptyString
  | S n' => String (ascii_of_nat 32) (spaces n')
  end.

Fixpoint digits_of (fuel : nat) (n : nat) (acc : string) : string :=
  match fuel with
  | O => acc
  | S fuel' =>
      let acc' := String (ascii_of_nat (48 + n mod 10)) acc in
      if Nat.ltb n 10 then acc' else digits_of fuel' (n / 10) acc'
  end.

Definition decimal (z : Z) : string :=
  let n := Z.abs_nat z in
  ((if Z.ltb z 0 then "-" else EmptyString) ++ digits_of (S n) n EmptyString)%string.

Definition plain_char (c : ascii) : bool :=
  is_letter c || is_digit c || is_space c
  || existsb (Nat.eqb (code c)) [35; 40; 41; 45; 46; 47; 58].

(** Strings the dumper writes without quotes. *)
Definition plain_safe (s : string) : bool :=
  match s with
  | EmptyString => false
  | String c _ =>
      is_letter c
      && all_chars plain_char s
      && String.eqb (rstrip s) s
      && String.eqb (strip_comment false s) s
      && match key_end s with Some _ => false | None => true end
      && negb (mem_string s (null_words ++ true_words ++ false_words))
  end.

Definition dump_scalar (v : value) : result string :=
  match v with
  | VNone => Ok "null"
  | VBool true => Ok "true"
  | VBool false => Ok "false"
  | VInt z => Ok (decimal z)
  | VStr s =>
      if plain_safe s then Ok s
      else if negb (Str.has_char quote s) && negb (Str.has_char (ascii_of_nat 10) s)
           then Ok (String quote s ++ String quote EmptyString)%string
           else Raise (outside "scalar")
  | _ => Raise (outside "value")
  end.

Definition width : nat := 80.

Definition line (ind : nat) (key text : string) : result string :=
  let l := (spaces ind ++ key ++ ":" ++ text)%string in
  if Nat.ltb width (String.length l) then Raise (outside "long line")
  else Ok (l ++ Str.nl)%string.

(** Keys are written in sorted order, at every level. *)
Fixpoint sort_keys (v : value) : value :=
  match v with
  | VDict d =>
      VDict (sort_items
               ((fix each (d : Dict.t value) : Dict.t value :=
                   match d with
                   | [] => []
                   | (k, x) :: d' => (k, sort_keys x) :: each d'
                   end) d))
  | _ => v
  end.

(** The lines of the mapping [v], its entries at indentation [ind]. *)
Fixpoint dump_map (ind : nat) (v : value) {struct v} : result string :=
  match v with
  | VDict d =>
      (fix items (d : Dict.t value) : result string :=
         match d with
         | [] => ret EmptyString
         | (k, x) :: d' =>
             here <- match x with
                     | VDict [] => line ind k " {}"
                     | VDict _ =>
                         head <- line ind k EmptyString ;;
                         body <- dump_map (ind + 2) x ;;
                         ret (head ++ body)%string
                     | _ => s <- dump_scalar x ;; line ind k (" " ++ s)
                     end ;;
             rest <- items d' ;;
             ret (here ++ rest)%string
         end) d
  | _ => Raise (outside "value")
  end.

(** [yaml.dump(data, stream)] followed by [stream.getvalue()] *)
Definition dump (data : value) : result string :=
  match data with
  | VDict [] => Ok ("{}" ++ Str.nl)%string
  | VDict _ => dump_map 0 (sort_keys data)
  | _ => Raise (outside "document")
  end.

End RefYaml.

(** ** A sample registry

    Kinds in the shape the schema provider gives them, for running the model:
    string properties checked by a plain validator, collections of nested
    kinds, and the three capability kinds the attribute gate looks up. *)

Module Sample.

Definition is_identifier (s : string) : bool :=
  match s with
  | EmptyString => false
  | String c r =>
      RefYaml.is_letter c
      && RefYaml.all_chars (fun c => RefYaml.is_letter c || RefYaml.is_digit c) r
  end.

Fixpoint keep_word_chars (s : string) : string :=
  match s with
  | EmptyString => EmptyString
  | String c r =>
      if RefYaml.is_letter c || RefYaml.is_digit c
      then String c (keep_word_chars r) else keep_word_chars r
  end.

(** Modelled from the spec: [get_valid_identifier] lives in the utilities
    module, which is not among the sources; the spec says the proposed name
    is coerced to a valid identifier form.  A name that is an identifier is
    kept; otherwise the characters that cannot occur in one are dropped and
    an underscore is put in front if that is still needed.  A name that is
    not a string cannot name a class. *)
Definition get_valid_identifier (v : value) : result string :=
  match v with
  | VStr s =>
      if Str.is_empty s || is_identifier s then Ok s
      else let s' := keep_word_chars s in
           if is_identifier s' then Ok s' else Ok ("_" ++ s')%string
  | _ => Raise (TypeError "type.__new__() argument 1 must be str, not {}"
                          [VStr (Py.type_name v)])
  end.

(** No provider specifications occur in the sample kinds. *)
Definition provider_spec (v : value) : result value :=
  Raise (ExternalError "provider_spec").

Definition object_compile (d : Dict.t value) (cls : entity) : result value :=
  Raise (ExternalError "ObjectDict.compile").

(** The built-in [str]. *)
Definition str_call (v : value) : result value :=
  match v with
  | VStr s => Ok (VStr s)
  | VNone => Ok (VStr "None")
  | VBool true => Ok (VStr "True")
  | VBool false => Ok (VStr "False")
  | VInt z => Ok (VStr (RefYaml.decimal z))
  | _ => Raise (ExternalError "str() of a container")
  end.

Definition str_type : pytype :=
  {| ty_name := "str";
     ty_decompile := None;
     ty_isinstance := fun v => match v with VStr _ => true | _ => false end;
     ty_call := str_call |}.

(** A plain property validator: [None] or an instance of its kind, and for
    an array a list of such. *)
Definition check_item (ty : pytype) (v : value) : result unit :=
  match v with
  | VNone => Ok tt
  | _ => if ty_isinstance ty v then Ok tt
         else Raise (TypeError "{} is not of type {}" [v; VStr (ty_name ty)])
  end.

Definition plain_validate (ty : pytype) (v : value) (is_array : bool) : result value :=
  if is_array then
    match v with
    | VList l => _ <- map_result (check_item ty) l ;; ret VNone
    | _ => Raise (TypeError "{} is not of type {}" [v; VStr "list"])
    end
  else _ <- check_item ty v ;; ret VNone.

Definition validator_class : pytype :=
  {| ty_name := "PropertyValidator";
     ty_decompile := None;
     ty_isinstance := fun _ => false;
     ty_call := fun _ => Raise (ExternalError "PropertyValidator()") |}.

Definition plain_validator (ty : pytype) : validator :=
  {| v_is_object := false;
     v_validate := plain_validate ty;
     v_kind := Some ty;
     v_type := validator_class |}.

Definition string_property (name : string)
  : (string * (validator * bool)) * (string * factory) :=
  ((name, (plain_validator str_type, false)), (name, FValue (VStr Str.empty))).

(** A kind whose wire keys are given by [display]. *)
Definition kind (name schema : string)
           (props : list ((string * (validator * bool)) * (string * factory)))
           (display : Dict.t string) : mclass :=
  {| m_name := name;
     m_mro := [name; "EntityType"; "EntityTypeBase"; "type"; "object"];
     schema_name := Some schema;
     openapi_type := Some schema;
     m_schema := Some {| validator_dict := map fst props;
                         default_attrs := map snd props;
                         display_map := display |};
     m_attrs := [] |}.

Definition same_keys (names : list string) : Dict.t string :=
  map (fun n => (n, n)) names.

Definition VariableType : mclass :=
  kind "VariableType" "Variable"
       [string_property "name"; string_property "description"; string_property "value"]
       (same_keys ["name"; "description"; "value"]).

Definition ActionType : mclass :=
  kind "ActionType" "Action"
       [string_property "name"; string_property "description"]
       (same_keys ["name"; "description"]).

Definition DescriptorType : mclass :=
  {| m_name := "DescriptorType";
     m_mro := ["DescriptorType"; "EntityType"; "EntityTypeBase"; "type"; "object"];
     schema_name := Some "Descriptor";
     openapi_type := None;
     m_schema := Some {| validator_dict := []; default_attrs := []; display_map := [] |};
     m_attrs := [] |}.

Definition capability_types : Dict.t mclass :=
  [("Variable", VariableType); ("Action", ActionType); ("Descriptor", DescriptorType)].

(** An entity kind seen as the [__kind__] of a property validator. *)
Definition kind_type (m : mclass) : pytype :=
  {| ty_name := m_name m;
     ty_decompile :=
       Some (fun v =>
               match v with
               | VDict d =>
                   let run := run_decompile capability_types RefYaml.load RefYaml.dump
                                            get_valid_identifier provider_spec m d in
                   {| c_obj := VDict (ds_cdict (fst run));
                      c_log := ds_log (fst run);
                      c_result := e <- snd run ;; ret (entity_value e) |}
               | _ => quiet v (Raise (AttributeError "get"))
               end);
     ty_isinstance := fun v => isinstance v m;
     ty_call := fun _ => Raise (ExternalError "class creation") |}.

Definition list_property (name : string) (m : mclass)
  : (string * (validator * bool)) * (string * factory) :=
  ((name, (plain_validator (kind_type m), true)), (name, FList)).

Definition PackageType : mclass :=
  kind "PackageType" "Package"
       [string_property "name"; string_property "description"]
       (same_keys ["name"; "description"]).

Definition ServiceType : mclass :=
  kind "ServiceType" "Service"
       [string_property "name"; string_property "description";
        list_property "variables" VariableType]
       [("name", "name"); ("description", "description");
        ("variables", "variable_list")].

Definition DeploymentType : mclass :=
  kind "DeploymentType" "Deployment"
       [string_property "name"; string_property "description";
        list_property "packages" PackageType; string_property "min_replicas"]
       (same_keys ["name"; "description"; "packages"; "min_replicas"]).

Definition types : Dict.t mclass :=
  capability_types
  ++ [("Package", PackageType); ("Service", ServiceType);
      ("Deployment", DeploymentType)].

Definition compile : mclass -> entity -> cstate * result (Dict.t value) :=
  run_compile types RefYaml.load RefYaml.dump object_compile.

Definition decompile : mclass -> Dict.t value -> dstate * result entity :=
  run_decompile types RefYaml.load RefYaml.dump get_valid_identifier provider_spec.

(** A definition of kind [m] named [name] with the attributes [attrs] and
    the documentation text [doc], as a class statement with the single base
    [Entity] creates it. *)
Definition define (m : mclass) (name : string) (doc : value) (attrs : Dict.t value)
  : result entity :=
  __new__ types m name
          ([("__module__", VStr module_name); ("__doc__", doc)] ++ attrs).

Definition metadata (entries : list string) : string :=
  (Str.nl ++ sep_string ++ Str.nl ++ "calm_dsl_metadata:" ++ Str.nl
   ++ String.concat EmptyString (map (fun e => "  " ++ e ++ Str.nl) entries))%string.

(** A service definition without attributes of its own: what the class
    statement [class name(Service)] with docstring [doc] amounts to. *)
Definition service (name doc : string) : entity :=
  {| e_mro := m_mro ServiceType;
     e_name := name;
     e_dict := [("__module__", VStr module_name); ("__doc__", VStr doc);
                ("__kind__", VStr "Service"); ("name", VStr Str.empty);
                ("description", VStr Str.empty); ("variables", VList [])] |}.

(** A variable as the attribute gate leaves it: created by the Variable
    kind with a value, then given the name of the attribute it sits in. *)
Definition variable (name value : string) : pyvalue :=
  VEntity (m_mro VariableType) name
          [("value", VStr value); ("__module__", VStr module_name);
           ("__doc__", VNone); ("__kind__", VStr "Variable");
           ("name", VStr name); ("description", VStr Str.empty)].

(** The definition of the display-name example: identifier [MyKind],
    display name [Friendly Name]. *)
Definition my_kind : entity :=
  service "MyKind" ("X" ++ metadata ["display_name: Friendly Name"]).

End Sample.

(** ** Attribute gathering over a store of list objects

    The first two steps of [compile] ([get_all_attrs], [update_attrs]) once
    more, with every list a reference into a store, so that one list object
    reached from two places is one location.  Elements of a list are kept by
    value; an attribute is a list object or any other value. *)

Module Store.

Definition loc := nat.

(** The list objects allocated so far, by location. *)
Definition store := list (list value).

Inductive rvalue : Type :=
| Imm (v : value)
| Ref (l : loc).

(** What an attribute looks like by value. *)
Definition view (h : store) (rv : rvalue) : value :=
  match rv with
  | Imm v => v
  | Ref l => VList (nth l h [])
  end.

Definition view_dict (h : store) (d : Dict.t rvalue) : Dict.t value :=
  map (fun kv => (fst kv, view h (snd kv))) d.

(** The class of an attribute does not depend on the store. *)
Definition shape (rv : rvalue) : value :=
  match rv with
  | Imm v => v
  | Ref _ => VList []
  end.

(** A new list object holding [xs]. *)
Definition alloc (xs : list value) : py store rvalue :=
  fun h => ((h ++ [xs])%list, Ok (Ref (length h))).

Fixpoint update (l : loc) (xs : list value) (h : store) {struct h} : store :=
  match h, l with
  | [], _ => []
  | _ :: h', O => xs :: h'
  | ys :: h', S l' => ys :: update l' xs h'
  end.

(** [target.append(value)] *)
Definition append (target : rvalue) (value : pyvalue) : py store unit :=
  match target with
  | Ref l => fun h => (update l (nth l h [] ++ [value])%list h, Ok tt)
  | Imm _ => raise (AttributeError "append")
  end.

Section Gather.

Variable types : Dict.t mclass.

(** [ret[key] = value()] for each default. *)
Fixpoint call_factories (defaults : Dict.t factory) : py store (Dict.t rvalue) :=
  match defaults with
  | [] => ret []
  | (key, f) :: rest =>
      v <- match f with
           | FList => alloc []
           | FValue v => ret (Imm v)
           end ;;
      r <- call_factories rest ;;
      ret ((key, v) :: r)
  end.

(** [EntityType.get_default_attrs(mcls)] *)
Definition get_default_attrs (mcls : mclass) : py store (Dict.t rvalue) :=
  match m_schema mcls with
  | Some sch => call_factories (default_attrs sch)
  | None => ret []
  end.

(** [EntityType.get_user_attrs(cls)] over the [__dict__] of the class. *)
Fixpoint user_attrs_of (ActionType VariableType DescriptorType : option mclass)
         (items : Dict.t rvalue) (user_attrs : Dict.t rvalue)
  : result (Dict.t rvalue) :=
  match items with
  | [] => ret user_attrs
  | (name, value) :: rest =>
      skip <- (if is_dunder name then
                 b <- isinstance_opt2 (shape value) VariableType ActionType ;;
                 if (b : bool) then ret false
                 else b' <- isinstance_type_opt (shape value) DescriptorType ;;
                      ret (negb b')
               else ret false) ;;
      if (skip : bool)
      then user_attrs_of ActionType VariableType DescriptorType rest user_attrs
      else user_attrs_of ActionType VariableType DescriptorType rest
                         (Dict.set name value user_attrs)
  end.

Definition get_user_attrs (cls_dict : Dict.t rvalue) : result (Dict.t rvalue) :=
  user_attrs_of (Dict.get "Action" types) (Dict.get "Variable" types)
                (Dict.get "Descriptor" types) cls_dict [].

(** [EntityType.get_all_attrs(cls)] *)
Definition get_all_attrs (mcls : mclass) (cls_dict : Dict.t rvalue)
  : py store (Dict.t rvalue) :=
  default_attrs <- get_default_attrs mcls ;;
  user_attrs <- lift (get_user_attrs cls_dict) ;;
  ret (Dict.merge default_attrs user_attrs).

(** [list(attrs.get(key, []))]: always a new list object. *)
Definition list_copy (key : string) (attrs : Dict.t rvalue) : py store rvalue :=
  match Dict.get key attrs with
  | Some (Ref l) => fun h => alloc (nth l h []) h
  | Some (Imm v) => xs <- lift (Py.iter v) ;; alloc xs
  | None => alloc []
  end.

(** [attrs[attr_name].append(value)] *)
Definition append_attr (attr_name : option string) (value : pyvalue)
           (attrs : Dict.t rvalue) : py store unit :=
  match attr_name with
  | None => raise (UnboundLocalError "attr_name")
  | Some a =>
      match Dict.get a attrs with
      | None => raise (KeyError a)
      | Some target => append target value
      end
  end.

(** The promotion loop of [update_attrs]; the dictionary itself does not
    change while it runs, the list objects it points to do. *)
Fixpoint promote (vdict : Dict.t (validator * bool))
         (ActionType VariableType DescriptorType : option mclass)
         (attrs : Dict.t rvalue) (keys : list string)
         (attr_name : option string) (del_keys : list string)
  : py store (list string) :=
  match keys with
  | [] => ret del_keys
  | key :: rest =>
      match Dict.get key attrs with
      | None => promote vdict ActionType VariableType DescriptorType
                        attrs rest attr_name del_keys
      | Some value =>
          if Dict.mem key vdict
          then promote vdict ActionType VariableType DescriptorType
                       attrs rest attr_name del_keys
          else
            attr_name' <- lift (classify ActionType VariableType DescriptorType
                                         key (shape value) attr_name) ;;
            append_attr attr_name' (shape value) attrs ;;
            promote vdict ActionType VariableType DescriptorType
                    attrs rest attr_name' (del_keys ++ [key])%list
      end
  end.

(** [EntityType.update_attrs(mcls, attrs)]; yields [attrs] after it. *)
Definition update_attrs (mcls : mclass) (attrs : Dict.t rvalue)
  : py store (Dict.t rvalue) :=
  match m_schema mcls with
  | None => ret attrs
  | Some sch =>
      let vdict := validator_dict sch in
      if negb (Dict.mem "variables" vdict) && negb (Dict.mem "actions" vdict)
      then ret attrs
      else
        vars <- list_copy "variables" attrs ;;
        let attrs := Dict.set "variables" vars attrs in
        attrs <- (if Dict.mem "actions" vdict
                  then acts <- list_copy "actions" attrs ;;
                       ret (Dict.set "actions" acts attrs)
                  else ret attrs) ;;
        del_keys <- promote vdict (Dict.get "Action" types) (Dict.get "Variable" types)
                            (Dict.get "Descriptor" types) attrs (Dict.keys attrs)
                            None [] ;;
        ret (fold_left (fun a k => Dict.remove k a) del_keys attrs)
  end.

(** The attributes [compile] works on: its first two statements. *)
Definition gather (mcls : mclass) (cls_dict : Dict.t rvalue)
  : py store (Dict.t rvalue) :=
  attrs <- get_all_attrs mcls cls_dict ;;
  update_attrs mcls attrs.

End Gather.

(** Every list object an attribute refers to exists in the store. *)
Definition allocated (h : store) (d : Dict.t rvalue) : Prop :=
  forall k l, In (k, Ref l) d -> l < length h.

End Store.

(** ** Vocabulary of the statements *)

(** A value the gate takes for a variable or an action of the kind at hand:
    the test of the [except] branch of [_validate]. *)
Definition recognized (types : Dict.t mclass) (vdict : Dict.t (validator * bool))
           (v : value) : bool :=
  match Dict.get "Variable" types, Dict.get "Descriptor" types with
  | Some VariableType, Some DescriptorType =>
      (Dict.mem "variables" vdict && isinstance v VariableType)
      || (Dict.mem "actions" vdict && isinstance_type v DescriptorType)
  | _, _ => false
  end.

(** The error raised for an attribute that is neither a property nor a
    recognized member. *)
Definition unknown_attribute_error (types : Dict.t mclass) (name : string) : exn :=
  match Dict.get "Variable" types with
  | None => TypeError "Variable type not defined" []
  | Some _ =>
      match Dict.get "Descriptor" types with
      | None => TypeError "Descriptor type not defined" []
      | Some _ => TypeError "Unknown attribute {} given" [VStr name]
      end
  end.

(** The state of [decompile] with the wire mapping replaced. *)
Definition with_cdict (c : Dict.t value) (st : dstate) : dstate :=
  {| ds_cdict := c; ds_log := ds_log st; ds_name := ds_name st;
     ds_description := ds_description st |}.

(** The inverse display map of a kind. *)
Definition inverse_of (mcls : mclass) : Dict.t string :=
  match m_schema mcls with
  | Some sch => invert (display_map sch)
  | None => []
  end.

(** A wire key with a (truthy) inverse entry. *)
Definition mapped (inverse : Dict.t string) (kv : string * value) : bool :=
  match Dict.get (fst kv) inverse with
  | Some p => negb (Str.is_empty p)
  | None => false
  end.

(** The entries of a wire mapping [decompile] reads at all. *)
Definition read_by_decompile (inverse : Dict.t string) (kv : string * value) : bool :=
  mapped inverse kv || String.eqb "name" (fst kv) || String.eqb "description" (fst kv).

(** A property whose value [decompile] hands to a nested [decompile]: its
    validator resolves to a type that has one. *)
Definition decompiles (validator_dict : Dict.t (validator * bool)) (p : string)
  : bool :=
  match Dict.get p validator_dict with
  | Some (validator, _) =>
      let has_decompile (ty : pytype) :=
        match ty_decompile ty with Some _ => true | None => false end in
      match v_kind validator with
      | Some entity_type =>
          negb (String.eqb (ty_name entity_type) "ProviderSpecType")
          && has_decompile entity_type
      | None => has_decompile (v_type validator)
      end
  | None => false
  end.

(** A wire key mapped to such a property. *)
Definition handed_on (mcls : mclass) (k : string) : bool :=
  match m_schema mcls with
  | Some sch =>
      match Dict.get k (invert (display_map sch)) with
      | Some p => negb (Str.is_empty p) && decompiles (validator_dict sch) p
      | None => false
      end
  | None => false
  end.

(** The name [decompile] starts from: the wire name, or the schema name of
    the kind when the mapping has none. *)
Definition wire_name (mcls : mclass) (cdict : Dict.t value) : value :=
  match Dict.get "name" cdict with
  | Some v => v
  | None => option_string_value (schema_name mcls)
  end.

(** The validator dict of a kind. *)
Definition validator_dict_of (mcls : mclass) : Dict.t (validator * bool) :=
  match m_schema mcls with
  | Some sch => validator_dict sch
  | None => []
  end.

(** The first two statements of [compile] by value. *)
Definition gather_by_value (types : Dict.t mclass) (mcls : mclass)
           (cls_dict : Dict.t value) : result (Dict.t value) :=
  attrs <- get_all_attrs types mcls
                         {| e_mro := m_mro mcls; e_name := Str.empty;
                            e_dict := cls_dict |} ;;
  update_attrs types mcls attrs.

(** A kind whose [update_attrs] promotes members. *)
Definition promotes (mcls : mclass) : bool :=
  match m_schema mcls with
  | Some sch => Dict.mem "variables" (validator_dict sch)
                || Dict.mem "actions" (validator_dict sch)
  | None => false
  end.

(** In [attrs], the list object [l] is reached from key [a] and from nowhere
    else: changing it changes the view of that one entry. *)
Definition points_once (attrs : Dict.t Store.rvalue) (a : string) (l : Store.loc)
  : Prop :=
  forall (h : Store.store) (xs : list value),
    l < length h ->
    Store.view_dict (Store.update l xs h) attrs
    = Dict.set a (VList xs) (Store.view_dict h attrs).

(** The list objects [update_attrs] may append to are those it created:
    locations from [n] on. *)
Definition fresh_targets (n : nat) (attrs : Dict.t Store.rvalue) : Prop :=
  forall a l,
    a = "actions" \/ a = "variables" ->
    Dict.get a attrs = Some (Store.Ref l) ->
    n <= l /\ points_once attrs a l.

(** Short names for the store model. *)
Local Abbreviation loc := Store.loc.
Local Abbreviation store := Store.store.
Local Abbreviation rvalue := Store.rvalue.
Local Abbreviation Imm := Store.Imm.
Local Abbreviation Ref := Store.Ref.
Local Abbreviation view := Store.view.
Local Abbreviation view_dict := Store.view_dict.
Local Abbreviation shape := Store.shape.
Local Abbreviation alloc := Store.alloc.
Local Abbreviation update := Store.update.
Local Abbreviation allocated := Store.allocated.
Local Abbreviation call_factories := Store.call_factories.

(** ** Display names and references *)

(** [v.get(key, default)] *)
Definition get_or (v : value) (key : string) (default : value) : result value :=
  match v with
  | VDict d | VObject d =>
      Ok (match Dict.get key d with Some w => w | None => default end)
  | _ => Raise (AttributeError "get")
  end.

(** [a or b] *)
Definition or_else (a b : value) : value := if Py.truthy a then a else b.

(** [getattr(cls, name, default)] for [description], [name] and the like:
    attributes that neither [Entity] nor [EntityType] defines, so that the
    [__dict__] of a class based on [Entity] decides. *)
Definition getattr_or (cls : entity) (name : string) (default : value) : value :=
  match Dict.get name (e_dict cls) with Some v => v | None => default end.

(** The text [get_name] searches: the [description] attribute, or the
    documentation text when that is falsy. *)
Definition description_of (cls : entity) : value :=
  let description := getattr_or cls "description" (VStr Str.empty) in
  if Py.truthy description then description else doc_of cls.

(** What [get_name] returns when the metadata gives no display name. *)
Definition own_name (cls : entity) : value :=
  or_else (getattr_or cls "name" VNone) (VStr (e_name cls)).

(** [getattr(cls, "__kind__")]: a class based on [Entity] that has no
    [__kind__] of its own finds the one of [Entity], which is [None]. *)
Definition kind_of (cls : entity) : value := getattr_or cls "__kind__" VNone.

Section Names.

Variable types : Dict.t mclass.
Variable yaml_load : string -> result value.

Definition log_warning : string -> py (list string) unit :=
  warning (fun l => l) (fun l _ => l).

(** The [try] block of [get_name]. *)
Definition get_name_try (md_str : string) : result value :=
  md_obj <- yaml_load md_str ;;
  dsl_metadata <- get_or md_obj "calm_dsl_metadata" (VDict []) ;;
  get_or dsl_metadata "display_name" VNone.

(** [EntityType.get_name(cls)], run on the log. *)
Definition get_name (cls : entity) : py (list string) value :=
  display_name <-
    match description_of cls with
    | VNone => ret VNone
    | VStr description =>
        match Str.find sep_string description with
        | None => ret VNone
        | Some metadata_ind =>
            let md_str :=
              Str.from (metadata_ind + String.length sep_string) description in
            match get_name_try md_str with
            | Ok display_name => ret display_name
            | Raise _ => log_warning metadata_warning ;; ret VNone
            end
        end
    | _ => raise (AttributeError "find")
    end ;;
  ret (or_else (or_else display_name (getattr_or cls "name" VNone))
               (VStr (e_name cls))).

(** [EntityType.get_ref(cls, kind)]: [None] when no Ref kind is registered,
    else the reference created by the Ref kind, which takes its [__new__] from
    [EntityType]. *)
Definition get_ref (cls : entity) (kind : value) : py (list string) (option entity) :=
  match Dict.get "Ref" types with
  | None => ret None
  | Some ref =>
      name <- get_name cls ;;
      let attrs := [("name", name); ("kind", or_else kind (kind_of cls))] in
      r <- lift (match schema_name ref with
                 | Some n => __new__ types ref n attrs
                 | None =>
                     Raise (TypeError "type.__new__() argument 1 must be str, not {}"
                                      [VStr "NoneType"])
                 end) ;;
      ret (Some r)
  end.

End Names.

(** ** The JSON decoder hook *)

(** [EntityType] itself: registered by [__init_subclass__] under its schema
    name [None], and left without schema attributes. *)
Definition EntityType : mclass :=
  {| m_name := "EntityType";
     m_mro := ["EntityType"; "EntityTypeBase"; "type"; "object"];
     schema_name := None;
     openapi_type := None;
     m_schema := None;
     m_attrs := [] |}.

Section Decoder.

Variable types : Dict.t mclass.
Variable yaml_load : string -> result value.
Variable yaml_dump : value -> result string.
Variable get_valid_identifier : value -> result string.
Variable provider_spec : value -> result value.

(** [types.get(kind, None)] for a key found in a decoded document: the named
    kinds are in [types], [None] is the key of [EntityType], a list or a
    mapping cannot be a key. *)
Definition types_get (kind : value) : result (option mclass) :=
  match kind with
  | VStr k => Ok (Dict.get k types)
  | VNone => Ok (Some EntityType)
  | VList _ | VDict _ | VObject _ =>
      Raise (TypeError "unhashable type: '{}'" [VStr (Py.type_name kind)])
  | _ => Ok None
  end.

(** [EntityJSONDecoder.object_hook(self, attrs)], with the state [decompile]
    leaves: the mapping [attrs] after the call and the log. *)
Definition object_hook (attrs : Dict.t value) : dstate * result value :=
  let st := {| ds_cdict := attrs; ds_log := []; ds_name := VNone;
               ds_description := VNone |} in
  match Dict.get "__kind__" attrs with
  | None => (st, Ok (VDict attrs))
  | Some kind =>
      match types_get kind with
      | Raise e => (st, Raise e)
      | Ok None => (st, Raise (TypeError "Unknown entity type {} given" [kind]))
      | Ok (Some T) =>
          match run_decompile types yaml_load yaml_dump get_valid_identifier
                              provider_spec T attrs with
          | (st', Ok e) => (st', Ok (entity_value e))
          | (st', Raise e) => (st', Raise e)
          end
      end
  end.

End Decoder.

(** ** More vocabulary *)

(** A value [get_user_attrs] keeps even under a dunder-style name: a
    variable, an action, or an action descriptor. *)
Definition is_member (A V D : mclass) (v : value) : bool :=
  isinstance v V || isinstance v A || isinstance_type v D.

(** The entries of a class [__dict__] that [get_user_attrs] returns. *)
Definition user_entry (A V D : mclass) (kv : string * value) : bool :=
  negb (is_dunder (fst kv)) || is_member A V D (snd kv).

(** A plain value: not a class and not a descriptor object. *)
Definition is_plain (v : value) : bool :=
  match v with
  | VEntity _ _ _ | VDescr _ _ => false
  | _ => true
  end.

(** An object dictionary, which [compile] compiles on its own. *)
Definition is_object (v : value) : bool :=
  match v with VObject _ => true | _ => false end.

(** [k] is a wire key of the display map. *)
Definition wire_key (display_map : Dict.t string) (k : string) : Prop :=
  exists p, In (p, k) display_map.

(** [attrs] is [attrs0] after some appends to its list-valued entries: the
    keys and their order are the same, a list has grown at its end, any
    other value is the same. *)
Definition grown (attrs0 attrs : Dict.t value) : Prop :=
  Dict.keys attrs = Dict.keys attrs0
  /\ forall k, match Dict.get k attrs0 with
               | Some (VList l0) =>
                   exists l1, Dict.get k attrs = Some (VList (l0 ++ l1))
               | o => Dict.get k attrs = o
               end.

Definition is_list (v : value) : bool :=
  match v with VList _ => true | _ => false end.

(** The wire key [compile] writes property [k] under, for a property the
    display map has. *)
Definition wire_of (display_map : Dict.t string) (k : string) : string :=
  match Dict.get k display_map with Some w => w | None => Str.empty end.

(** ** A sample registry with references *)

Module SampleRef.

Definition RefType : mclass :=
  Sample.kind "RefType" "Ref"
              [Sample.string_property "name"; Sample.string_property "kind"]
              (Sample.same_keys ["name"; "kind"]).

Definition types : Dict.t mclass := Sample.types ++ [("Ref", RefType)].

Definition get_name : entity -> py (list string) value := get_name RefYaml.load.

Definition get_ref : entity -> value -> py (list string) (option entity) :=
  get_ref types RefYaml.load.

Definition object_hook : Dict.t value -> dstate * result value :=
  object_hook types RefYaml.load RefYaml.dump Sample.get_valid_identifier
              Sample.provider_spec.

End SampleRef.

(** A descriptor object.  Reading an attribute that holds one goes through
    the descriptor; statements about attribute reads are made for classes
    that hold none. *)
Definition is_descriptor (v : value) : bool :=
  match v with VDescr _ _ => true | _ => false end.

Definition no_descriptors (d : Dict.t value) : Prop :=
  forall k v, In (k, v) d -> is_descriptor v = false.

(** ** Callers: the blueprint commands

    The parts of [calm/dsl/cli/bps.py] that work on compiled payloads and on
    launch parameters.  A payload is what [json.loads] gives: mappings, lists
    and scalars. *)

Module Bps.

Definition dot : ascii := ascii_of_nat 46.

(** [s.split(sep)] for a one-character separator. *)
Fixpoint split (sep : ascii) (s : string) : list string :=
  match s with
  | EmptyString => [EmptyString]
  | String c s' =>
      if Ascii.eqb c sep then EmptyString :: split sep s'
      else match split sep s' with
           | seg :: rest => String c seg :: rest
           | [] => [String c EmptyString]
           end
  end.

(** [v.split(".")] for a value that should be a string. *)
Definition split_value (v : value) : result (list string) :=
  match v with
  | VStr s => Ok (split dot s)
  | _ => Raise (AttributeError "split")
  end.

(** [is_launch_runtime_var_action_match(launch_runtime_var_context, context_list)] *)
Definition is_launch_runtime_var_action_match
           (launch_runtime_var_context : value) (context_list : list string)
  : result bool :=
  launch_runtime_var_context_list <- split_value launch_runtime_var_context ;;
  ret (Nat.eqb (length launch_runtime_var_context_list) 2
       && Nat.leb 4 (length context_list)
       && (String.eqb (nth 1 context_list EmptyString)
                      (nth 0 launch_runtime_var_context_list EmptyString)
           && String.eqb (nth 3 context_list EmptyString)
                         (nth 1 launch_runtime_var_context_list EmptyString))).

(** [is_launch_runtime_vars_context_matching(launch_runtime_var_context, context)];
    [context] is the context string of a runtime editable. *)
Definition is_launch_runtime_vars_context_matching
           (launch_runtime_var_context : value) (context : string) : result bool :=
  let context_list := split dot context in
  if Nat.ltb 1 (length context_list)
     && String.eqb (last context_list EmptyString) "variable"
  then
    if Py.eqb (VStr (nth (length context_list - 2) context_list EmptyString))
              launch_runtime_var_context
    then ret true
    else is_launch_runtime_var_action_match launch_runtime_var_context context_list
  else ret false.

(** [list(filter(f, l))] for a test that can raise. *)
Fixpoint filter_result {A} (f : A -> result bool) (l : list A) : result (list A) :=
  match l with
  | [] => ret []
  | x :: l' =>
      b <- f x ;;
      rest <- filter_result f l' ;;
      ret (if (b : bool) then x :: rest else rest)
  end.

(** How a command function ends: it returns, it leaves through
    [sys.exit(code)], or it raises. *)
Inductive outcome (A : Type) : Type :=
| Return (a : A)
| Exit (code : Z)
| Throw (e : exn).

Arguments Return {A} a.
Arguments Exit {A} code.
Arguments Throw {A} e.

(** A logged error: the format and its arguments. *)
Definition message : Type := string * list value.

Definition multiple_matches : string :=
  "Unable to populate runtime editables: Multiple matches for name {} and context {}".

(** The end of the lookup: none, one or several entries are left. *)
Definition pick (filtered : result (list value)) (path : value) (context : string)
           (one : value -> result value) : list message * outcome value :=
  match filtered with
  | Raise e => ([], Throw e)
  | Ok [] => ([], Return VNone)
  | Ok [e] => ([], match one e with Ok v => Return v | Raise x => Throw x end)
  | Ok _ => ([(multiple_matches, [path; VStr context])], Exit (-1))
  end.

(** [get_val_launch_runtime_vars(launch_runtime_vars, field, path, context)] *)
Definition get_val_launch_runtime_vars (launch_runtime_vars : list value)
           (field : string) (path : value) (context : string)
  : list message * outcome value :=
  pick (filter_result
          (fun e =>
             c <- Py.getitem e "context" ;;
             b <- is_launch_runtime_vars_context_matching c context ;;
             if (b : bool)
             then n <- Py.getitem e "name" ;; ret (Py.eqb n path)
             else ret false)
          launch_runtime_vars)
       path context
       (fun e => v <- get_or e "value" (VDict []) ;; get_or v field VNone).

(** [key in v] *)
Definition contains (v : value) (key : string) : result bool :=
  match v with
  | VDict d | VObject d => Ok (Dict.mem key d)
  | VStr s => Ok (match Str.find key s with Some _ => true | None => false end)
  | VList l => Ok (existsb (fun x => Py.eqb x (VStr key)) l)
  | _ => Raise (TypeError "argument of type '{}' is not iterable"
                          [VStr (Py.type_name v)])
  end.

(** The mapping [v] with its items replaced. *)
Definition with_items (v : value) (d : Dict.t value) : value :=
  match v with
  | VObject _ => VObject d
  | _ => VDict d
  end.

(** [del v[key]]; yields [v] after it. *)
Definition delitem (v : value) (key : string) : result value :=
  match v with
  | VDict d | VObject d =>
      if Dict.mem key d then Ok (with_items v (Dict.remove key d))
      else Raise (KeyError key)
  | _ => Raise (TypeError "'{}' object does not support item deletion"
                          [VStr (Py.type_name v)])
  end.

(** The body of the loop over the packages in [compile_blueprint]. *)
Definition strip_package (package : value) : result value :=
  b <- contains package "action_list" ;;
  if (b : bool) then delitem package "action_list" else ret package.

(** The loop over [package_definition_list] in [compile_blueprint]: the
    list after it, with the packages visited before an exception already
    changed. *)
Fixpoint strip_package_actions (packages : list value) : list value * result unit :=
  match packages with
  | [] => ([], Ok tt)
  | package :: rest =>
      match strip_package package with
      | Raise e => (packages, Raise e)
      | Ok package' =>
          let r := strip_package_actions rest in
          (package' :: fst r, snd r)
      end
  end.

(** The body of the loop over the credentials in
    [compile_blueprint_command]; yields the credential after it and whether
    a secret was taken out. *)
Definition scrub_credential (cred : value) : result (value * bool) :=
  secret <- Py.getitem cred "secret" ;;
  flag <- Py.get secret "secret" ;;
  if Py.truthy flag then
    match secret with
    | VDict inner | VObject inner =>
        match cred with
        | VDict d | VObject d =>
            let secret' :=
              with_items secret
                (Dict.set "value" (VStr Str.empty) (Dict.remove "secret" inner)) in
            Ok (with_items cred (Dict.set "secret" secret' d), true)
        | _ => Raise (TypeError "'{}' object is not subscriptable"
                                [VStr (Py.type_name cred)])
        end
    | _ => Raise (AttributeError "pop")
    end
  else Ok (cred, false).

(** The loop over [credential_definition_list]: the list after it, and
    [is_secret_avl]. *)
Fixpoint scrub_secrets (creds : list value) (is_secret_avl : bool)
  : list value * result bool :=
  match creds with
  | [] => ([], Ok is_secret_avl)
  | cred :: rest =>
      match scrub_credential cred with
      | Raise e => (creds, Raise e)
      | Ok (cred', hit) =>
          let r := scrub_secrets rest (is_secret_avl || hit) in
          (cred' :: fst r, snd r)
      end
  end.

(** Whether a credential still shows a secret: the test of the loop. *)
Definition shows_secret (cred : value) : result bool :=
  secret <- Py.getitem cred "secret" ;;
  flag <- Py.get secret "secret" ;;
  ret (Py.truthy flag).

(** [cred'] is [cred] with the [secret] entry of its secret mapping taken
    out and [value] set to the empty string there; every other entry of the
    credential and of its secret mapping is as it was. *)
Definition scrubbed (cred cred' : value) : Prop :=
  exists secret secret',
    Py.getitem cred "secret" = Ok secret
    /\ Py.getitem cred' "secret" = Ok secret'
    /\ contains secret' "secret" = Ok false
    /\ Py.getitem secret' "value" = Ok (VStr Str.empty)
    /\ (forall k, k <> "secret" -> k <> "value" ->
                  Py.getitem secret' k = Py.getitem secret k)
    /\ (forall k, k <> "secret" -> Py.getitem cred' k = Py.getitem cred k).

End Bps.
(** * Properties *)

Unset Implicit Arguments.

(** ** The attribute gate *)

Lemma mem_get_none {V} (k : string) (d : Dict.t V) :
  Dict.mem k d = false -> Dict.get k d = None.
Proof.
  unfold Dict.mem. destruct (Dict.get k d); [discriminate | reflexivity].
Qed.

Lemma validate_body_dunder types setattr vdict name v :
  is_dunder name = true -> validate_body types setattr vdict name v = Ok v.
Proof.
  intros H. unfold validate_body. rewrite H. reflexivity.
Qed.

Lemma validate_body_unknown types setattr vdict name v :
  is_dunder name = false ->
  Dict.mem name vdict = false ->
  recognized types vdict v = false ->
  validate_body types setattr vdict name v
  = Raise (unknown_attribute_error types name).
Proof.
  intros Hd Hm Hr. unfold validate_body, unknown_attribute_error.
  rewrite Hd, (mem_get_none _ _ Hm). cbn.
  unfold recognized in Hr.
  destruct (Dict.get "Variable" types) as [VariableType|]; [|reflexivity].
  destruct (Dict.get "Descriptor" types) as [DescriptorType|]; [|reflexivity].
  rewrite Hr. reflexivity.
Qed.

(** C4, as the code has it.  An assignment (through [_validate] or through
    [EntityDict.__setitem__]) of a name that is not dunder-style and not in
    the validator dict, with a value that is not a recognized variable or
    action, always fails: with the unknown-attribute error naming the
    attribute when the registry defines the Variable and the Descriptor
    kind, with the missing-kind error otherwise.  A dunder-style name passes
    through with its value unchanged. *)
Theorem unknown_attribute_rejected :
  forall (types : Dict.t mclass) (vdict : Dict.t (validator * bool))
         (self : Dict.t value) (name : string) (v : value),
    (is_dunder name = false ->
     Dict.mem name vdict = false ->
     recognized types vdict v = false ->
     _validate types vdict name v = Raise (unknown_attribute_error types name)
     /\ __setitem__ types vdict self name v
        = Raise (unknown_attribute_error types name)
     /\ (Dict.mem "Variable" types = true ->
         Dict.mem "Descriptor" types = true ->
         unknown_attribute_error types name
         = TypeError "Unknown attribute {} given" [VStr name]))
    /\ (is_dunder name = true ->
        _validate types vdict name v = Ok v
        /\ __setitem__ types vdict self name v = Ok (Dict.set name v self)).
Proof.
  intros types vdict self name v. split.
  - intros Hd Hm Hr.
    assert (E : _validate types vdict name v
                = Raise (unknown_attribute_error types name))
      by (apply validate_body_unknown; assumption).
    split; [exact E|]. split.
    + unfold __setitem__. rewrite E. reflexivity.
    + unfold unknown_attribute_error, Dict.mem.
      destruct (Dict.get "Variable" types); [|discriminate].
      destruct (Dict.get "Descriptor" types); [|discriminate].
      reflexivity.
  - intros Hd.
    assert (E : _validate types vdict name v = Ok v)
      by (apply validate_body_dunder; assumption).
    split; [exact E|]. unfold __setitem__. rewrite E. reflexivity.
Qed.

(** The claim of C4 read literally fails before the capability kinds are
    registered: the error then names the missing kind, not the attribute. *)
Lemma unknown_attribute_unregistered_kinds :
  let vdict := [("name", (Sample.plain_validator Sample.str_type, false))] in
  is_dunder "colour" = false
  /\ Dict.mem "colour" vdict = false
  /\ recognized [] vdict (VStr "red") = false
  /\ _validate [] vdict "colour" (VStr "red")
     = Raise (TypeError "Variable type not defined" [])
  /\ _validate [] vdict "colour" (VStr "red")
     <> Raise (TypeError "Unknown attribute {} given" [VStr "colour"]).
Proof.
  cbv zeta. repeat split; try reflexivity. discriminate.
Qed.

(** The literal claim applies at concrete inputs of both kinds. *)
Lemma unknown_attribute_rejected_witness :
  let vdict := [("name", (Sample.plain_validator Sample.str_type, false))] in
  _validate Sample.types vdict "colour" (VStr "red")
  = Raise (TypeError "Unknown attribute {} given" [VStr "colour"])
  /\ _validate Sample.types vdict "__module__" (VStr "m") = Ok (VStr "m").
Proof.
  cbv zeta. split.
  - destruct (proj1 (unknown_attribute_rejected
                       Sample.types
                       [("name", (Sample.plain_validator Sample.str_type, false))]
                       [] "colour" (VStr "red"))
                    eq_refl eq_refl eq_refl) as [E [_ F]].
    rewrite E. rewrite (F eq_refl eq_refl). reflexivity.
  - exact (proj1 (proj2 (unknown_attribute_rejected
                           Sample.types
                           [("name", (Sample.plain_validator Sample.str_type, false))]
                           [] "__module__" (VStr "m")) eq_refl)).
Defined.

(** ** Decompile and the caller's mapping *)

Ltac break_match :=
  match goal with
  | |- context [match ?x with _ => _ end] =>
      lazymatch x with
      | context [match _ with _ => _ end] => fail
      | _ => destruct x eqn:?
      end
  end.

Lemma decompile_metadata_cdict yl yd st c :
  decompile_metadata yl yd (with_cdict c st)
  = (with_cdict c (fst (decompile_metadata yl yd st)),
     snd (decompile_metadata yl yd st)).
Proof.
  unfold decompile_metadata, decompile_metadata_try, set_description, set_name,
    ds_warning, warning, lift, with_cdict.
  cbn. destruct st as [c0 lg nm ds]; cbn.
  destruct ds; try reflexivity.
  destruct (Str.find sep_string s); [|reflexivity].
  cbn. repeat (break_match; cbn; try reflexivity).
Qed.

Lemma decompile_metadata_keeps_cdict yl yd st :
  ds_cdict (fst (decompile_metadata yl yd st)) = ds_cdict st.
Proof.
  pose proof (decompile_metadata_cdict yl yd st (ds_cdict st)) as H.
  replace (with_cdict (ds_cdict st) st) with st in H by (destruct st; reflexivity).
  rewrite H at 1. reflexivity.
Qed.

(** [decompile] is its metadata step followed by [decompile_build]. *)
Lemma decompile_run types yl yd gvi ps mcls st :
  decompile types yl yd gvi ps mcls st
  = let name := match Dict.get "name" (ds_cdict st) with
                | Some v => v
                | None => option_string_value (schema_name mcls)
                end in
    let description := match Dict.get "description" (ds_cdict st) with
                       | Some v => v
                       | None => VNone
                       end in
    let st1 := {| ds_cdict := Dict.remove "description" (ds_cdict st);
                  ds_log := ds_log st; ds_name := name;
                  ds_description := description |} in
    let st2 := fst (decompile_metadata yl yd st1) in
    match snd (decompile_metadata yl yd st1) with
    | Ok _ =>
        let c := decompile_build types gvi ps mcls (ds_name st2) (ds_description st2)
                                 (ds_cdict st2) in
        ({| ds_cdict := c_obj c; ds_log := ds_log st2 ++ c_log c;
            ds_name := ds_name st2; ds_description := ds_description st2 |},
         c_result c)
    | Raise e => (st2, Raise e)
    end.
Proof.
  unfold decompile. cbn -[decompile_metadata decompile_build].
  match goal with
  | |- context [decompile_metadata yl yd ?s] =>
      destruct (decompile_metadata yl yd s) as [st2 [[]|e]]
  end; reflexivity.
Qed.

Lemma get_remove_other {V} (k k' : string) (d : Dict.t V) :
  k <> k' -> Dict.get k' (Dict.remove k d) = Dict.get k' d.
Proof.
  intros Hne. unfold Dict.remove. induction d as [|[k0 v0] d IH]; [reflexivity|].
  cbn. destruct (String.eqb_spec k k0) as [->|Hk]; cbn.
  - destruct (String.eqb_spec k' k0) as [->|_]; [congruence | exact IH].
  - rewrite IH. reflexivity.
Qed.

Lemma get_remove_same {V} (k : string) (d : Dict.t V) :
  Dict.get k (Dict.remove k d) = None.
Proof.
  unfold Dict.remove. induction d as [|[k0 v0] d IH]; [reflexivity|].
  cbn. destruct (String.eqb_spec k k0) as [->|Hk]; cbn; [exact IH|].
  destruct (String.eqb_spec k k0); [contradiction | exact IH].
Qed.

Lemma keys_remove {V} (k : string) (d : Dict.t V) :
  Dict.keys (Dict.remove k d)
  = filter (fun k' => negb (String.eqb k k')) (Dict.keys d).
Proof.
  unfold Dict.remove, Dict.keys. induction d as [|[k0 v0] d IH]; [reflexivity|].
  cbn. destruct (String.eqb k k0); cbn; rewrite IH; reflexivity.
Qed.

Lemma get_none_keys {V} (k : string) (d : Dict.t V) :
  Dict.get k d = None <-> ~ In k (Dict.keys d).
Proof.
  induction d as [|[k0 v0] d IH]; cbn.
  - split; [intros _ []|reflexivity].
  - destruct (String.eqb_spec k k0) as [->|Hk].
    + split; [discriminate|]. intros H. exfalso. apply H. left. reflexivity.
    + rewrite IH. split.
      * intros H [E|I]; [congruence | exact (H I)].
      * intros H I. apply H. right. exact I.
Qed.

Lemma get_app {V} (k : string) (d1 d2 : Dict.t V) :
  Dict.get k (d1 ++ d2)
  = match Dict.get k d1 with Some v => Some v | None => Dict.get k d2 end.
Proof.
  induction d1 as [|[k0 v0] d1 IH]; cbn; [reflexivity|].
  destruct (String.eqb k k0); [reflexivity | exact IH].
Qed.

Lemma get_setdefault {V} (k k' : string) (v : V) (d : Dict.t V) :
  Dict.get k' (Dict.setdefault k v d)
  = match Dict.get k' d with
    | Some w => Some w
    | None => if String.eqb k' k then Some v else None
    end.
Proof.
  unfold Dict.setdefault, Dict.mem.
  destruct (Dict.get k d) eqn:E.
  - destruct (Dict.get k' d) eqn:E'; [reflexivity|].
    destruct (String.eqb_spec k' k) as [->|]; [congruence | reflexivity].
  - rewrite get_app. cbn. destruct (Dict.get k' d); reflexivity.
Qed.

Lemma from_wire_keeps inverse (cdict : Dict.t value) (p : string) (v : value) :
  forall acc,
    Dict.get p acc = Some v ->
    Dict.get p (from_wire inverse cdict acc) = Some v.
Proof.
  induction cdict as [|[k0 v0] cdict IH]; intros acc H; [exact H|].
  cbn [from_wire]. destruct (Dict.get k0 inverse) as [p0|]; [|apply IH; exact H].
  destruct (Str.is_empty p0); apply IH; [exact H|].
  rewrite get_setdefault, H. reflexivity.
Qed.

(** *** What the nested calls change *)

Lemma keys_shared inverse (cdict : Dict.t value) :
  forall seen objects, Dict.keys (shared inverse cdict seen objects) = Dict.keys cdict.
Proof.
  unfold Dict.keys.
  induction cdict as [|[k v] cdict IH]; intros seen objects; [reflexivity|].
  cbn [shared]. destruct (Dict.get k inverse) as [p|].
  - destruct (Str.is_empty p || mem_string p seen); cbn [map fst]; rewrite IH;
      reflexivity.
  - cbn [map fst]. rewrite IH. reflexivity.
Qed.

(** A property that is not handed to a nested [decompile] keeps its value. *)
Lemma decompile_attr_obj ps vd (p : string) (v : value) :
  decompiles vd p = false -> c_obj (decompile_attr ps vd p v) = v.
Proof.
  unfold decompiles, decompile_attr, decompile_with.
  destruct (Dict.get p vd) as [[validator is_array]|]; [|reflexivity].
  destruct (v_kind validator) as [entity_type|].
  - destruct (String.eqb (ty_name entity_type) "ProviderSpecType"); [reflexivity|].
    destruct (ty_decompile entity_type); [discriminate | reflexivity].
  - destruct (ty_decompile (v_type validator)); [discriminate | reflexivity].
Qed.

Lemma decompile_attrs_obj ps vd (p : string) (v' : value) :
  decompiles vd p = false ->
  forall attrs,
    Dict.get p (c_obj (decompile_attrs ps vd attrs)) = Some v' ->
    Dict.get p attrs = Some v'.
Proof.
  intros Hq. induction attrs as [|[k v] attrs IH]; [discriminate|].
  cbn [decompile_attrs].
  destruct (c_result (decompile_attr ps vd k v)); cbn [c_obj Dict.get];
    (destruct (String.eqb_spec p k) as [->|_];
     [rewrite decompile_attr_obj by exact Hq; trivial | trivial]).
Qed.

Lemma mem_setdefault {V} (k p : string) (v : V) (d : Dict.t V) :
  Dict.mem p (Dict.setdefault k v d) = String.eqb p k || Dict.mem p d.
Proof.
  unfold Dict.mem. rewrite get_setdefault.
  destruct (Dict.get p d); [apply eq_sym, orb_true_r|].
  destruct (String.eqb p k); reflexivity.
Qed.

(** The entry of a wire key that is not handed on is the same in the
    caller's mapping before and after the second loop. *)
Lemma get_shared inverse (objects : Dict.t value) (k : string)
      (quiet_property : string -> bool) :
  (forall p, Dict.get k inverse = Some p -> Str.is_empty p = false ->
             quiet_property p = true) ->
  forall cdict acc seen,
    (forall p, mem_string p seen = Dict.mem p acc) ->
    (forall p v', quiet_property p = true ->
                  Dict.get p objects = Some v' ->
                  Dict.get p (from_wire inverse cdict acc) = Some v') ->
    Dict.get k (shared inverse cdict seen objects) = Dict.get k cdict.
Proof.
  intros Hk. induction cdict as [|[k0 v0] cdict IH]; intros acc seen Hs Ho;
    [reflexivity|].
  cbn [shared from_wire] in *.
  destruct (Dict.get k0 inverse) as [p0|] eqn:E0.
  - destruct (Str.is_empty p0) eqn:Ee; cbn [orb].
    + cbn [Dict.get]. destruct (String.eqb k k0); [reflexivity|].
      apply (IH acc seen Hs Ho).
    + destruct (mem_string p0 seen) eqn:Em.
      * cbn [Dict.get]. destruct (String.eqb k k0); [reflexivity|].
        apply (IH (Dict.setdefault p0 v0 acc) seen); [|exact Ho].
        intros p. rewrite mem_setdefault, Hs.
        destruct (String.eqb_spec p p0) as [->|]; [|reflexivity].
        rewrite <- Hs, Em. reflexivity.
      * cbn [Dict.get]. destruct (String.eqb_spec k k0) as [->|_].
        -- destruct (Dict.get p0 objects) as [v'|] eqn:Eo; [|reflexivity].
           pose proof (Ho p0 v' (Hk p0 E0 Ee) Eo) as G.
           rewrite (from_wire_keeps inverse cdict p0 v0) in G.
           ++ congruence.
           ++ rewrite get_setdefault.
              assert (Hn : Dict.mem p0 acc = false) by (rewrite <- Hs; exact Em).
              unfold Dict.mem in Hn. destruct (Dict.get p0 acc); [discriminate|].
              rewrite String.eqb_refl. reflexivity.
        -- apply (IH (Dict.setdefault p0 v0 acc) (p0 :: seen)); [|exact Ho].
           intros p. rewrite mem_setdefault, <- Hs.
           unfold mem_string. cbn [existsb]. reflexivity.
  - cbn [Dict.get]. destruct (String.eqb k k0); [reflexivity|].
    apply (IH acc seen Hs Ho).
Qed.

(** What [decompile_build] leaves of the caller's mapping. *)
Lemma decompile_build_obj types gvi ps mcls name description (cdict : Dict.t value) :
  let c := decompile_build types gvi ps mcls name description cdict in
  Dict.keys (c_obj c) = Dict.keys cdict
  /\ forall k, handed_on mcls k = false -> Dict.get k (c_obj c) = Dict.get k cdict.
Proof.
  unfold decompile_build, handed_on, get_schema.
  destruct (gvi name); [|split; reflexivity].
  destruct (m_schema mcls) as [sch|]; [|split; reflexivity].
  cbn [c_obj]. split; [apply keys_shared|].
  intros k Hk.
  apply (get_shared (invert (display_map sch)) _ k
                    (fun p => negb (decompiles (validator_dict sch) p)))
    with (acc := []).
  - intros p Ep Ee. rewrite Ep, Ee in Hk. cbn in Hk. rewrite Hk. reflexivity.
  - reflexivity.
  - intros p v' Hq Ho. apply (decompile_attrs_obj ps (validator_dict sch)); [|exact Ho].
    destruct (decompiles (validator_dict sch) p); [discriminate | reflexivity].
Qed.

(** C10.  Whatever [decompile] returns or raises, the mapping the caller
    passed is left without its [description] entry and with every other
    key, [name] among them, in its place.  An entry keeps its value unless
    that value was handed to a nested [decompile], which treats the nested
    mapping the same way. *)
Theorem decompile_pops_description :
  forall types yaml_load yaml_dump get_valid_identifier provider_spec
         (mcls : mclass) (cdict : Dict.t value),
    let after := ds_cdict (fst (run_decompile types yaml_load yaml_dump
                                              get_valid_identifier provider_spec
                                              mcls cdict)) in
    Dict.keys after
    = filter (fun k => negb (String.eqb "description" k)) (Dict.keys cdict)
    /\ Dict.get "description" after = None
    /\ Dict.mem "name" after = Dict.mem "name" cdict
    /\ (forall k, k <> "description" -> handed_on mcls k = false ->
                  Dict.get k after = Dict.get k cdict).
Proof.
  intros types yl yd gvi ps mcls cdict after.
  assert (E : Dict.keys after = Dict.keys (Dict.remove "description" cdict)
              /\ forall k, handed_on mcls k = false ->
                           Dict.get k after
                           = Dict.get k (Dict.remove "description" cdict)).
  { unfold after, run_decompile. rewrite decompile_run.
    cbn -[decompile_metadata decompile_build Dict.remove].
    match goal with
    | |- context [decompile_metadata yl yd ?s] =>
        pose proof (decompile_metadata_keeps_cdict yl yd s) as K;
        destruct (decompile_metadata yl yd s) as [st2 [[]|e]]
    end; cbn -[decompile_build Dict.remove] in *.
    - rewrite <- K. apply decompile_build_obj.
    - rewrite K. split; reflexivity. }
  destruct E as [K G].
  assert (N : forall k, ~ In k (Dict.keys after) -> Dict.get k after = None).
  { intros k. apply get_none_keys. }
  split; [rewrite K; apply keys_remove|].
  split.
  { apply N. rewrite K, keys_remove, filter_In. cbn. intros [_ H]. discriminate. }
  split.
  { unfold Dict.mem.
    assert (M : forall (d : Dict.t value),
               (exists v, Dict.get "name" d = Some v) <-> In "name" (Dict.keys d)).
    { intros d. split.
      - intros [v Hv]. destruct (in_dec string_dec "name" (Dict.keys d)) as [I|I];
          [exact I|]. rewrite (proj2 (get_none_keys "name" d) I) in Hv. discriminate.
      - intros I. destruct (Dict.get "name" d) as [v|] eqn:Ev; [eauto|].
        exfalso. exact (proj1 (get_none_keys "name" d) Ev I). }
    assert (I : In "name" (Dict.keys after) <-> In "name" (Dict.keys cdict)).
    { rewrite K, keys_remove, filter_In. cbn. tauto. }
    destruct (Dict.get "name" after) as [v|] eqn:Ea;
      destruct (Dict.get "name" cdict) as [w|] eqn:Ec; try reflexivity; exfalso.
    - assert (X : In "name" (Dict.keys cdict)) by (apply I, M; eauto).
      apply M in X. destruct X as [x X]. congruence.
    - assert (X : In "name" (Dict.keys after)) by (apply I, M; eauto).
      apply M in X. destruct X as [x X]. congruence. }
  intros k Hk Hh. rewrite (G k Hh). apply get_remove_other. congruence.
Qed.

(** A nested mapping loses its own [description] in the same call, and a
    warning of the nested call is logged with the others. *)
Example nested_description_popped :
  let tail := (Str.nl ++ "calm_dsl_metadata: display_name: Friendly Name"
               ++ Str.nl)%string in
  let wire :=
    [("name", VStr "d");
     ("packages",
      VList [VDict [("name", VStr "p"); ("description", VStr "hello")];
             VDict [("name", VStr "q");
                    ("description", VStr ("X" ++ Str.nl ++ sep_string ++ tail))]])] in
  handed_on Sample.DeploymentType "packages" = true
  /\ exists st e,
      Sample.decompile Sample.DeploymentType wire = (st, Ok e)
      /\ ds_cdict st
         = [("name", VStr "d");
            ("packages", VList [VDict [("name", VStr "p")];
                                VDict [("name", VStr "q")]])]
      /\ ds_log st = [metadata_warning].
Proof.
  cbv zeta. split; [reflexivity|].
  do 2 eexists. split; [lazy; reflexivity|]. split; reflexivity.
Qed.

(** ** Unknown wire keys *)

Lemma from_wire_mapped inverse cdict attrs :
  from_wire inverse cdict attrs
  = from_wire inverse (filter (mapped inverse) cdict) attrs.
Proof.
  revert attrs. induction cdict as [|[k v] cdict IH]; intros attrs; [reflexivity|].
  cbn [filter]. unfold mapped at 1. cbn [fst from_wire].
  destruct (Dict.get k inverse) as [p|] eqn:E.
  - destruct (Str.is_empty p) eqn:Ep; cbn [negb from_wire].
    + apply IH.
    + rewrite E, Ep. apply IH.
  - apply IH.
Qed.

Lemma get_filter_kept {V} (p : string * V -> bool) (k : string) (d : Dict.t V) :
  (forall kv, fst kv = k -> p kv = true) ->
  Dict.get k (filter p d) = Dict.get k d.
Proof.
  intros Hp. induction d as [|[k0 v0] d IH]; [reflexivity|].
  cbn. destruct (p (k0, v0)) eqn:E; cbn.
  - rewrite IH. reflexivity.
  - destruct (String.eqb_spec k k0) as [->|_]; [|exact IH].
    rewrite (Hp (k0, v0) eq_refl) in E. discriminate.
Qed.

Lemma mapped_remove_read inverse k cdict :
  filter (mapped inverse) (Dict.remove k (filter (read_by_decompile inverse) cdict))
  = filter (mapped inverse) (Dict.remove k cdict).
Proof.
  unfold Dict.remove. induction cdict as [|kv cdict IH]; [reflexivity|].
  cbn [filter].
  destruct (read_by_decompile inverse kv) eqn:Er; cbn [filter].
  - destruct (negb (String.eqb k (fst kv))); cbn [filter];
      [destruct (mapped inverse kv)|]; rewrite IH; reflexivity.
  - assert (Em : mapped inverse kv = false).
    { unfold read_by_decompile in Er.
      destruct (mapped inverse kv); [discriminate | reflexivity]. }
    destruct (negb (String.eqb k (fst kv))); cbn [filter]; rewrite ?Em; exact IH.
Qed.

Lemma read_name inverse (kv : string * value) :
  fst kv = "name" -> read_by_decompile inverse kv = true.
Proof.
  intros E. unfold read_by_decompile. rewrite E. cbn.
  rewrite orb_true_r. reflexivity.
Qed.

Lemma read_description inverse (kv : string * value) :
  fst kv = "description" -> read_by_decompile inverse kv = true.
Proof.
  intros E. unfold read_by_decompile. rewrite E. cbn.
  rewrite orb_true_r. reflexivity.
Qed.

Lemma decompile_build_mapped types gvi ps mcls name description c1 c2 :
  filter (mapped (inverse_of mcls)) c1 = filter (mapped (inverse_of mcls)) c2 ->
  c_result (decompile_build types gvi ps mcls name description c1)
  = c_result (decompile_build types gvi ps mcls name description c2)
  /\ c_log (decompile_build types gvi ps mcls name description c1)
     = c_log (decompile_build types gvi ps mcls name description c2).
Proof.
  intros E. unfold decompile_build, inverse_of, get_schema in *.
  destruct (gvi name); [|split; reflexivity].
  destruct (m_schema mcls) as [sch|]; [|split; reflexivity].
  cbn [c_result c_log].
  rewrite (from_wire_mapped _ c1), (from_wire_mapped _ c2), E. split; reflexivity.
Qed.

(** C7, as the code has it.  [decompile] never looks at a wire key that has
    no inverse entry in the display map, [name] and [description] apart,
    which it reads directly: the attributes it collects are those of the
    mapped keys alone, and its outcome (the definition built, or the error
    raised) and its log are those it has on the mapping with every such key
    removed. *)
Theorem unknown_wire_keys_dropped :
  forall types yaml_load yaml_dump get_valid_identifier provider_spec
         (mcls : mclass) (cdict : Dict.t value),
    let run := run_decompile types yaml_load yaml_dump get_valid_identifier
                             provider_spec mcls in
    let inverse := inverse_of mcls in
    (forall attrs,
        from_wire inverse cdict attrs
        = from_wire inverse (filter (mapped inverse) cdict) attrs)
    /\ snd (run cdict) = snd (run (filter (read_by_decompile inverse) cdict))
    /\ ds_log (fst (run cdict))
       = ds_log (fst (run (filter (read_by_decompile inverse) cdict))).
Proof.
  intros types yl yd gvi ps mcls cdict run inverse.
  split; [intros attrs; apply from_wire_mapped|].
  unfold run, run_decompile. rewrite !decompile_run.
  cbv zeta. cbn [ds_cdict ds_log].
  rewrite !(get_filter_kept _ "name") by (apply read_name).
  rewrite !(get_filter_kept _ "description") by (apply read_description).
  set (name := match Dict.get "name" cdict with
               | Some v => v
               | None => option_string_value (schema_name mcls)
               end).
  set (description := match Dict.get "description" cdict with
                      | Some v => v
                      | None => VNone
                      end).
  set (st1 := {| ds_cdict := Dict.remove "description" cdict; ds_log := [];
                 ds_name := name; ds_description := description |}).
  change {| ds_cdict := Dict.remove "description"
                          (filter (read_by_decompile inverse) cdict);
            ds_log := []; ds_name := name; ds_description := description |}
    with (with_cdict (Dict.remove "description"
                        (filter (read_by_decompile inverse) cdict)) st1).
  rewrite decompile_metadata_cdict.
  pose proof (decompile_metadata_keeps_cdict yl yd st1) as K.
  destruct (decompile_metadata yl yd st1) as [st2 [[]|e]];
    cbn [fst snd with_cdict ds_cdict ds_log ds_name ds_description] in *;
    [|split; reflexivity].
  rewrite K.
  destruct (decompile_build_mapped
              types gvi ps mcls (ds_name st2) (ds_description st2)
              (Dict.remove "description" cdict)
              (Dict.remove "description" (filter (read_by_decompile inverse) cdict)))
    as [R L].
  { symmetry. apply mapped_remove_read. }
  split; [exact R | exact (f_equal (app (ds_log st2)) L)].
Qed.

(** A server-side identifier on the wire changes nothing. *)
Example uuid_is_dropped :
  let wire := [("name", VStr "web"); ("uuid", VStr "abc-123")] in
  snd (Sample.decompile Sample.ServiceType wire)
  = snd (Sample.decompile Sample.ServiceType [("name", VStr "web")])
  /\ exists e, snd (Sample.decompile Sample.ServiceType wire) = Ok e
               /\ Dict.get "uuid" (e_dict e) = None.
Proof.
  cbv zeta. split; [reflexivity|]. eexists. split; reflexivity.
Qed.

(** The claim of C7 read literally fails for [description]: for a kind
    whose display map has no such entry, a [description] on the wire that
    is not a string is an error, and one that is a string becomes the
    documentation text of the definition. *)
Lemma unmapped_description_is_read :
  let LabelType :=
    Sample.kind "LabelType" "Label" [Sample.string_property "label"]
                (Sample.same_keys ["label"]) in
  let run := run_decompile Sample.types RefYaml.load RefYaml.dump
                           Sample.get_valid_identifier Sample.provider_spec
                           LabelType in
  Dict.get "description" (inverse_of LabelType) = None
  /\ Dict.get "name" (inverse_of LabelType) = None
  /\ (exists e, snd (run [("label", VStr "a")]) = Ok e /\ doc_of e = VNone)
  /\ snd (run [("label", VStr "a"); ("description", VInt 5)])
     = Raise (AttributeError "find")
  /\ (exists e, snd (run [("label", VStr "a"); ("description", VStr "hello")]) = Ok e
                /\ doc_of e = VStr "hello").
Proof.
  cbv zeta. split; [reflexivity|]. split; [reflexivity|].
  split; [eexists; split; reflexivity|]. split; [reflexivity|].
  eexists; split; reflexivity.
Qed.

(** ** The metadata step of compile *)

Ltac msimpl :=
  cbn -[Py.eqb Py.truthy Dict.get Dict.set Str.find Str.from Str.upto
        String.append _validate compile_wire].

Lemma get_set_same {V} (k : string) (v : V) (d : Dict.t V) :
  Dict.get k (Dict.set k v d) = Some v.
Proof.
  induction d as [|[k0 v0] d IH]; cbn.
  - rewrite String.eqb_refl. reflexivity.
  - destruct (String.eqb_spec k k0) as [->|Hk]; cbn.
    + rewrite String.eqb_refl. reflexivity.
    + destruct (String.eqb_spec k k0); [contradiction | exact IH].
Qed.

Lemma get_set_other {V} (k k' : string) (v : V) (d : Dict.t V) :
  k <> k' -> Dict.get k' (Dict.set k v d) = Dict.get k' d.
Proof.
  intros Hne. induction d as [|[k0 v0] d IH]; cbn.
  - destruct (String.eqb_spec k' k); [congruence | reflexivity].
  - destruct (String.eqb_spec k k0) as [->|Hk]; cbn.
    + destruct (String.eqb_spec k' k0); [congruence | reflexivity].
    + rewrite IH. reflexivity.
Qed.

Lemma compile_wire_schema types oc mcls cls cdict :
  compile_wire types oc mcls cls = Ok cdict -> exists sch, m_schema mcls = Some sch.
Proof.
  unfold compile_wire, get_schema. cbn -[get_all_attrs update_attrs to_wire].
  destruct (get_all_attrs types mcls cls); [|discriminate].
  destruct (update_attrs types mcls a); [|discriminate].
  destruct (m_schema mcls) as [sch|]; [eauto | discriminate].
Qed.

(** [compile] is [compile_wire] followed by the metadata step. *)
Lemma compile_run types yl yd oc mcls st cdict :
  compile_wire types oc mcls (cs_cls st) = Ok cdict ->
  compile types yl yd oc mcls st
  = let st1 := {| cs_cls := cs_cls st; cs_cdict := cdict; cs_log := cs_log st |} in
    let st2 := fst (compile_metadata types yl yd mcls st1) in
    (st2, match snd (compile_metadata types yl yd mcls st1) with
          | Ok _ => Ok (cs_cdict st2)
          | Raise e => Raise e
          end).
Proof.
  intros H. unfold compile. cbn -[compile_metadata compile_wire]. rewrite H.
  cbn -[compile_metadata compile_wire].
  match goal with
  | |- context [compile_metadata types yl yd mcls ?s] =>
      destruct (compile_metadata types yl yd mcls s) as [st2 [[]|e]]
  end; reflexivity.
Qed.

(** A tail the loader rejects: [compile] logs a warning and changes nothing
    else. *)
Lemma compile_metadata_load_failure types yl yd mcls st description i e :
  Dict.get "description" (cs_cdict st) = Some (VStr description) ->
  Str.find sep_string description = Some i ->
  yl (Str.from (i + String.length sep_string) description) = Raise e ->
  compile_metadata types yl yd mcls st
  = ({| cs_cls := cs_cls st; cs_cdict := cs_cdict st;
        cs_log := cs_log st ++ [metadata_warning] |}, Ok tt).
Proof.
  intros Hd Hf Hl. unfold compile_metadata. msimpl.
  rewrite Hd, Hf. msimpl. cbn in Hl. rewrite Hl. reflexivity.
Qed.

Lemma compile_metadata_override types yl yd mcls st description i md inner dn n s sch :
  Dict.get "description" (cs_cdict st) = Some (VStr description) ->
  Str.find sep_string description = Some i ->
  yl (Str.from (i + String.length sep_string) description) = Ok (VDict md) ->
  Dict.get "calm_dsl_metadata" md = Some (VDict inner) ->
  Dict.get "display_name" inner = Some (VStr dn) ->
  dn <> EmptyString ->
  Dict.get "name" (cs_cdict st) = Some n ->
  Py.truthy n = true ->
  Py.eqb (VStr dn) n = false ->
  m_schema mcls = Some sch ->
  yd (VDict (Dict.set "calm_dsl_metadata" (VDict (Dict.set "dsl_name" n inner)) md))
  = Ok s ->
  compile_metadata types yl yd mcls st
  = ({| cs_cls := {| e_mro := e_mro (cs_cls st); e_name := dn;
                     e_dict := e_dict (cs_cls st) |};
        cs_cdict := Dict.set "description"
                      (VStr (Str.upto (i + String.length sep_string) description
                             ++ Str.nl ++ s))
                      (Dict.set "name" (VStr dn) (cs_cdict st));
        cs_log := cs_log st |}, Ok tt).
Proof.
  intros Hd Hf Hl Hm Hdn Hne Hn Ht He Hs Hy.
  unfold compile_metadata. msimpl. rewrite Hd, Hf. msimpl.
  cbn in Hl. rewrite Hl. msimpl.
  rewrite Hm. msimpl. rewrite Hdn. msimpl. rewrite Hn, Ht, He.
  assert (Hdt : Py.truthy (VStr dn) = true) by (destruct dn; [congruence | reflexivity]).
  rewrite Hdt. msimpl.
  unfold validate, validate_with. rewrite Hs.
  unfold _validate. rewrite validate_body_dunder by reflexivity. msimpl.
  unfold lift. rewrite Hy. reflexivity.
Qed.

(** The display-name override as the code has it.  When the description of
    the compiled mapping contains the marker, the text after it loads as a record whose
    [display_name] is a non-empty string, the compiled name is truthy and
    differs from it, and the record with the compiled name stored under
    [dsl_name] is dumped as [s], then [compile] returns the mapping with
    [name] set to the display name and [description] set to the text up to
    the marker, a line feed and [s]; the definition's [__name__] becomes the
    display name, and nothing is logged. *)
Theorem display_name_override :
  forall types yaml_load yaml_dump object_compile (mcls : mclass) (cls : entity)
         (cdict : Dict.t value) (description : string) (i : nat)
         (md inner : Dict.t value) (display_name : string) (dsl_name : value)
         (s : string),
    compile_wire types object_compile mcls cls = Ok cdict ->
    Dict.get "description" cdict = Some (VStr description) ->
    Str.find sep_string description = Some i ->
    yaml_load (Str.from (i + String.length sep_string) description) = Ok (VDict md) ->
    Dict.get "calm_dsl_metadata" md = Some (VDict inner) ->
    Dict.get "display_name" inner = Some (VStr display_name) ->
    display_name <> EmptyString ->
    Dict.get "name" cdict = Some dsl_name ->
    Py.truthy dsl_name = true ->
    Py.eqb (VStr display_name) dsl_name = false ->
    yaml_dump (VDict (Dict.set "calm_dsl_metadata"
                               (VDict (Dict.set "dsl_name" dsl_name inner)) md))
    = Ok s ->
    let wire :=
      Dict.set "description"
               (VStr (Str.upto (i + String.length sep_string) description
                      ++ Str.nl ++ s))
               (Dict.set "name" (VStr display_name) cdict) in
    run_compile types yaml_load yaml_dump object_compile mcls cls
    = ({| cs_cls := {| e_mro := e_mro cls; e_name := display_name;
                       e_dict := e_dict cls |};
          cs_cdict := wire; cs_log := [] |}, Ok wire)
    /\ Dict.get "name" wire = Some (VStr display_name)
    /\ Dict.get "description" wire
       = Some (VStr (Str.upto (i + String.length sep_string) description
                     ++ Str.nl ++ s)).
Proof.
  intros types yl yd oc mcls cls cdict description i md inner dn n s
         Hw Hd Hf Hl Hm Hdn Hne Hn Ht He Hy wire.
  destruct (compile_wire_schema _ _ _ _ _ Hw) as [sch Hs].
  split; [|split].
  - unfold run_compile.
    rewrite (compile_run types yl yd oc mcls
                         {| cs_cls := cls; cs_cdict := []; cs_log := [] |} cdict Hw).
    cbn -[compile_metadata].
    rewrite (compile_metadata_override types yl yd mcls _ description i md inner dn n s sch)
      by assumption.
    reflexivity.
  - unfold wire. rewrite get_set_other by discriminate. apply get_set_same.
  - unfold wire. apply get_set_same.
Qed.

Example service_is_defined (name doc : string) :
  Sample.define Sample.ServiceType name (VStr doc) [] = Ok (Sample.service name doc).
Proof. reflexivity. Qed.

(** The display-name example: wire name [Friendly Name], and [MyKind] kept
    under [dsl_name]. *)
Lemma display_name_override_witness :
  exists st wire,
    Sample.compile Sample.ServiceType Sample.my_kind = (st, Ok wire)
    /\ e_name (cs_cls st) = "Friendly Name"
    /\ Dict.get "name" wire = Some (VStr "Friendly Name")
    /\ Dict.get "description" wire
       = Some (VStr ("X" ++ Sample.metadata ["display_name: Friendly Name";
                                             "dsl_name: MyKind"])).
Proof.
  edestruct (display_name_override
               Sample.types RefYaml.load RefYaml.dump Sample.object_compile
               Sample.ServiceType Sample.my_kind) as [E [N D]].
  - reflexivity.
  - reflexivity.
  - reflexivity.
  - reflexivity.
  - reflexivity.
  - reflexivity.
  - discriminate.
  - reflexivity.
  - reflexivity.
  - reflexivity.
  - reflexivity.
  - eexists. eexists. split; [exact E|]. split; [reflexivity|].
    split; [exact N|]. exact D.
Defined.

(** An empty display name differs from the compiled name as well, and
    nothing is overwritten: the override is guarded by the truth value of
    the display name. *)
Lemma empty_display_name_not_applied :
  let cls := Sample.service "MyKind" ("X" ++ Sample.metadata ["display_name: ''"]) in
  exists cdict description i st wire,
    compile_wire Sample.types Sample.object_compile Sample.ServiceType cls = Ok cdict
    /\ Dict.get "description" cdict = Some (VStr description)
    /\ Str.find sep_string description = Some i
    /\ RefYaml.load (Str.from (i + String.length sep_string) description)
       = Ok (VDict [("calm_dsl_metadata", VDict [("display_name", VStr Str.empty)])])
    /\ Dict.get "name" cdict = Some (VStr "MyKind")
    /\ Py.eqb (VStr Str.empty) (VStr "MyKind") = false
    /\ Sample.compile Sample.ServiceType cls = (st, Ok wire)
    /\ Dict.get "name" wire = Some (VStr "MyKind")
    /\ e_name (cs_cls st) = "MyKind".
Proof.
  cbv zeta. do 5 eexists. repeat split; reflexivity.
Qed.

(** C2 at a definition that sets a name of its own.  What [compile] keeps
    under [dsl_name] is the compiled name, not the identifier of the
    definition: for the class [MyKind] with [name = "custom"] and the display
    name [Friendly Name], the wire mapping holds [dsl_name: custom],
    [MyKind] is nowhere in it, and [decompile] names the definition
    [custom]. *)
Theorem recovery_identifier_is_compiled_name :
  let doc := ("X" ++ Sample.metadata ["display_name: Friendly Name"])%string in
  exists cls st wire st' e,
    Sample.define Sample.ServiceType "MyKind" (VStr doc) [("name", VStr "custom")]
    = Ok cls
    /\ e_name cls = "MyKind"
    /\ Sample.compile Sample.ServiceType cls = (st, Ok wire)
    /\ e_name (cs_cls st) = "Friendly Name"
    /\ wire = [("name", VStr "Friendly Name");
               ("description",
                VStr ("X" ++ Sample.metadata ["display_name: Friendly Name";
                                              "dsl_name: custom"]));
               ("variable_list", VList [])]
    /\ Sample.decompile Sample.ServiceType wire = (st', Ok e)
    /\ e_name e = "custom"
    /\ doc_of e = VStr doc.
Proof.
  cbv zeta. do 5 eexists. split; [lazy; reflexivity|]. split; [reflexivity|].
  split; [lazy; reflexivity|]. split; [reflexivity|]. split; [reflexivity|].
  split; [lazy; reflexivity|]. split; reflexivity.
Qed.

(** ** The metadata step of decompile *)

Ltac dsimpl :=
  cbn -[Py.eqb Py.truthy Dict.get Dict.set Dict.remove Dict.mem Str.find Str.from
        Str.upto String.append decompile_build].

Lemma get_mem {V} (k : string) (d : Dict.t V) (v : V) :
  Dict.get k d = Some v -> Dict.mem k d = true.
Proof.
  intros H. unfold Dict.mem. rewrite H. reflexivity.
Qed.

(** A tail the loader rejects: [decompile] logs a warning, keeps the name,
    and is left with the description cut after the marker. *)
Lemma decompile_metadata_load_failure yl yd st description i e :
  ds_description st = VStr description ->
  Str.find sep_string description = Some i ->
  yl (Str.from (i + String.length sep_string) description) = Raise e ->
  decompile_metadata yl yd st
  = ({| ds_cdict := ds_cdict st; ds_log := ds_log st ++ [metadata_warning];
        ds_name := ds_name st;
        ds_description :=
          VStr (Str.upto (i + String.length sep_string) description) |}, Ok tt).
Proof.
  intros Hd Hf Hl. unfold decompile_metadata. dsimpl.
  rewrite Hd, Hf. dsimpl. cbn in Hl. rewrite Hl. reflexivity.
Qed.

(** The metadata step on a tail that carries a recovery identifier. *)
Lemma decompile_metadata_recover yl yd st description i md inner dn s :
  ds_description st = VStr description ->
  Str.find sep_string description = Some i ->
  yl (Str.from (i + String.length sep_string) description) = Ok (VDict md) ->
  Dict.get "calm_dsl_metadata" md = Some (VDict inner) ->
  Dict.get "dsl_name" inner = Some dn ->
  Py.truthy dn = true ->
  yd (if Py.eqb (ds_name st) dn then VDict md
      else VDict (Dict.set "calm_dsl_metadata"
                           (VDict (Dict.remove "dsl_name" inner)) md))
  = Ok s ->
  decompile_metadata yl yd st
  = ({| ds_cdict := ds_cdict st; ds_log := ds_log st;
        ds_name := if Py.eqb (ds_name st) dn then ds_name st else dn;
        ds_description :=
          VStr (Str.upto (i + String.length sep_string) description
                ++ Str.nl ++ s) |}, Ok tt).
Proof.
  intros Hd Hf Hl Hm Hdn Ht Hy.
  unfold decompile_metadata. dsimpl. rewrite Hd, Hf. dsimpl.
  cbn in Hl. rewrite Hl. dsimpl.
  rewrite Hm. dsimpl. rewrite Hdn. dsimpl. rewrite Ht.
  destruct (Py.eqb (ds_name st) dn); dsimpl.
  - rewrite Hy. reflexivity.
  - unfold lift. rewrite (get_mem _ _ _ Hdn). dsimpl. rewrite Hy. reflexivity.
Qed.

(** ** Class creation *)

Lemma setattr_keeps_name types mcls cls k v cls' :
  String.eqb k "__name__" = false ->
  __setattr__ types mcls cls k v = Ok cls' ->
  e_name cls' = e_name cls.
Proof.
  intros Hk. unfold __setattr__, type_setattr. rewrite Hk.
  cbn -[validate]. destruct (validate types mcls k v); [|discriminate].
  cbn. intros H. inversion H. reflexivity.
Qed.

Lemma set_defaults_keeps_name types mcls defaults :
  forall cls cls',
    set_defaults types mcls defaults cls = Ok cls' -> e_name cls' = e_name cls.
Proof.
  induction defaults as [|[k v] defaults IH]; intros cls cls'; cbn -[__setattr__ hasattr].
  - intros H. inversion H. reflexivity.
  - destruct (hasattr mcls cls k) eqn:Eh; cbn -[__setattr__ hasattr].
    + apply IH.
    + destruct (__setattr__ types mcls cls k v) as [c|] eqn:Es; [|discriminate].
      intros H. rewrite (IH _ _ H).
      apply (setattr_keeps_name types mcls cls k v c); [|exact Es].
      destruct (String.eqb_spec k "__name__") as [->|]; [|reflexivity].
      unfold hasattr, metaclass_attrs in Eh. cbn in Eh.
      rewrite orb_true_r in Eh. discriminate.
Qed.

Lemma new_name types mcls name kwargs e :
  __new__ types mcls name kwargs = Ok e -> e_name e = name.
Proof.
  unfold __new__. cbn -[__setattr__ set_defaults fill_namespace get_default_attrs].
  destruct (if option_truthy (schema_name mcls) then _ else _) as [vd|];
    [|discriminate].
  destruct (fill_namespace types vd kwargs []) as [ns|]; [|discriminate].
  destruct (__setattr__ types mcls _ "__kind__" _) as [c|] eqn:Es; [|discriminate].
  intros H. rewrite (set_defaults_keeps_name _ _ _ _ _ H).
  rewrite (setattr_keeps_name types mcls _ "__kind__" _ c eq_refl Es). reflexivity.
Qed.

Lemma setattr_doc types mcls sch cls v :
  m_schema mcls = Some sch ->
  __setattr__ types mcls cls "__doc__" v
  = Ok {| e_mro := e_mro cls; e_name := e_name cls;
          e_dict := Dict.set "__doc__" v (e_dict cls) |}.
Proof.
  intros Hs. unfold __setattr__, validate, validate_with. rewrite Hs.
  unfold _validate. rewrite validate_body_dunder by reflexivity. reflexivity.
Qed.

(** What a successful [decompile_build] says about the new definition. *)
Lemma decompile_build_result types gvi ps mcls name description cdict e :
  c_result (decompile_build types gvi ps mcls name description cdict) = Ok e ->
  gvi name = Ok (e_name e) /\ doc_of e = description.
Proof.
  unfold decompile_build, get_schema.
  destruct (gvi name) as [id|]; [|discriminate].
  destruct (m_schema mcls) as [sch|] eqn:Hs; [|discriminate].
  cbn -[__new__ __setattr__ decompile_attrs from_wire invert].
  destruct (c_result (decompile_attrs ps (validator_dict sch) _)) as [attrs|];
    [|discriminate].
  destruct (__new__ types mcls id attrs) as [cls|] eqn:En; [|discriminate].
  rewrite (setattr_doc types mcls sch cls description Hs).
  intros H. inversion H. cbn. split.
  - rewrite (new_name _ _ _ _ _ En). reflexivity.
  - unfold doc_of. cbn. rewrite get_set_same. reflexivity.
Qed.

(** C3, as the code has it.  When the description on the wire contains the
    marker and the text after it loads as a record with a truthy [dsl_name],
    a successful [decompile] names the new definition after the coerced
    [dsl_name] and gives it, as documentation text, the description up to
    the marker, a line feed and the re-encoded record.  The record is
    re-encoded without its [dsl_name] key when that identifier differs from
    the wire name; when the two are equal the record is re-encoded as it
    was loaded, the key still in it. *)
Theorem recovery_identifier_restored :
  forall types yaml_load yaml_dump get_valid_identifier provider_spec
         (mcls : mclass) (cdict : Dict.t value) (description : string) (i : nat)
         (md inner : Dict.t value) (dsl_name : value) (s : string)
         (st : dstate) (e : entity),
    Dict.get "description" cdict = Some (VStr description) ->
    Str.find sep_string description = Some i ->
    yaml_load (Str.from (i + String.length sep_string) description) = Ok (VDict md) ->
    Dict.get "calm_dsl_metadata" md = Some (VDict inner) ->
    Dict.get "dsl_name" inner = Some dsl_name ->
    Py.truthy dsl_name = true ->
    yaml_dump (if Py.eqb (wire_name mcls cdict) dsl_name then VDict md
               else VDict (Dict.set "calm_dsl_metadata"
                                    (VDict (Dict.remove "dsl_name" inner)) md))
    = Ok s ->
    run_decompile types yaml_load yaml_dump get_valid_identifier provider_spec
                  mcls cdict = (st, Ok e) ->
    get_valid_identifier (if Py.eqb (wire_name mcls cdict) dsl_name
                          then wire_name mcls cdict else dsl_name)
    = Ok (e_name e)
    /\ doc_of e = VStr (Str.upto (i + String.length sep_string) description
                        ++ Str.nl ++ s).
Proof.
  intros types yl yd gvi ps mcls cdict description i md inner dn s st e
         Hd Hf Hl Hm Hdn Ht Hy Hrun.
  unfold run_decompile in Hrun. rewrite decompile_run in Hrun.
  cbn -[decompile_metadata decompile_build] in Hrun.
  rewrite Hd in Hrun. fold (wire_name mcls cdict) in Hrun.
  rewrite (decompile_metadata_recover yl yd _ description i md inner dn s) in Hrun
    by (try assumption; reflexivity).
  cbn -[decompile_build] in Hrun. inversion Hrun as [[Hst Hb]].
  apply decompile_build_result in Hb. exact Hb.
Qed.

(** The display-name example backwards: [MyKind] is restored and the
    recovery key is gone from the documentation text. *)
Lemma recovery_identifier_restored_witness :
  let wire := [("name", VStr "Friendly Name");
               ("description",
                VStr ("X" ++ Sample.metadata ["display_name: Friendly Name";
                                              "dsl_name: MyKind"]));
               ("variable_list", VList [])] in
  exists st e,
    Sample.decompile Sample.ServiceType wire = (st, Ok e)
    /\ e_name e = "MyKind"
    /\ doc_of e = VStr ("X" ++ Sample.metadata ["display_name: Friendly Name"]).
Proof.
  cbv zeta.
  destruct (Sample.decompile
              Sample.ServiceType
              [("name", VStr "Friendly Name");
               ("description",
                VStr ("X" ++ Sample.metadata ["display_name: Friendly Name";
                                              "dsl_name: MyKind"]));
               ("variable_list", VList [])]) as [st [e|x]] eqn:E.
  - destruct (recovery_identifier_restored
                Sample.types RefYaml.load RefYaml.dump Sample.get_valid_identifier
                Sample.provider_spec Sample.ServiceType
                [("name", VStr "Friendly Name");
                 ("description",
                  VStr ("X" ++ Sample.metadata ["display_name: Friendly Name";
                                                "dsl_name: MyKind"]));
                 ("variable_list", VList [])]
                ("X" ++ Sample.metadata ["display_name: Friendly Name";
                                         "dsl_name: MyKind"])
                2
                [("calm_dsl_metadata",
                  VDict [("display_name", VStr "Friendly Name");
                         ("dsl_name", VStr "MyKind")])]
                [("display_name", VStr "Friendly Name"); ("dsl_name", VStr "MyKind")]
                (VStr "MyKind")
                ("calm_dsl_metadata:" ++ Str.nl ++ "  display_name: Friendly Name"
                 ++ Str.nl)
                st e eq_refl eq_refl eq_refl eq_refl eq_refl eq_refl eq_refl E)
      as [N D].
    exists st, e. split; [reflexivity|]. split.
    + cbn in N. inversion N. reflexivity.
    + exact D.
  - vm_compute in E. discriminate.
Defined.

(** The claim of C3 read literally fails when the recovery identifier
    equals the wire name: the key stays in the re-encoded metadata. *)
Lemma recovery_key_kept_when_equal :
  let wire := [("name", VStr "MyKind");
               ("description",
                VStr ("X" ++ Sample.metadata ["display_name: Friendly Name";
                                              "dsl_name: MyKind"]))] in
  exists st e,
    Sample.decompile Sample.ServiceType wire = (st, Ok e)
    /\ e_name e = "MyKind"
    /\ doc_of e = VStr ("X" ++ Sample.metadata ["display_name: Friendly Name";
                                                "dsl_name: MyKind"])
    /\ RefYaml.load (Sample.metadata ["display_name: Friendly Name";
                                      "dsl_name: MyKind"])
       = Ok (VDict [("calm_dsl_metadata",
                     VDict [("display_name", VStr "Friendly Name");
                            ("dsl_name", VStr "MyKind")])]).
Proof.
  cbv zeta. do 2 eexists. split; [lazy; reflexivity|]. repeat split; reflexivity.
Qed.

(** ** Occurrences of the marker *)

Lemma prefix_nil (s : string) : String.prefix EmptyString s = true.
Proof. destruct s; reflexivity. Qed.

Lemma prefix_within (p a b : string) :
  String.length p <= String.length a ->
  String.prefix p (a ++ b) = String.prefix p a.
Proof.
  revert a. induction p as [|c p IH]; intros a Hl.
  - rewrite !prefix_nil. reflexivity.
  - destruct a as [|d a]; cbn in Hl; [lia|]. cbn.
    destruct (ascii_dec c d); [|reflexivity]. apply IH. lia.
Qed.

Lemma prefix_self (p b : string) : String.prefix p (p ++ b) = true.
Proof.
  induction p as [|c p IH]; [apply prefix_nil|]. cbn.
  destruct (ascii_dec c c); [exact IH | contradiction].
Qed.

Lemma prefix_upto (p s : string) :
  String.prefix p s = true -> Str.upto (String.length p) s = p.
Proof.
  revert s. induction p as [|c p IH]; intros s H; [reflexivity|].
  destruct s as [|d s]; cbn in H; [discriminate|].
  destruct (ascii_dec c d) as [->|]; [|discriminate].
  cbn. rewrite (IH s H). reflexivity.
Qed.

Lemma upto_from (n : nat) (s : string) : (Str.upto n s ++ Str.from n s)%string = s.
Proof.
  revert s. induction n as [|n IH]; intros s; [reflexivity|].
  destruct s as [|c s]; [reflexivity|]. cbn. rewrite IH. reflexivity.
Qed.

Lemma length_upto (n : nat) (s : string) :
  n <= String.length s -> String.length (Str.upto n s) = n.
Proof.
  revert s. induction n as [|n IH]; intros s H; [reflexivity|].
  destruct s as [|c s]; cbn in H; [lia|]. cbn. rewrite IH; lia.
Qed.

Lemma prefix_length (p s : string) :
  String.prefix p s = true -> String.length p <= String.length s.
Proof.
  revert s. induction p as [|c p IH]; intros s H; cbn; [lia|].
  destruct s as [|d s]; cbn in H; [discriminate|].
  destruct (ascii_dec c d); [|discriminate]. cbn. specialize (IH s H). lia.
Qed.

Lemma find_bound (sub s : string) (i : nat) :
  Str.find sub s = Some i -> i + String.length sub <= String.length s.
Proof.
  revert i. induction s as [|c s IH]; intros i; cbn [Str.find].
  - destruct (String.prefix sub EmptyString) eqn:E; [|discriminate].
    intros H. inversion H. apply prefix_length in E. cbn in *. lia.
  - destruct (String.prefix sub (String c s)) eqn:E.
    + intros H. inversion H. apply prefix_length in E. cbn in *. lia.
    + destruct (Str.find sub s) as [j|]; [|discriminate].
      cbn. intros H. inversion H. specialize (IH j eq_refl). cbn. lia.
Qed.

Lemma find_none_occurrences (sub s : string) :
  Str.find sub s = None -> Str.occurrences sub s = 0.
Proof.
  induction s as [|c s IH]; cbn [Str.find Str.occurrences].
  - destruct (String.prefix sub EmptyString); [discriminate | reflexivity].
  - destruct (String.prefix sub (String c s)); [discriminate|].
    destruct (Str.find sub s); [discriminate|]. intros _. apply IH. reflexivity.
Qed.

(** A text that is shorter than [sub] and followed by a character [sub]
    does not contain cannot begin an occurrence of [sub]. *)
Lemma prefix_blocked (c : ascii) (sub s t : string) :
  Str.has_char c sub = false ->
  String.length s < String.length sub ->
  String.prefix sub (s ++ String c t) = false.
Proof.
  revert s. induction sub as [|a sub IH]; intros s Hc Hl; cbn in Hl; [lia|].
  cbn in Hc. apply orb_false_elim in Hc. destruct Hc as [Ha Hc].
  destruct s as [|d s]; cbn.
  - destruct (ascii_dec a c) as [->|]; [|reflexivity].
    rewrite Ascii.eqb_refl in Ha. discriminate.
  - destruct (ascii_dec a d); [|reflexivity]. apply IH; [exact Hc | cbn in Hl; lia].
Qed.

Lemma occurrences_blocked (c : ascii) (sub s t : string) :
  Str.has_char c sub = false ->
  String.length s < String.length sub ->
  Str.occurrences sub (s ++ String c t) = Str.occurrences sub t.
Proof.
  intros Hc. induction s as [|d s IH]; intros Hl.
  - pose proof (prefix_blocked c sub EmptyString t Hc Hl) as P.
    cbn [String.append] in P. cbn [String.append Str.occurrences].
    rewrite P. reflexivity.
  - pose proof (prefix_blocked c sub (String d s) t Hc Hl) as P.
    cbn [String.append] in P. cbn [String.append Str.occurrences].
    rewrite P. cbn in Hl. rewrite IH by lia. reflexivity.
Qed.

Lemma occurrences_self (c : ascii) (sub t : string) :
  sub <> EmptyString ->
  Str.has_char c sub = false ->
  Str.occurrences sub (sub ++ String c t) = 1 + Str.occurrences sub t.
Proof.
  intros Hne Hc. destruct sub as [|a sub]; [congruence|].
  pose proof (prefix_self (String a sub) (String c t)) as P.
  cbn [String.append] in P. cbn [String.append Str.occurrences].
  rewrite P.
  rewrite (occurrences_blocked c (String a sub) sub t Hc) by (cbn; lia).
  reflexivity.
Qed.

Lemma occurrences_short (sub s : string) :
  String.length s < String.length sub -> Str.occurrences sub s = 0.
Proof.
  induction s as [|x s IH]; intros Hl; cbn [Str.occurrences].
  - destruct (String.prefix sub EmptyString) eqn:E; [|reflexivity].
    apply prefix_length in E. lia.
  - destruct (String.prefix sub (String x s)) eqn:E.
    + apply prefix_length in E. lia.
    + apply IH. cbn in Hl. lia.
Qed.

Lemma prefix_refl (p : string) : String.prefix p p = true.
Proof.
  induction p as [|c p IH]; [reflexivity|]. cbn.
  destruct (ascii_dec c c); [exact IH | contradiction].
Qed.

Lemma occurrences_exact (sub : string) :
  sub <> EmptyString -> Str.occurrences sub sub = 1.
Proof.
  intros Hne. destruct sub as [|a sub]; [congruence|].
  cbn [Str.occurrences]. rewrite prefix_refl.
  rewrite occurrences_short by (cbn; lia). reflexivity.
Qed.

(** Cutting a text right after the first occurrence of [sub] leaves no
    occurrence that begins earlier. *)
Lemma prefix_before_cut (sub d u : string) (a : ascii) (j : nat) :
  Str.find sub d = Some j ->
  String.prefix sub (String a d) = false ->
  String.prefix sub (String a (Str.upto (j + String.length sub) d ++ u)) = false.
Proof.
  intros Ef E. pose proof (find_bound _ _ _ Ef) as Hb.
  set (X := Str.upto (j + String.length sub) d).
  assert (HX : String.length sub <= String.length (String a X))
    by (cbn; unfold X; rewrite length_upto by lia; lia).
  pose proof (prefix_within sub (String a X) u HX) as F1.
  pose proof (prefix_within sub (String a X) (Str.from (j + String.length sub) d) HX)
    as F2.
  cbn [String.append] in F1, F2. unfold X in F2 at 1.
  rewrite upto_from in F2. rewrite E in F2. rewrite F1, <- F2. reflexivity.
Qed.

(** The text up to and including the first occurrence of [sub], followed by
    a character [sub] does not contain and by [t], has one occurrence of
    [sub] more than [t]. *)
Lemma occurrences_after_cut (c : ascii) (sub d t : string) (i : nat) :
  sub <> EmptyString ->
  Str.has_char c sub = false ->
  Str.find sub d = Some i ->
  Str.occurrences sub (Str.upto (i + String.length sub) d ++ String c t)
  = 1 + Str.occurrences sub t.
Proof.
  intros Hne Hc. revert i. induction d as [|a d IH]; intros i; cbn [Str.find].
  - destruct (String.prefix sub EmptyString) eqn:E; [|discriminate].
    apply prefix_length in E. destruct sub; [congruence | cbn in E; lia].
  - destruct (String.prefix sub (String a d)) eqn:E.
    + intros H. inversion H. cbn [Nat.add].
      rewrite (prefix_upto _ _ E). apply occurrences_self; assumption.
    + destruct (Str.find sub d) as [j|] eqn:Ef; [|discriminate].
      cbn [option_map]. intros H. inversion H. subst i.
      cbn [Nat.add Str.upto String.append Str.occurrences].
      rewrite (prefix_before_cut sub d (String c t) a j Ef E).
      cbn [Nat.add]. apply IH. reflexivity.
Qed.

(** The text up to and including the first occurrence of [sub] contains
    [sub] once. *)
Lemma occurrences_cut_only (sub d : string) (i : nat) :
  sub <> EmptyString ->
  Str.find sub d = Some i ->
  Str.occurrences sub (Str.upto (i + String.length sub) d) = 1.
Proof.
  intros Hne. revert i. induction d as [|a d IH]; intros i; cbn [Str.find].
  - destruct (String.prefix sub EmptyString) eqn:E; [|discriminate].
    apply prefix_length in E. destruct sub; [congruence | cbn in E; lia].
  - destruct (String.prefix sub (String a d)) eqn:E.
    + intros H. inversion H. cbn [Nat.add].
      rewrite (prefix_upto _ _ E). apply occurrences_exact. exact Hne.
    + destruct (Str.find sub d) as [j|] eqn:Ef; [|discriminate].
      cbn [option_map]. intros H. inversion H. subst i.
      cbn [Nat.add Str.upto Str.occurrences].
      pose proof (prefix_before_cut sub d EmptyString a j Ef E) as P.
      assert (A : forall s, (s ++ EmptyString)%string = s)
        by (induction s as [|x s IHs]; cbn; [|rewrite IHs]; reflexivity).
      rewrite A in P. rewrite P. cbn [Nat.add]. apply IH. reflexivity.
Qed.

(** The two ways the metadata step of [compile] ends on a description with
    the marker: the description is left as it was and a warning is logged,
    or it is re-encoded from the loaded record, to which the compiled name
    was added under [dsl_name] or not. *)
Lemma compile_metadata_cases types yl yd mcls st d i :
  Dict.get "description" (cs_cdict st) = Some (VStr d) ->
  Str.find sep_string d = Some i ->
  let st' := fst (compile_metadata types yl yd mcls st) in
  (Dict.get "description" (cs_cdict st') = Some (VStr d)
   /\ cs_log st' = cs_log st ++ [metadata_warning])
  \/ (exists md0 md t,
         yl (Str.from (i + String.length sep_string) d) = Ok md0
         /\ yd md = Ok t
         /\ (md = md0
             \/ exists n, Dict.get "name" (cs_cdict st) = Some n
                          /\ Py.setitem2 md0 "calm_dsl_metadata" "dsl_name" n = Ok md)
         /\ Dict.get "description" (cs_cdict st')
            = Some (VStr (Str.upto (i + String.length sep_string) d ++ Str.nl ++ t))
         /\ cs_log st' = cs_log st).
Proof.
  intros Hd Hf. unfold compile_metadata. msimpl. rewrite Hd, Hf. msimpl.
  unfold set_cls_name, lift.
  repeat (break_match; msimpl);
    try (left; split; [first [exact Hd | rewrite get_set_other by discriminate; exact Hd]
                      | reflexivity]).
  all: right; do 3 eexists; split; [reflexivity|]; split; [eassumption|]; split;
    [first [left; reflexivity
           | right; eexists; split; [reflexivity | eassumption]
           | exfalso;
             match goal with
             | H : Py.truthy VNone && _ = true |- _ => cbn in H; discriminate H
             end]|];
    split; [apply get_set_same | reflexivity].
Qed.

(** The two ways the metadata step of [decompile] ends on a description
    with the marker: the description is cut right after the marker and a
    warning is logged, or it is re-encoded from the loaded record, from
    which [dsl_name] was removed or not. *)
Lemma decompile_metadata_cases yl yd st d i :
  ds_description st = VStr d ->
  Str.find sep_string d = Some i ->
  let st' := fst (decompile_metadata yl yd st) in
  (ds_description st' = VStr (Str.upto (i + String.length sep_string) d)
   /\ ds_log st' = ds_log st ++ [metadata_warning])
  \/ (exists md0 md t,
         yl (Str.from (i + String.length sep_string) d) = Ok md0
         /\ yd md = Ok t
         /\ (md = md0 \/ Py.popitem2 md0 "calm_dsl_metadata" "dsl_name" = Ok md)
         /\ ds_description st'
            = VStr (Str.upto (i + String.length sep_string) d ++ Str.nl ++ t)
         /\ ds_log st' = ds_log st).
Proof.
  intros Hd Hf. unfold decompile_metadata. dsimpl. rewrite Hd, Hf. dsimpl.
  unfold lift.
  repeat (break_match; dsimpl); try (left; split; reflexivity).
  all: right; do 3 eexists; split; [reflexivity|]; split; [eassumption|]; split;
    [first [left; reflexivity | right; eassumption]|]; split; reflexivity.
Qed.

(** The metadata step of [compile] never raises on a description that is a
    string. *)
Lemma compile_metadata_returns types yl yd mcls st d :
  Dict.get "description" (cs_cdict st) = Some (VStr d) ->
  snd (compile_metadata types yl yd mcls st) = Ok tt.
Proof.
  intros Hd. unfold compile_metadata.
  cbn -[compile_metadata_try Str.find Dict.get]. rewrite Hd.
  destruct (Str.find sep_string d) as [i|]; [|reflexivity].
  cbn -[compile_metadata_try Str.find Dict.get Str.from Str.upto].
  match goal with
  | |- context [compile_metadata_try ?a ?b ?c ?d ?e ?f ?g] =>
      destruct (compile_metadata_try a b c d e f g) as [s' [[]|x]]
  end; reflexivity.
Qed.

Lemma marker_facts :
  sep_string <> EmptyString
  /\ Str.has_char (ascii_of_nat 10) sep_string = false.
Proof.
  split; [discriminate | reflexivity].
Qed.

(** C9, as the code has it.  A description without the marker is left as it
    is by [compile] and by [decompile].  A description with the marker is
    either re-encoded, and then it is the text up to and including the first
    marker, a line feed and the dumper's output [t] for the record loaded
    from the text after the marker ([compile] may have added [dsl_name] to
    it, [decompile] may have taken [dsl_name] out), so that it contains the
    marker exactly once more than [t] does; or, on a metadata failure, left
    unchanged by [compile], and cut right after the first marker by
    [decompile], which leaves exactly one occurrence. *)
Theorem marker_after_rewrite :
  forall types yaml_load yaml_dump object_compile get_valid_identifier
         provider_spec (mcls : mclass),
    (forall (cls : entity) (cdict : Dict.t value) (d : string),
        compile_wire types object_compile mcls cls = Ok cdict ->
        Dict.get "description" cdict = Some (VStr d) ->
        let run := run_compile types yaml_load yaml_dump object_compile mcls cls in
        let out := Dict.get "description" (cs_cdict (fst run)) in
        snd run = Ok (cs_cdict (fst run))
        /\ match Str.find sep_string d with
           | None => out = Some (VStr d) /\ Str.occurrences sep_string d = 0
           | Some i =>
               let prefix := Str.upto (i + String.length sep_string) d in
               (out = Some (VStr d) /\ cs_log (fst run) = [metadata_warning])
               \/ (exists md0 md t,
                      yaml_load (Str.from (i + String.length sep_string) d) = Ok md0
                      /\ yaml_dump md = Ok t
                      /\ (md = md0
                          \/ exists n,
                               Dict.get "name" cdict = Some n
                               /\ Py.setitem2 md0 "calm_dsl_metadata" "dsl_name" n
                                  = Ok md)
                      /\ out = Some (VStr (prefix ++ Str.nl ++ t))
                      /\ cs_log (fst run) = []
                      /\ Str.occurrences sep_string (prefix ++ Str.nl ++ t)
                         = 1 + Str.occurrences sep_string t)
           end)
    /\ (forall (cdict : Dict.t value) (d : string) (st : dstate) (e : entity),
           Dict.get "description" cdict = Some (VStr d) ->
           run_decompile types yaml_load yaml_dump get_valid_identifier
                         provider_spec mcls cdict = (st, Ok e) ->
           match Str.find sep_string d with
           | None => doc_of e = VStr d /\ Str.occurrences sep_string d = 0
           | Some i =>
               let prefix := Str.upto (i + String.length sep_string) d in
               (doc_of e = VStr prefix
                /\ (exists nested, ds_log st = metadata_warning :: nested)
                /\ Str.occurrences sep_string prefix = 1)
               \/ (exists md0 md t,
                      yaml_load (Str.from (i + String.length sep_string) d) = Ok md0
                      /\ yaml_dump md = Ok t
                      /\ (md = md0
                          \/ Py.popitem2 md0 "calm_dsl_metadata" "dsl_name" = Ok md)
                      /\ doc_of e = VStr (prefix ++ Str.nl ++ t)
                      /\ Str.occurrences sep_string (prefix ++ Str.nl ++ t)
                         = 1 + Str.occurrences sep_string t)
           end).
Proof.
  intros types yl yd oc gvi ps mcls.
  destruct marker_facts as [Hne Hc]. split.
  - intros cls cdict d Hw Hd run out. unfold out, run, run_compile.
    rewrite (compile_run types yl yd oc mcls
                         {| cs_cls := cls; cs_cdict := []; cs_log := [] |} cdict Hw).
    cbn -[compile_metadata Str.find Str.occurrences Str.from Str.upto String.append
          String.length].
    set (st1 := {| cs_cls := cls; cs_cdict := cdict; cs_log := [] |}).
    destruct (Str.find sep_string d) as [i|] eqn:Hf.
    + rewrite (compile_metadata_returns types yl yd mcls st1 d Hd).
      split; [reflexivity|].
      destruct (compile_metadata_cases types yl yd mcls st1 d i Hd Hf)
        as [[H1 H2] | [md0 [md [t [H0 [H1 [H2 [H3 H4]]]]]]]].
      * left. split; [exact H1 | exact H2].
      * right. exists md0, md, t. split; [exact H0|]. split; [exact H1|].
        split; [exact H2|]. split; [exact H3|]. split; [exact H4|].
        apply (occurrences_after_cut (ascii_of_nat 10)); assumption.
    + assert (E : compile_metadata types yl yd mcls st1 = (st1, Ok tt)).
      { unfold compile_metadata. msimpl. rewrite Hd, Hf. reflexivity. }
      rewrite E. cbn -[Str.occurrences]. split; [reflexivity|]. split; [exact Hd|].
      apply find_none_occurrences. exact Hf.
  - intros cdict d st e Hd Hrun.
    unfold run_decompile in Hrun. rewrite decompile_run in Hrun.
    cbv zeta in Hrun. cbn [ds_cdict ds_log] in Hrun.
    rewrite Hd in Hrun.
    set (st1 := {| ds_cdict := Dict.remove "description" cdict; ds_log := [];
                   ds_name := match Dict.get "name" cdict with
                              | Some v => v
                              | None => option_string_value (schema_name mcls)
                              end;
                   ds_description := VStr d |}) in Hrun.
    assert (Hdoc : doc_of e = ds_description (fst (decompile_metadata yl yd st1))
                   /\ exists nested,
                        ds_log st
                        = ds_log (fst (decompile_metadata yl yd st1)) ++ nested).
    { destruct (decompile_metadata yl yd st1) as [st2 [[]|x]];
        cbn [fst snd] in *; [|discriminate].
      inversion Hrun as [[Hst Hb]].
      apply decompile_build_result in Hb. destruct Hb as [_ Hb].
      split; [exact Hb|]. eexists. reflexivity. }
    clear Hrun. destruct Hdoc as [Hdoc [nested Hlog]].
    destruct (Str.find sep_string d) as [i|] eqn:Hf.
    + destruct (decompile_metadata_cases yl yd st1 d i eq_refl Hf)
        as [[H1 H2] | [md0 [md [t [H0 [H1 [H2 [H3 H4]]]]]]]].
      * left. split; [rewrite Hdoc; exact H1|]. split.
        -- exists nested. rewrite Hlog, H2. reflexivity.
        -- apply occurrences_cut_only; assumption.
      * right. exists md0, md, t. split; [exact H0|]. split; [exact H1|].
        split; [exact H2|]. split; [rewrite Hdoc; exact H3|].
        apply (occurrences_after_cut (ascii_of_nat 10)); assumption.
    + assert (E : decompile_metadata yl yd st1 = (st1, Ok tt)).
      { unfold decompile_metadata. dsimpl. rewrite Hf. reflexivity. }
      rewrite E in Hdoc. cbn in Hdoc. split; [exact Hdoc|].
      apply find_none_occurrences. exact Hf.
Qed.

(** The display-name example is re-encoded from the loaded record with
    [dsl_name] added: one marker more than in the dumper's output, which
    has none. *)
Lemma marker_after_rewrite_witness :
  exists md0 md t,
    RefYaml.load (Str.nl ++ "calm_dsl_metadata:" ++ Str.nl
                  ++ "  display_name: Friendly Name" ++ Str.nl) = Ok md0
    /\ Py.setitem2 md0 "calm_dsl_metadata" "dsl_name" (VStr "MyKind") = Ok md
    /\ RefYaml.dump md = Ok t
    /\ Dict.get "description"
                (cs_cdict (fst (Sample.compile Sample.ServiceType Sample.my_kind)))
       = Some (VStr ("X" ++ Str.nl ++ sep_string ++ Str.nl ++ t))
    /\ Str.occurrences sep_string ("X" ++ Str.nl ++ sep_string ++ Str.nl ++ t)
       = 1 + Str.occurrences sep_string t
    /\ Str.occurrences sep_string t = 0.
Proof.
  destruct (proj1 (marker_after_rewrite
                     Sample.types RefYaml.load RefYaml.dump Sample.object_compile
                     Sample.get_valid_identifier Sample.provider_spec
                     Sample.ServiceType)
                  Sample.my_kind
                  [("name", VStr "MyKind");
                   ("description",
                    VStr ("X" ++ Sample.metadata ["display_name: Friendly Name"]));
                   ("variable_list", VList [])]
                  ("X" ++ Sample.metadata ["display_name: Friendly Name"])%string
                  eq_refl eq_refl) as [_ H].
  change (Str.find sep_string
                   ("X" ++ Sample.metadata ["display_name: Friendly Name"])%string)
    with (Some 2) in H.
  cbv zeta in H.
  destruct H as [[_ H] | [md0 [md [t [H0 [H1 [H2 [H3 [_ H4]]]]]]]]].
  - vm_compute in H. discriminate.
  - exists md0, md, t.
    assert (E0 : md0 = VDict [("calm_dsl_metadata",
                               VDict [("display_name", VStr "Friendly Name")])]).
    { vm_compute in H0. inversion H0. reflexivity. }
    assert (E3 : ("X" ++ Str.nl ++ sep_string ++ Str.nl ++ t)%string
                 = ("X" ++ Sample.metadata ["display_name: Friendly Name";
                                            "dsl_name: MyKind"])%string).
    { vm_compute in H3. inversion H3 as [H5]. vm_compute. rewrite H5. reflexivity. }
    assert (E2 : Py.setitem2 md0 "calm_dsl_metadata" "dsl_name" (VStr "MyKind") = Ok md).
    { destruct H2 as [->|[n [Hn Hs]]].
      - exfalso. subst md0. vm_compute in H1. inversion H1 as [H5]. subst t.
        vm_compute in E3. discriminate.
      - vm_compute in Hn. inversion Hn. subst n. exact Hs. }
    split; [exact H0|]. split; [exact E2|]. split; [exact H1|].
    split; [exact H3|]. split; [exact H4|].
    subst md0. vm_compute in E2. inversion E2. subst md.
    vm_compute in H1. inversion H1. reflexivity.
Defined.

(** The claim of C9 read literally fails when the compiled name contains
    the marker: the description of the definition has the marker once, the
    name is stored under [dsl_name], and the re-encoded description has the
    marker twice. *)
Lemma marker_twice_after_compile :
  let name := "a### Calm DSL Metadata/Hints (Do not edit/change)" in
  let doc := ("X" ++ Sample.metadata ["display_name: Friendly Name"])%string in
  exists cls st wire s,
    Sample.define Sample.ServiceType "MyKind" (VStr doc) [("name", VStr name)] = Ok cls
    /\ doc_of cls = VStr doc
    /\ Str.occurrences sep_string doc = 1
    /\ Sample.compile Sample.ServiceType cls = (st, Ok wire)
    /\ cs_log st = []
    /\ Dict.get "description" wire = Some (VStr s)
    /\ s = ("X" ++ Sample.metadata
                     ["display_name: Friendly Name";
                      "dsl_name: a### Calm DSL Metadata/Hints (Do not edit/change)"])%string
    /\ Str.occurrences sep_string s = 2.
Proof.
  cbv zeta. do 4 eexists. split; [lazy; reflexivity|].
  split; [reflexivity|]. split; [reflexivity|].
  split; [lazy; reflexivity|]. repeat split; reflexivity.
Qed.

(** ** Metadata that does not parse *)

(** On a tail the loader rejects, [compile] returns the mapping it had
    before the metadata step, description included, and logs a warning. *)
Lemma compile_parse_failure types yl yd oc mcls cls cdict d i x :
  compile_wire types oc mcls cls = Ok cdict ->
  Dict.get "description" cdict = Some (VStr d) ->
  Str.find sep_string d = Some i ->
  yl (Str.from (i + String.length sep_string) d) = Raise x ->
  run_compile types yl yd oc mcls cls
  = ({| cs_cls := cls; cs_cdict := cdict; cs_log := [metadata_warning] |}, Ok cdict).
Proof.
  intros Hw Hd Hf Hl. unfold run_compile.
  rewrite (compile_run types yl yd oc mcls
                       {| cs_cls := cls; cs_cdict := []; cs_log := [] |} cdict Hw).
  cbn -[compile_metadata].
  rewrite (compile_metadata_load_failure
             types yl yd mcls {| cs_cls := cls; cs_cdict := cdict; cs_log := [] |}
             d i x Hd Hf Hl).
  reflexivity.
Qed.

(** On a tail the loader rejects, a successful [decompile] logs a warning
    as well (before any warning of a nested call), but the documentation
    text of the new definition is the description cut right after the
    marker: the tail is lost. *)
Lemma decompile_parse_failure types yl yd gvi ps mcls cdict d i x st e :
  Dict.get "description" cdict = Some (VStr d) ->
  Str.find sep_string d = Some i ->
  yl (Str.from (i + String.length sep_string) d) = Raise x ->
  run_decompile types yl yd gvi ps mcls cdict = (st, Ok e) ->
  doc_of e = VStr (Str.upto (i + String.length sep_string) d)
  /\ (exists nested, ds_log st = metadata_warning :: nested)
  /\ gvi (wire_name mcls cdict) = Ok (e_name e).
Proof.
  intros Hd Hf Hl Hrun. unfold run_decompile in Hrun. rewrite decompile_run in Hrun.
  cbn -[decompile_metadata decompile_build Dict.remove Dict.get] in Hrun.
  rewrite Hd in Hrun. fold (wire_name mcls cdict) in Hrun.
  rewrite (decompile_metadata_load_failure
             yl yd {| ds_cdict := Dict.remove "description" cdict; ds_log := [];
                      ds_name := wire_name mcls cdict; ds_description := VStr d |}
             d i x eq_refl Hf Hl) in Hrun.
  cbn -[decompile_build Dict.remove] in Hrun. inversion Hrun as [[Hst Hb]].
  apply decompile_build_result in Hb. destruct Hb as [Hn Hdoc].
  split; [exact Hdoc|]. split; [|exact Hn].
  eexists. reflexivity.
Qed.

(** C5 at a wire mapping whose metadata tail is not valid YAML: [decompile]
    does not raise and logs the warning, but the description it attaches to
    the definition is no longer the one it was given. *)
Theorem decompile_cuts_unparseable_tail :
  let tail := (Str.nl ++ "calm_dsl_metadata: display_name: Friendly Name"
               ++ Str.nl)%string in
  let description := ("X" ++ Str.nl ++ sep_string ++ tail)%string in
  let wire := [("name", VStr "MyKind"); ("description", VStr description)] in
  RefYaml.load tail = Raise (YAMLError "mapping values are not allowed here")
  /\ exists st e,
      Sample.decompile Sample.ServiceType wire = (st, Ok e)
      /\ ds_log st = [metadata_warning]
      /\ doc_of e = VStr ("X" ++ Str.nl ++ sep_string)
      /\ doc_of e <> VStr description.
Proof.
  cbv zeta. split; [reflexivity|].
  do 2 eexists. split; [lazy; reflexivity|].
  split; [reflexivity|]. split; [reflexivity | discriminate].
Qed.

(** The same description through [compile]: returned as it was. *)
Example compile_keeps_unparseable_tail :
  let description := ("X" ++ Str.nl ++ sep_string ++ Str.nl
                      ++ "calm_dsl_metadata: display_name: Friendly Name"
                      ++ Str.nl)%string in
  exists st wire,
    Sample.compile Sample.ServiceType (Sample.service "MyKind" description)
    = (st, Ok wire)
    /\ cs_log st = [metadata_warning]
    /\ Dict.get "description" wire = Some (VStr description).
Proof.
  cbv zeta. do 2 eexists. split; [lazy; reflexivity|]. split; reflexivity.
Qed.

(** ** Type checks of decompile *)

(** A kind with [decompile] and an array property: anything but a list is a
    type error. *)
Lemma decompile_array_not_list (entity_type : pytype) dec (v : value) :
  ty_decompile entity_type = Some dec ->
  (forall l, v <> VList l) ->
  decompile_with entity_type true v
  = quiet v (Raise (TypeError "Value {} is not of type list" [v])).
Proof.
  intros Hd Hv. unfold decompile_with. rewrite Hd.
  destruct v; try reflexivity. exfalso. apply (Hv l). reflexivity.
Qed.

(** A built-in type and an array property: an element that is not an
    instance is a type error. *)
Lemma decompile_array_element_checked (entity_type : pytype) (l1 l2 : list value)
      (bad : value) :
  ty_decompile entity_type = None ->
  ty_isinstance entity_type bad = false ->
  (forall x, In x l1 ->
             ty_isinstance entity_type x = true
             /\ exists y, ty_call entity_type x = Ok y) ->
  decompile_with entity_type true (VList (l1 ++ bad :: l2))
  = quiet (VList (l1 ++ bad :: l2))
          (Raise (TypeError "Value {} is not of type {}"
                            [bad; VStr (ty_name entity_type)])).
Proof.
  intros Hd Hb Hok. unfold decompile_with. rewrite Hd. cbn [Py.iter].
  cbn -[map_result].
  assert (E : map_result
                (fun val =>
                   if ty_isinstance entity_type val then ty_call entity_type val
                   else Raise (TypeError "Value {} is not of type {}"
                                         [val; VStr (ty_name entity_type)]))
                (l1 ++ bad :: l2)
              = Raise (TypeError "Value {} is not of type {}"
                                 [bad; VStr (ty_name entity_type)])).
  { induction l1 as [|x l1 IH]; cbn -[ty_isinstance].
    - rewrite Hb. reflexivity.
    - destruct (Hok x (or_introl eq_refl)) as [Hi [y Hy]]. rewrite Hi, Hy.
      rewrite IH; [reflexivity|]. intros z Hz. apply Hok. right. exact Hz. }
  rewrite E. reflexivity.
Qed.

(** A built-in type and a scalar property: the value goes to the constructor
    unchecked. *)
Lemma decompile_scalar_unchecked (entity_type : pytype) (v : value) :
  ty_decompile entity_type = None ->
  decompile_with entity_type false v = quiet v (ty_call entity_type v).
Proof.
  intros Hd. unfold decompile_with. rewrite Hd. reflexivity.
Qed.

Example packages_not_a_list :
  snd (Sample.decompile Sample.DeploymentType [("packages", VStr "not-a-list")])
  = Raise (TypeError "Value {} is not of type list" [VStr "not-a-list"]).
Proof. reflexivity. Qed.

(** C6 at a wire mapping whose string property holds a number: no type
    error is raised, the number is turned into a string. *)
Theorem scalar_mismatch_not_detected :
  let wire := [("name", VStr "web"); ("min_replicas", VInt 1)] in
  Dict.get "min_replicas" (validator_dict_of Sample.DeploymentType)
  = Some (Sample.plain_validator Sample.str_type, false)
  /\ ty_isinstance Sample.str_type (VInt 1) = false
  /\ exists st e,
      Sample.decompile Sample.DeploymentType wire = (st, Ok e)
      /\ Dict.get "min_replicas" (e_dict e) = Some (VStr "1").
Proof.
  cbv zeta. split; [reflexivity|]. split; [reflexivity|].
  do 2 eexists. split; [lazy; reflexivity | reflexivity].
Qed.

(** ** Round trip *)

(** C1 at the display-name example: the second compile yields a mapping
    whose description differs from that of the first one, the recovery
    identifier being gone. *)
Theorem roundtrip_loses_recovery_identifier :
  exists st1 wire1 st2 e st3 wire2,
    Sample.compile Sample.ServiceType Sample.my_kind = (st1, Ok wire1)
    /\ Sample.decompile Sample.ServiceType wire1 = (st2, Ok e)
    /\ Sample.compile Sample.ServiceType e = (st3, Ok wire2)
    /\ Dict.get "description" wire1
       = Some (VStr ("X" ++ Sample.metadata ["display_name: Friendly Name";
                                             "dsl_name: MyKind"]))
    /\ Dict.get "description" wire2
       = Some (VStr ("X" ++ Sample.metadata ["display_name: Friendly Name"]))
    /\ Py.eqb (VDict wire2) (VDict wire1) = false
    /\ e_name e = "MyKind"
    /\ Dict.get "name" wire2 = Some (VStr "Friendly Name").
Proof.
  do 6 eexists. split; [lazy; reflexivity|]. split; [lazy; reflexivity|].
  split; [lazy; reflexivity|]. repeat split; reflexivity.
Qed.

(** ** Isolation of compiles *)


Lemma length_update (l : loc) (xs : list value) (h : store) :
  length (update l xs h) = length h.
Proof.
  revert l. induction h as [|ys h IH]; intros l; [reflexivity|].
  destruct l; cbn; [reflexivity | rewrite IH; reflexivity].
Qed.

Lemma nth_update_same (l : loc) (xs : list value) (h : store) :
  l < length h -> nth l (update l xs h) [] = xs.
Proof.
  revert l. induction h as [|ys h IH]; intros l Hl; cbn in Hl; [lia|].
  destruct l; cbn; [reflexivity | apply IH; lia].
Qed.

Lemma nth_update_other (l l' : loc) (xs : list value) (h : store) :
  l <> l' -> nth l' (update l xs h) [] = nth l' h [].
Proof.
  revert l l'. induction h as [|ys h IH]; intros l l' Hne; [reflexivity|].
  destruct l, l'; cbn; try reflexivity; [congruence | apply IH; congruence].
Qed.

Lemma view_other (l : loc) (xs : list value) (h : store) (rv : rvalue) :
  (forall l', rv = Ref l' -> l' <> l) ->
  view (update l xs h) rv = view h rv.
Proof.
  intros H. destruct rv as [v|l']; [reflexivity|]. cbn.
  rewrite nth_update_other; [reflexivity|].
  intros E. apply (H l' eq_refl). congruence.
Qed.

Lemma view_extend (h news : store) (rv : rvalue) :
  (forall l, rv = Ref l -> l < length h) ->
  view (h ++ news) rv = view h rv.
Proof.
  intros H. destruct rv as [v|l]; [reflexivity|]. cbn.
  rewrite app_nth1; [reflexivity | apply H; reflexivity].
Qed.

Lemma view_dict_extend (h news : store) (d : Dict.t rvalue) :
  allocated h d -> view_dict (h ++ news) d = view_dict h d.
Proof.
  intros Ha. unfold view_dict. apply map_ext_in. intros [k rv] Hin. cbn.
  rewrite view_extend; [reflexivity|].
  intros l ->. apply (Ha k l Hin).
Qed.

Lemma view_dict_agree (h h' : store) (d : Dict.t rvalue) :
  allocated h d ->
  (forall l, l < length h -> nth l h' [] = nth l h []) ->
  view_dict h' d = view_dict h d.
Proof.
  intros Ha Hf. unfold view_dict. apply map_ext_in. intros [k rv] Hin. cbn.
  destruct rv as [v|l]; [reflexivity|]. cbn. rewrite Hf; [reflexivity|].
  apply (Ha k l Hin).
Qed.

Lemma get_view_dict (h : store) (k : string) (d : Dict.t rvalue) :
  Dict.get k (view_dict h d) = option_map (view h) (Dict.get k d).
Proof.
  unfold view_dict. induction d as [|[k0 rv] d IH]; [reflexivity|]. cbn.
  destruct (String.eqb k k0); [reflexivity | exact IH].
Qed.

Lemma set_view_dict (h : store) (k : string) (rv : rvalue) (d : Dict.t rvalue) :
  view_dict h (Dict.set k rv d) = Dict.set k (view h rv) (view_dict h d).
Proof.
  unfold view_dict. induction d as [|[k0 rv0] d IH]; [reflexivity|]. cbn.
  destruct (String.eqb k k0); cbn; [reflexivity | rewrite IH; reflexivity].
Qed.

Lemma remove_view_dict (h : store) (k : string) (d : Dict.t rvalue) :
  view_dict h (Dict.remove k d) = Dict.remove k (view_dict h d).
Proof.
  unfold Dict.remove, view_dict. induction d as [|[k0 rv0] d IH]; [reflexivity|].
  cbn. destruct (String.eqb k k0); cbn; [exact IH | rewrite IH; reflexivity].
Qed.

Lemma keys_view_dict (h : store) (d : Dict.t rvalue) :
  Dict.keys (view_dict h d) = Dict.keys d.
Proof.
  unfold Dict.keys, view_dict. rewrite map_map. reflexivity.
Qed.

Lemma merge_view_dict (h : store) (d2 d1 : Dict.t rvalue) :
  view_dict h (Dict.merge d1 d2) = Dict.merge (view_dict h d1) (view_dict h d2).
Proof.
  unfold Dict.merge. revert d1. induction d2 as [|[k rv] d2 IH]; intros d1;
    [reflexivity|].
  change (view_dict h ((k, rv) :: d2)) with ((k, view h rv) :: view_dict h d2).
  cbn [fold_left fst snd]. rewrite IH, set_view_dict. reflexivity.
Qed.

Lemma allocated_set (h : store) (k : string) (rv : rvalue) (d : Dict.t rvalue) :
  allocated h d ->
  (forall l, rv = Ref l -> l < length h) ->
  allocated h (Dict.set k rv d).
Proof.
  intros Ha Hr. induction d as [|[k0 rv0] d IH]; intros k' l; cbn.
  - intros [E|[]]. inversion E. subst. apply Hr. reflexivity.
  - assert (Hd : allocated h d)
      by (intros k1 l1 H1; apply (Ha k1 l1); right; exact H1).
    destruct (String.eqb k k0); cbn.
    + intros [E|Hin]; [inversion E; subst; apply Hr; reflexivity|].
      apply (Ha k' l). right. exact Hin.
    + intros [E|Hin]; [apply (Ha k' l); left; exact E|].
      apply (IH Hd k' l Hin).
Qed.

Lemma allocated_extend (h news : store) (d : Dict.t rvalue) :
  allocated h d -> allocated (h ++ news) d.
Proof.
  intros Ha k l Hin. rewrite length_app. specialize (Ha k l Hin). lia.
Qed.

Lemma allocated_merge (h : store) (d2 d1 : Dict.t rvalue) :
  allocated h d1 -> allocated h d2 -> allocated h (Dict.merge d1 d2).
Proof.
  unfold Dict.merge. revert d1. induction d2 as [|[k rv] d2 IH]; intros d1 H1 H2;
    [exact H1|].
  cbn. apply IH.
  - apply allocated_set; [exact H1|]. intros l ->. apply (H2 k l). left. reflexivity.
  - intros k' l' Hin. apply (H2 k' l'). right. exact Hin.
Qed.

Lemma allocated_remove (h : store) (k : string) (d : Dict.t rvalue) :
  allocated h d -> allocated h (Dict.remove k d).
Proof.
  intros Ha k' l Hin. unfold Dict.remove in Hin. apply filter_In in Hin.
  apply (Ha k' l). apply Hin.
Qed.

Lemma get_in {V} (k : string) (d : Dict.t V) (v : V) :
  Dict.get k d = Some v -> In (k, v) d.
Proof.
  induction d as [|[k0 v0] d IH]; cbn; [discriminate|].
  destruct (String.eqb_spec k k0) as [->|].
  - intros H. inversion H. left. reflexivity.
  - intros H. right. apply IH. exact H.
Qed.

(** *** Defaults *)

Lemma call_factories_run (defaults : Dict.t factory) (h : store) :
  exists news d,
    call_factories defaults h = ((h ++ news)%list, Ok d)
    /\ (forall k l, In (k, Ref l) d -> length h <= l < length (h ++ news))
    /\ view_dict (h ++ news) d
       = map (fun kf => (fst kf, call_factory (snd kf))) defaults.
Proof.
  revert h. induction defaults as [|[k f] defaults IH]; intros h.
  - exists [], []. cbn. rewrite app_nil_r.
    split; [reflexivity|]. split; [intros k l []|reflexivity].
  - destruct f as [|v].
    + destruct (IH (h ++ [[]])%list) as [news [d [E [Hr Hv]]]].
      exists ([] :: news), ((k, Ref (length h)) :: d).
      replace (h ++ [] :: news)%list with ((h ++ [[]]) ++ news)%list
        by (rewrite <- app_assoc; reflexivity).
      split; [|split].
      * unfold call_factories; fold call_factories. unfold alloc.
        cbn -[call_factories]. rewrite E. reflexivity.
      * intros k' l [H|H].
        -- inversion H. subst. rewrite !length_app. cbn. lia.
        -- specialize (Hr k' l H). rewrite !length_app in *. cbn in *. lia.
      * change (view_dict ((h ++ [[]]) ++ news) ((k, Ref (length h)) :: d))
          with ((k, VList (nth (length h) ((h ++ [[]]) ++ news) []))
                :: view_dict ((h ++ [[]]) ++ news) d).
        rewrite Hv. cbn [map fst snd call_factory]. f_equal. f_equal. f_equal.
        rewrite app_nth1 by (rewrite length_app; cbn; lia).
        rewrite app_nth2 by lia. rewrite Nat.sub_diag. reflexivity.
    + destruct (IH h) as [news [d [E [Hr Hv]]]].
      exists news, ((k, Imm v) :: d). split; [|split].
      * unfold call_factories; fold call_factories.
        cbn -[call_factories]. rewrite E. reflexivity.
      * intros k' l [H|H]; [inversion H | apply (Hr k' l H)].
      * change (view_dict (h ++ news) ((k, Imm v) :: d))
          with ((k, v) :: view_dict (h ++ news) d).
        rewrite Hv. reflexivity.
Qed.

(** *** Class tests do not look into the store *)

Lemma isinstance_opt_shape (h : store) (rv : rvalue) (T : option mclass) :
  isinstance_opt (shape rv) T = isinstance_opt (view h rv) T.
Proof. destruct rv; reflexivity. Qed.

Lemma isinstance_type_opt_shape (h : store) (rv : rvalue) (T : option mclass) :
  isinstance_type_opt (shape rv) T = isinstance_type_opt (view h rv) T.
Proof. destruct rv; reflexivity. Qed.

Lemma classify_shape (h : store) A V D key (rv : rvalue) an :
  classify A V D key (shape rv) an = classify A V D key (view h rv) an.
Proof. destruct rv; reflexivity. Qed.

(** A list object is never promoted. *)
Lemma classify_ref A V D key (l : loc) an :
  exists e, classify A V D key (VList []) an = Raise e.
Proof.
  unfold classify. cbn.
  destruct A; cbn; [|eauto]. destruct V; cbn; [|eauto].
  destruct D; cbn; eauto.
Qed.

Lemma classify_name A V D key v an an' :
  classify A V D key v an = Ok an' ->
  an' = Some "actions" \/ an' = Some "variables" \/ an' = an.
Proof.
  unfold classify. cbn.
  destruct (isinstance_opt v A) as [[]|]; cbn; try discriminate.
  - intros H. inversion H. auto.
  - destruct (isinstance_opt v V) as [[]|]; cbn; try discriminate.
    + intros H. inversion H. auto.
    + destruct (isinstance_type_opt v D) as [[]|]; cbn; try discriminate.
      destruct v; try (intros H; inversion H; auto; fail).
      destruct exc; [discriminate|]. intros H. inversion H. auto.
Qed.

Lemma user_attrs_refine (h : store) A V D (items : Dict.t rvalue) :
  forall acc,
    user_attrs_of A V D (view_dict h items) (view_dict h acc)
    = match Store.user_attrs_of A V D items acc with
      | Ok d => Ok (view_dict h d)
      | Raise e => Raise e
      end.
Proof.
  induction items as [|[name rv] items IH]; intros acc; [reflexivity|].
  change (view_dict h ((name, rv) :: items))
    with ((name, view h rv) :: view_dict h items).
  cbn [user_attrs_of Store.user_attrs_of].
  unfold isinstance_opt2.
  rewrite <- !(isinstance_opt_shape h), <- (isinstance_type_opt_shape h).
  destruct (is_dunder name); cbn -[user_attrs_of Store.user_attrs_of].
  - destruct (isinstance_opt (shape rv) V) as [[]|];
      cbn -[user_attrs_of Store.user_attrs_of].
    + rewrite <- set_view_dict. apply IH.
    + destruct (isinstance_opt (shape rv) A) as [[]|];
        cbn -[user_attrs_of Store.user_attrs_of].
      * rewrite <- set_view_dict. apply IH.
      * destruct (isinstance_type_opt (shape rv) D) as [[]|];
          cbn -[user_attrs_of Store.user_attrs_of].
        -- rewrite <- set_view_dict. apply IH.
        -- apply IH.
        -- reflexivity.
      * reflexivity.
    + reflexivity.
  - rewrite <- set_view_dict. apply IH.
Qed.

Lemma user_attrs_allocated (h : store) A V D (items : Dict.t rvalue) :
  forall acc d,
    Store.user_attrs_of A V D items acc = Ok d ->
    allocated h items -> allocated h acc -> allocated h d.
Proof.
  induction items as [|[name rv] items IH]; intros acc d.
  - cbn. intros H. inversion H. auto.
  - intros H Hi Ha.
    assert (Hi' : allocated h items)
      by (intros k l Hin; apply (Hi k l); right; exact Hin).
    assert (Hs : allocated h (Dict.set name rv acc)).
    { apply allocated_set; [exact Ha|]. intros l ->. apply (Hi name l).
      left. reflexivity. }
    revert H. cbn [Store.user_attrs_of].
    destruct (if is_dunder name then _ else _) as [[]|]; cbn -[Store.user_attrs_of];
      try discriminate; intros H; eapply IH; eauto.
Qed.

(** *** The promotion loop *)

Lemma in_keys {V} (k : string) (d : Dict.t V) (v : V) :
  Dict.get k d = Some v -> In k (Dict.keys d).
Proof.
  intros H. apply get_in in H. unfold Dict.keys.
  change k with (fst (k, v)). apply in_map. exact H.
Qed.

(** A key outside the schema that holds a list object stops the loop with
    an exception. *)
Lemma promote_stops vdict A V D (attrs : Dict.t rvalue) (k0 : string) (l0 : loc) :
  Dict.get k0 attrs = Some (Ref l0) ->
  Dict.mem k0 vdict = false ->
  forall keys an dk h,
    In k0 keys ->
    exists e, snd (Store.promote vdict A V D attrs keys an dk h) = Raise e.
Proof.
  intros Hg Hm. induction keys as [|key rest IH]; intros an dk h Hin; [destruct Hin|].
  cbn [Store.promote].
  destruct (String.eqb_spec key k0) as [->|Hne].
  - rewrite Hg, Hm. destruct (classify_ref A V D k0 l0 an) as [e He].
    cbn -[classify Store.promote]. unfold lift. rewrite He. eexists; reflexivity.
  - assert (Hin' : In k0 rest) by (destruct Hin; [congruence | assumption]).
    destruct (Dict.get key attrs) as [value|]; [|apply IH; exact Hin'].
    destruct (Dict.mem key vdict); [apply IH; exact Hin'|].
    cbn -[classify Store.promote Store.append_attr]. unfold lift.
    destruct (classify A V D key (shape value) an) as [an'|e];
      [|eexists; reflexivity].
    destruct (Store.append_attr an' (shape value) attrs h) as [h1 [[]|e]];
      [|eexists; reflexivity].
    apply IH. exact Hin'.
Qed.

Lemma append_attr_run (an : option string) (v : value) (attrs : Dict.t rvalue)
      (h h1 : store) :
  Store.append_attr an v attrs h = (h1, Ok tt) ->
  exists a l,
    an = Some a /\ Dict.get a attrs = Some (Ref l)
    /\ h1 = update l (nth l h [] ++ [v]) h.
Proof.
  unfold Store.append_attr. destruct an as [a|]; [|discriminate].
  destruct (Dict.get a attrs) as [[w|l]|] eqn:Eg; try discriminate.
  cbn. intros H. inversion H. subst. exists a, l. repeat split; auto.
Qed.

Lemma append_attr_length (an : option string) (v : value) (attrs : Dict.t rvalue)
      (h h1 : store) r :
  Store.append_attr an v attrs h = (h1, r) -> length h1 = length h.
Proof.
  unfold Store.append_attr. destruct an as [a|]; [|intros H; inversion H; reflexivity].
  destruct (Dict.get a attrs) as [[w|l]|]; cbn; intros H; inversion H;
    try reflexivity.
  apply length_update.
Qed.

(** The loop changes no list object below [n] when the collections it can
    append to are fresh. *)
Lemma promote_frame vdict A V D (attrs : Dict.t rvalue) (n : nat) :
  fresh_targets n attrs ->
  forall keys an dk h h' r,
    an = Some "actions" \/ an = Some "variables" \/ an = None ->
    Store.promote vdict A V D attrs keys an dk h = (h', r) ->
    length h' = length h /\ forall l, l < n -> nth l h' [] = nth l h [].
Proof.
  intros Hfresh. induction keys as [|key rest IH]; intros an dk h h' r Han.
  - cbn. intros H. inversion H. auto.
  - cbn [Store.promote].
    destruct (Dict.get key attrs) as [value|]; [|apply IH; exact Han].
    destruct (Dict.mem key vdict); [apply IH; exact Han|].
    cbn -[classify Store.promote Store.append_attr]. unfold lift.
    destruct (classify A V D key (shape value) an) as [an'|e] eqn:Ec;
      [|intros H; inversion H; auto].
    assert (Han' : an' = Some "actions" \/ an' = Some "variables" \/ an' = None).
    { destruct (classify_name _ _ _ _ _ _ _ Ec) as [E|[E|E]]; auto.
      subst an'. exact Han. }
    destruct (Store.append_attr an' (shape value) attrs h) as [h1 [[]|e]] eqn:Ea.
    + intros H. destruct (IH _ _ _ _ _ Han' H) as [Hl Hf].
      destruct (append_attr_run _ _ _ _ _ Ea) as [a [l [-> [Hg ->]]]].
      rewrite length_update in Hl. split; [exact Hl|].
      intros l' Hl'. rewrite Hf by exact Hl'.
      apply nth_update_other.
      assert (Ha : a = "actions" \/ a = "variables")
        by (destruct Han' as [E|[E|E]]; inversion E; auto).
      destruct (Hfresh a l Ha Hg) as [Hn _]. lia.
    + intros H. inversion H. subst.
      split; [apply (append_attr_length _ _ _ _ _ _ Ea)|].
      intros l Hl. unfold Store.append_attr in Ea.
      destruct an' as [a|]; [|inversion Ea; reflexivity].
      destruct (Dict.get a attrs) as [[w|l1]|]; cbn in Ea; inversion Ea; reflexivity.
Qed.

(** The loop over the store does what the loop by value does on the view
    of the attributes. *)
Lemma promote_refines vdict A V D (attrs : Dict.t rvalue) (n : nat) :
  fresh_targets n attrs ->
  forall keys an dk h h' dk',
    allocated h attrs ->
    an = Some "actions" \/ an = Some "variables" \/ an = None ->
    Store.promote vdict A V D attrs keys an dk h = (h', Ok dk') ->
    promote vdict A V D keys (view_dict h attrs) an dk
    = Ok (view_dict h' attrs, dk').
Proof.
  intros Hfresh. induction keys as [|key rest IH]; intros an dk h h' dk' Hal Han.
  - cbn. intros H. inversion H. reflexivity.
  - cbn [Store.promote promote]. rewrite get_view_dict.
    destruct (Dict.get key attrs) as [value|] eqn:Eg; cbn [option_map];
      [|apply IH; assumption].
    destruct (Dict.mem key vdict); [apply IH; assumption|].
    cbn -[classify Store.promote promote Store.append_attr
          append_attr].
    unfold lift. rewrite <- (classify_shape h).
    destruct (classify A V D key (shape value) an) as [an'|e] eqn:Ec;
      [|discriminate].
    assert (Han' : an' = Some "actions" \/ an' = Some "variables" \/ an' = None).
    { destruct (classify_name _ _ _ _ _ _ _ Ec) as [E|[E|E]]; auto.
      subst an'. exact Han. }
    assert (Hv : view h value = shape value).
    { destruct value as [v|l]; [reflexivity|].
      destruct (classify_ref A V D key l an) as [e He]. cbn [shape] in Ec.
      congruence. }
    destruct (Store.append_attr an' (shape value) attrs h) as [h1 [[]|e]] eqn:Ea;
      [|discriminate].
    destruct (append_attr_run _ _ _ _ _ Ea) as [a [l [-> [Hg ->]]]].
    assert (Ha : a = "actions" \/ a = "variables")
      by (destruct Han' as [E|[E|E]]; inversion E; auto).
    destruct (Hfresh a l Ha Hg) as [_ Hp].
    assert (Hl : l < length h) by (apply (Hal a l); apply get_in; exact Hg).
    intros H.
    cbn -[promote]. rewrite get_view_dict, Hg. cbn -[promote].
    rewrite Hv. rewrite <- (Hp h _ Hl).
    apply IH; [|exact Han'|exact H].
    intros k' l' Hin. rewrite length_update. apply (Hal k' l' Hin).
Qed.

(** *** The copies made by update_attrs *)

Lemma set_set_same {V} (k : string) (x y : V) (d : Dict.t V) :
  Dict.set k x (Dict.set k y d) = Dict.set k x d.
Proof.
  induction d as [|[k0 v0] d IH]; cbn.
  - rewrite String.eqb_refl. reflexivity.
  - destruct (String.eqb k k0) eqn:E; cbn; rewrite E; [reflexivity|].
    rewrite IH. reflexivity.
Qed.

Lemma set_comm {V} (a b : string) (x y : V) (d : Dict.t V) :
  a <> b -> Dict.mem a d = true ->
  Dict.set b y (Dict.set a x d) = Dict.set a x (Dict.set b y d).
Proof.
  intros Hne. unfold Dict.mem. induction d as [|[k0 v0] d IH]; cbn; [discriminate|].
  destruct (String.eqb_spec a k0) as [->|Ha]; cbn.
  - intros _. destruct (String.eqb_spec b k0) as [->|Hb]; [congruence|]. cbn.
    rewrite String.eqb_refl. reflexivity.
  - intros Hm. destruct (String.eqb_spec b k0) as [->|Hb]; cbn.
    + destruct (String.eqb_spec a k0); [contradiction | reflexivity].
    + destruct (String.eqb_spec a k0); [contradiction|]. rewrite IH by exact Hm.
      reflexivity.
Qed.


Lemma view_dict_update_other (l : loc) (xs : list value) (h : store)
      (d : Dict.t rvalue) :
  (forall k l', In (k, Ref l') d -> l' <> l) ->
  view_dict (update l xs h) d = view_dict h d.
Proof.
  intros H. unfold view_dict. apply map_ext_in. intros [k rv] Hin. cbn.
  rewrite view_other; [reflexivity|]. intros l' ->. apply (H k l' Hin).
Qed.

Lemma points_once_set (attrs : Dict.t rvalue) (a : string) (l : loc) :
  (forall k l', In (k, Ref l') attrs -> l' < l) ->
  points_once (Dict.set a (Ref l) attrs) a l.
Proof.
  intros Hb h xs Hl. rewrite !set_view_dict. cbn [view].
  rewrite nth_update_same by exact Hl.
  rewrite view_dict_update_other
    by (intros k l' Hin; specialize (Hb k l' Hin); lia).
  rewrite set_set_same. reflexivity.
Qed.

Lemma points_once_set_other (attrs : Dict.t rvalue) (a b : string) (l l' : loc) :
  points_once attrs a l ->
  a <> b -> l <> l' -> Dict.mem a attrs = true ->
  points_once (Dict.set b (Ref l') attrs) a l.
Proof.
  intros Hp Hab Hll Hm h xs Hl. rewrite !set_view_dict. cbn [view].
  rewrite nth_update_other by exact Hll. rewrite (Hp h xs Hl).
  apply set_comm; [exact Hab|].
  unfold Dict.mem in *. rewrite get_view_dict.
  destruct (Dict.get a attrs); [reflexivity | discriminate].
Qed.

Lemma list_copy_run (key : string) (attrs : Dict.t rvalue) (h h1 : store)
      (rv : rvalue) :
  allocated h attrs ->
  Store.list_copy key attrs h = (h1, Ok rv) ->
  exists xs,
    h1 = (h ++ [xs])%list /\ rv = Ref (length h)
    /\ list_copy key (view_dict h attrs) = Ok (VList xs).
Proof.
  intros Hal. unfold Store.list_copy, list_copy. rewrite get_view_dict.
  destruct (Dict.get key attrs) as [[v|l]|]; cbn -[Py.iter].
  - unfold lift. destruct (Py.iter v) as [xs|e]; cbn; [|discriminate].
    intros H. inversion H. eauto.
  - unfold alloc. intros H. inversion H. eauto.
  - unfold alloc. intros H. inversion H. eauto.
Qed.

Lemma fold_remove_view_dict (h : store) (dk : list string) (d : Dict.t rvalue) :
  view_dict h (fold_left (fun a k => Dict.remove k a) dk d)
  = fold_left (fun a k => Dict.remove k a) dk (view_dict h d).
Proof.
  revert d. induction dk as [|k dk IH]; intros d; [reflexivity|].
  cbn [fold_left]. rewrite IH, remove_view_dict. reflexivity.
Qed.

Lemma fold_remove_allocated (h : store) (dk : list string) (d : Dict.t rvalue) :
  allocated h d -> allocated h (fold_left (fun a k => Dict.remove k a) dk d).
Proof.
  revert d. induction dk as [|k dk IH]; intros d Ha; [exact Ha|].
  cbn [fold_left]. apply IH. apply allocated_remove. exact Ha.
Qed.

Lemma fold_remove_get {V} (dk : list string) (d : Dict.t V) (k : string) (v : V) :
  Dict.get k (fold_left (fun a k => Dict.remove k a) dk d) = Some v ->
  Dict.get k d = Some v.
Proof.
  revert d. induction dk as [|k0 dk IH]; intros d; [auto|].
  cbn [fold_left]. intros H. apply IH in H.
  destruct (String.eqb_spec k0 k) as [->|Hne].
  - rewrite get_remove_same in H. discriminate.
  - rewrite get_remove_other in H by exact Hne. exact H.
Qed.

Lemma allocated_set_fresh (h : store) (xs : list value) (k : string)
      (d : Dict.t rvalue) :
  allocated h d -> allocated (h ++ [xs]) (Dict.set k (Ref (length h)) d).
Proof.
  intros Ha. apply allocated_set.
  - apply allocated_extend. exact Ha.
  - intros l E. inversion E. rewrite length_app. cbn. lia.
Qed.

Lemma view_fresh (h : store) (xs : list value) :
  view (h ++ [xs]) (Ref (length h)) = VList xs.
Proof.
  cbn. rewrite app_nth2 by lia. rewrite Nat.sub_diag. reflexivity.
Qed.


Ltac usimpl :=
  cbn -[Store.list_copy Store.promote list_copy promote
        Dict.set Dict.get Dict.mem Dict.keys Dict.remove Store.view_dict fold_left].

(** The loop and the deletions after it, once the collections are in
    place. *)
Lemma promote_finish types vdict (attrs : Dict.t rvalue) (n : nat)
      (h h' : store) (dk : list string) :
  fresh_targets n attrs ->
  allocated h attrs ->
  Store.promote vdict (Dict.get "Action" types) (Dict.get "Variable" types)
                (Dict.get "Descriptor" types) attrs (Dict.keys attrs) None [] h
  = (h', Ok dk) ->
  match promote vdict (Dict.get "Action" types) (Dict.get "Variable" types)
                (Dict.get "Descriptor" types) (Dict.keys (view_dict h attrs))
                (view_dict h attrs) None [] with
  | Ok (attrs0, del_keys) =>
      Ok (fold_left (fun a k => Dict.remove k a) del_keys attrs0)
  | Raise e => Raise e
  end
  = Ok (view_dict h' (fold_left (fun a k => Dict.remove k a) dk attrs))
  /\ length h' = length h
  /\ (forall l, l < n -> nth l h' [] = nth l h [])
  /\ allocated h' (fold_left (fun a k => Dict.remove k a) dk attrs).
Proof.
  intros Hfresh Hal E.
  destruct (promote_frame vdict _ _ _ attrs n Hfresh _ _ _ _ _ _
                          (or_intror (or_intror eq_refl)) E) as [Hl Hf].
  rewrite keys_view_dict.
  rewrite (promote_refines vdict _ _ _ attrs n Hfresh _ _ _ _ _ _ Hal
                           (or_intror (or_intror eq_refl)) E).
  rewrite fold_remove_view_dict.
  split; [reflexivity|]. split; [exact Hl|]. split; [exact Hf|].
  apply fold_remove_allocated. intros k l Hin. rewrite Hl. apply (Hal k l Hin).
Qed.

(** The two collections after both have been copied. *)
Lemma fresh_targets_both (attrs : Dict.t rvalue) (h : store) (xs : list value) :
  allocated h attrs ->
  fresh_targets
    (length h)
    (Dict.set "actions" (Ref (length (h ++ [xs])))
              (Dict.set "variables" (Ref (length h)) attrs)).
Proof.
  intros Hal.
  assert (Hal1 : allocated (h ++ [xs]) (Dict.set "variables" (Ref (length h)) attrs))
    by (apply allocated_set_fresh; exact Hal).
  intros a l [->| ->] Hg.
  - rewrite get_set_same in Hg. inversion Hg. subst l.
    split; [rewrite length_app; lia|].
    apply points_once_set. intros k l' Hin. apply (Hal1 k l' Hin).
  - rewrite get_set_other in Hg by discriminate. rewrite get_set_same in Hg.
    inversion Hg. subst l. split; [lia|].
    apply points_once_set_other.
    + apply points_once_set. intros k l' Hin. apply (Hal k l' Hin).
    + discriminate.
    + rewrite length_app. cbn. lia.
    + unfold Dict.mem. rewrite get_set_same. reflexivity.
Qed.

Lemma update_attrs_run types mcls (attrs : Dict.t rvalue) (h h' : store)
      (attrs' : Dict.t rvalue) :
  allocated h attrs ->
  Store.update_attrs types mcls attrs h = (h', Ok attrs') ->
  update_attrs types mcls (view_dict h attrs) = Ok (view_dict h' attrs')
  /\ length h <= length h'
  /\ (forall l, l < length h -> nth l h' [] = nth l h [])
  /\ allocated h' attrs'
  /\ (promotes mcls = true ->
      forall l, Dict.get "variables" attrs' = Some (Ref l) ->
                length h <= l < length h').
Proof.
  intros Hal. unfold Store.update_attrs, update_attrs, promotes.
  destruct (m_schema mcls) as [sch|].
  2: { usimpl. intros H. inversion H. subst.
       repeat split; auto; try discriminate. }
  set (vdict := validator_dict sch).
  destruct (Dict.mem "variables" vdict) eqn:Emv, (Dict.mem "actions" vdict) eqn:Ema;
    usimpl.
  4: { intros H. inversion H. subst. repeat split; auto; try discriminate. }
  all: destruct (Store.list_copy "variables" attrs h) as [h1 [vars|e]] eqn:E1;
    [|discriminate].
  all: destruct (list_copy_run _ _ _ _ _ Hal E1) as [xs [-> [-> Hc1]]].
  all: rewrite Hc1; usimpl.
  all: set (attrs1 := Dict.set "variables" (Ref (length h)) attrs).
  all: assert (Hal1 : allocated (h ++ [xs]) attrs1)
    by (apply allocated_set_fresh; exact Hal).
  all: assert (Hv1 : view_dict (h ++ [xs]) attrs1
                     = Dict.set "variables" (VList xs) (view_dict h attrs))
    by (unfold attrs1; rewrite set_view_dict, view_fresh,
          (view_dict_extend h [xs] attrs Hal); reflexivity).
  all: assert (Hg1 : Dict.get "variables" attrs1 = Some (Ref (length h)))
    by (apply get_set_same).
  all: assert (Hlen1 : length (h ++ [xs]) = length h + 1)
    by (rewrite length_app; cbn; lia).
  1, 3:
    destruct (Store.list_copy "actions" attrs1 (h ++ [xs])) as [h2 [acts|e]] eqn:E2;
    [|discriminate];
    destruct (list_copy_run _ _ _ _ _ Hal1 E2) as [ys [-> [-> Hc2]]];
    rewrite <- Hv1, Hc2; usimpl;
    set (h2 := ((h ++ [xs]) ++ [ys])%list);
    set (attrs2 := Dict.set "actions" (Ref (length (h ++ [xs]))) attrs1);
    assert (Hal2 : allocated h2 attrs2) by (apply allocated_set_fresh; exact Hal1);
    assert (Hv2 : view_dict h2 attrs2
                  = Dict.set "actions" (VList ys) (view_dict (h ++ [xs]) attrs1))
      by (unfold attrs2, h2; rewrite set_view_dict, view_fresh,
            (view_dict_extend (h ++ [xs]) [ys] attrs1 Hal1); reflexivity);
    pose proof (fresh_targets_both attrs h xs Hal) as Hfresh;
    fold attrs1 in Hfresh; fold attrs2 in Hfresh;
    destruct (Store.promote vdict _ _ _ attrs2 (Dict.keys attrs2) None [] h2)
      as [h3 [dk|e]] eqn:E3; [|discriminate];
    intros H; inversion H; subst h' attrs'; clear H;
    rewrite <- Hv2;
    destruct (promote_finish types vdict attrs2 (length h) h2 h3 dk Hfresh Hal2 E3)
      as [Hv3 [Hl3 [Hf3 Hal3]]];
    assert (Hlen2 : length h2 = length h + 2)
      by (unfold h2; rewrite !length_app; cbn; lia);
    (split; [exact Hv3|]); (split; [lia|]);
    (split; [intros l Hl; rewrite Hf3 by exact Hl; unfold h2;
             rewrite <- app_assoc; apply app_nth1; exact Hl|]);
    (split; [exact Hal3|]);
    intros _ l Hg; apply fold_remove_get in Hg; unfold attrs2 in Hg;
    rewrite get_set_other in Hg by discriminate; rewrite Hg1 in Hg;
    inversion Hg; lia.
  (* only variables is a property *)
  destruct (Store.promote vdict _ _ _ attrs1 (Dict.keys attrs1) None [] (h ++ [xs]))
    as [h3 [dk|e]] eqn:E3; [|discriminate].
  assert (Hfresh : fresh_targets (length h) attrs1).
  { intros a l [->| ->] Hg.
    - (* a list object under [actions] would have stopped the loop *)
      destruct (promote_stops vdict (Dict.get "Action" types)
                              (Dict.get "Variable" types)
                              (Dict.get "Descriptor" types)
                              attrs1 "actions" l Hg Ema (Dict.keys attrs1) None []
                              (h ++ [xs]) (in_keys _ _ _ Hg)) as [e He].
      rewrite E3 in He. discriminate.
    - rewrite Hg1 in Hg. inversion Hg. subst l. split; [lia|].
      apply points_once_set. intros k l' Hin. apply (Hal k l' Hin). }
  intros H. inversion H. subst h' attrs'. clear H.
  rewrite <- Hv1.
  destruct (promote_finish types vdict attrs1 (length h) (h ++ [xs]) h3 dk
                           Hfresh Hal1 E3) as [Hv3 [Hl3 [Hf3 Hal3]]].
  split; [exact Hv3|]. split; [lia|].
  split; [intros l Hl; rewrite Hf3 by exact Hl; apply app_nth1; exact Hl|].
  split; [exact Hal3|].
  intros _ l Hg. apply fold_remove_get in Hg. rewrite Hg1 in Hg.
  inversion Hg. lia.
Qed.

(** *** Gathering *)

Lemma get_all_attrs_run types mcls (cls : Dict.t rvalue) (h h1 : store)
      (attrs : Dict.t rvalue) :
  allocated h cls ->
  Store.get_all_attrs types mcls cls h = (h1, Ok attrs) ->
  (exists news, h1 = (h ++ news)%list)
  /\ allocated h1 attrs
  /\ get_all_attrs types mcls
                   {| e_mro := m_mro mcls; e_name := Str.empty;
                      e_dict := view_dict h cls |}
     = Ok (view_dict h1 attrs).
Proof.
  intros Hal. unfold Store.get_all_attrs, get_all_attrs, Store.get_default_attrs,
                get_default_attrs, Store.get_user_attrs, get_user_attrs.
  cbn [e_dict].
  pose proof (user_attrs_refine h (Dict.get "Action" types) (Dict.get "Variable" types)
                                (Dict.get "Descriptor" types) cls []) as Hu.
  change (view_dict h []) with (@nil (string * value)) in Hu. rewrite Hu. clear Hu.
  destruct (m_schema mcls) as [sch|].
  - destruct (call_factories_run (default_attrs sch) h) as [news [d [E [Hr Hv]]]].
    cbn -[Store.call_factories Store.user_attrs_of Dict.merge]. rewrite E.
    cbn -[Store.call_factories Store.user_attrs_of Dict.merge]. unfold lift.
    destruct (Store.user_attrs_of _ _ _ cls []) as [u|e] eqn:Eu; [|discriminate].
    intros H. inversion H. subst h1 attrs. clear H.
    assert (Hau : allocated h u).
    { eapply user_attrs_allocated; [exact Eu | exact Hal | intros k l []]. }
    split; [eauto|]. split.
    + apply allocated_merge.
      * intros k l Hin. apply (Hr k l Hin).
      * apply allocated_extend. exact Hau.
    + cbn -[Dict.merge]. rewrite merge_view_dict, Hv.
      rewrite (view_dict_extend h news u Hau). reflexivity.
  - cbn -[Store.user_attrs_of Dict.merge]. unfold lift.
    destruct (Store.user_attrs_of _ _ _ cls []) as [u|e] eqn:Eu; [|discriminate].
    intros H. inversion H. subst h1 attrs. clear H.
    assert (Hau : allocated h u).
    { eapply user_attrs_allocated; [exact Eu | exact Hal | intros k l []]. }
    split; [exists []; rewrite app_nil_r; reflexivity|]. split.
    + apply allocated_merge; [intros k l []| exact Hau].
    + cbn -[Dict.merge]. rewrite merge_view_dict. reflexivity.
Qed.

(** One run of the gathering steps: it refines the steps by value, changes
    no list object that existed before, and hands back the promoted
    collection in a list object of its own. *)
Lemma gather_run types mcls (cls : Dict.t rvalue) (h h' : store)
      (attrs : Dict.t rvalue) :
  allocated h cls ->
  Store.gather types mcls cls h = (h', Ok attrs) ->
  gather_by_value types mcls (view_dict h cls) = Ok (view_dict h' attrs)
  /\ length h <= length h'
  /\ (forall l, l < length h -> nth l h' [] = nth l h [])
  /\ allocated h' attrs
  /\ (promotes mcls = true ->
      forall l, Dict.get "variables" attrs = Some (Ref l) ->
                length h <= l < length h').
Proof.
  intros Hal. unfold Store.gather, gather_by_value.
  cbn -[Store.get_all_attrs Store.update_attrs get_all_attrs update_attrs].
  destruct (Store.get_all_attrs types mcls cls h) as [h1 [attrs1|e]] eqn:E1;
    [|discriminate].
  destruct (get_all_attrs_run types mcls cls h h1 attrs1 Hal E1)
    as [[news ->] [Hal1 Hv1]].
  rewrite Hv1. intros E2.
  destruct (update_attrs_run types mcls attrs1 (h ++ news) h' attrs Hal1 E2)
    as [Hv2 [Hlen [Hf [Hal2 Hfresh]]]].
  rewrite length_app in *.
  split; [exact Hv2|]. split; [lia|]. split.
  - intros l Hl. rewrite Hf by lia. apply app_nth1. exact Hl.
  - split; [exact Hal2|]. intros Hp l Hg. specialize (Hfresh Hp l Hg). lia.
Qed.


Example variable_through_gate :
  match __new__ Sample.types Sample.VariableType "ENV" [("value", VStr "DEV")] with
  | Ok e => Store.shape (Store.Imm (entity_value e))
  | Raise _ => VNone
  end
  = VEntity (m_mro Sample.VariableType) "ENV"
            [("value", VStr "DEV"); ("__module__", VStr module_name);
             ("__doc__", VNone); ("__kind__", VStr "Variable");
             ("name", VStr Str.empty); ("description", VStr Str.empty)]
  /\ _validate Sample.types (validator_dict_of Sample.ServiceType) "ENV"
               (VEntity (m_mro Sample.VariableType) "ENV"
                        [("value", VStr "DEV"); ("__module__", VStr module_name);
                         ("__doc__", VNone); ("__kind__", VStr "Variable");
                         ("name", VStr Str.empty); ("description", VStr Str.empty)])
     = Ok (Sample.variable "ENV" "DEV").
Proof. split; reflexivity. Qed.


(** * Further properties *)

(** ** Assignments the gate accepts *)

Lemma dunder_name_attr (name : string) :
  is_dunder name = false -> String.eqb name "__name__" = false.
Proof.
  intros H. destruct (String.eqb_spec name "__name__") as [->|]; [|reflexivity].
  discriminate H.
Qed.

Lemma validate_body_plain types setattr vdict name V is_array v :
  is_dunder name = false ->
  Dict.get name vdict = Some (V, is_array) ->
  v_is_object V = false ->
  validate_body types setattr vdict name v
  = match v_validate V v is_array with Ok _ => Ok v | Raise e => Raise e end.
Proof.
  intros Hd Hg Ho. unfold validate_body. rewrite Hd, Hg, Ho. cbn.
  destruct (v_validate V v is_array); reflexivity.
Qed.

(** X1.  A property with a plain validator is stored as it was given, exactly
    when the validator accepts it; what the validator returns is not used,
    and a refusal is the outcome of the assignment.  Nothing else of the
    class changes. *)
Theorem assignment_stores_given_value :
  forall (types : Dict.t mclass) (mcls : mclass) (sch : schema) (cls : entity)
         (name : string) (V : validator) (is_array : bool) (v : value),
    m_schema mcls = Some sch ->
    is_dunder name = false ->
    Dict.get name (validator_dict sch) = Some (V, is_array) ->
    v_is_object V = false ->
    __setattr__ types mcls cls name v
    = match v_validate V v is_array with
      | Ok _ => Ok {| e_mro := e_mro cls; e_name := e_name cls;
                      e_dict := Dict.set name v (e_dict cls) |}
      | Raise e => Raise e
      end
    /\ __setitem__ types (validator_dict sch) (e_dict cls) name v
       = match v_validate V v is_array with
         | Ok _ => Ok (Dict.set name v (e_dict cls))
         | Raise e => Raise e
         end.
Proof.
  intros types mcls sch cls name V is_array v Hs Hd Hg Ho.
  unfold __setattr__, __setitem__, validate, validate_with, _validate. rewrite Hs.
  rewrite (validate_body_plain _ _ _ _ _ _ _ Hd Hg Ho).
  unfold type_setattr. rewrite (dunder_name_attr _ Hd).
  destruct (v_validate V v is_array); split; reflexivity.
Qed.

Lemma assignment_stores_given_value_witness :
  __setattr__ Sample.types Sample.ServiceType (Sample.service "web" "doc")
              "name" (VStr "frontend")
  = Ok {| e_mro := e_mro (Sample.service "web" "doc"); e_name := "web";
          e_dict := Dict.set "name" (VStr "frontend")
                             (e_dict (Sample.service "web" "doc")) |}.
Proof.
  destruct (assignment_stores_given_value
              Sample.types Sample.ServiceType
              {| validator_dict :=
                   map fst [Sample.string_property "name";
                            Sample.string_property "description";
                            Sample.list_property "variables" Sample.VariableType];
                 default_attrs :=
                   map snd [Sample.string_property "name";
                            Sample.string_property "description";
                            Sample.list_property "variables" Sample.VariableType];
                 display_map := [("name", "name"); ("description", "description");
                                 ("variables", "variable_list")] |}
              (Sample.service "web" "doc") "name"
              (Sample.plain_validator Sample.str_type) false (VStr "frontend")
              eq_refl eq_refl eq_refl eq_refl) as [E _].
  exact E.
Defined.

(** X2.  A variable assigned under a name that is no property of the kind is
    given that name: the gate sets its [name] attribute through the Variable
    kind's own validation, checks the result against the validator of
    [variables] as a single value, and returns it. *)
Theorem variable_takes_attribute_name :
  forall (types : Dict.t mclass) (vdict : Dict.t (validator * bool))
         (VariableType DescriptorType : mclass) (vsch : schema)
         (Vs Vn : validator) (arr arrn : bool)
         (name : string) (mro : list tyid) (cname : string) (d : Dict.t value),
    is_dunder name = false ->
    Dict.get name vdict = None ->
    Dict.get "Variable" types = Some VariableType ->
    Dict.get "Descriptor" types = Some DescriptorType ->
    Dict.get "variables" vdict = Some (Vs, arr) ->
    isinstance (VEntity mro cname d) VariableType = true ->
    m_schema VariableType = Some vsch ->
    Dict.get "name" (validator_dict vsch) = Some (Vn, arrn) ->
    v_is_object Vn = false ->
    _validate types vdict name (VEntity mro cname d)
    = match v_validate Vn (VStr name) arrn with
      | Ok _ =>
          let named := VEntity mro cname (Dict.set "name" (VStr name) d) in
          match v_validate Vs named false with
          | Ok _ => Ok named
          | Raise e => Raise e
          end
      | Raise e => Raise e
      end.
Proof.
  intros types vdict VT DT vsch Vs Vn arr arrn name mro cname d
         Hd Hg HV HD Hvs Hi Hsch Hn Ho.
  unfold _validate, validate_body. rewrite Hd, Hg. cbn -[isinstance Dict.get Dict.mem].
  rewrite HV, HD, Hi. rewrite (get_mem _ _ _ Hvs). cbn -[isinstance Dict.get Dict.mem].
  rewrite Hvs. unfold setattr_name. rewrite ?HV.
  unfold validate_with. rewrite Hsch. unfold _validate_name.
  rewrite (validate_body_plain types _ (validator_dict vsch) "name" Vn arrn (VStr name)
                               eq_refl Hn Ho).
  destruct (v_validate Vn (VStr name) arrn); [|reflexivity].
  cbn. destruct (v_validate Vs _ false); reflexivity.
Qed.

Lemma variable_takes_attribute_name_witness :
  _validate Sample.types (validator_dict_of Sample.ServiceType) "ENV"
            (VEntity (m_mro Sample.VariableType) "ENV" [("value", VStr "DEV")])
  = Ok (VEntity (m_mro Sample.VariableType) "ENV"
                [("value", VStr "DEV"); ("name", VStr "ENV")]).
Proof.
  rewrite (variable_takes_attribute_name
             Sample.types (validator_dict_of Sample.ServiceType)
             Sample.VariableType Sample.DescriptorType
             {| validator_dict :=
                  map fst [Sample.string_property "name";
                           Sample.string_property "description";
                           Sample.string_property "value"];
                default_attrs :=
                  map snd [Sample.string_property "name";
                           Sample.string_property "description";
                           Sample.string_property "value"];
                display_map := Sample.same_keys ["name"; "description"; "value"] |}
             (Sample.plain_validator (Sample.kind_type Sample.VariableType))
             (Sample.plain_validator Sample.str_type) true false
             "ENV" (m_mro Sample.VariableType) "ENV" [("value", VStr "DEV")]
             eq_refl eq_refl eq_refl eq_refl eq_refl eq_refl eq_refl eq_refl eq_refl).
  reflexivity.
Defined.

(** X3.  An action descriptor assigned under a name that is no property of a
    kind with actions is returned as it is: no validator sees it. *)
Theorem descriptor_passes_unvalidated :
  forall (types : Dict.t mclass) (vdict : Dict.t (validator * bool))
         (VariableType DescriptorType : mclass) (name : string) (v : value),
    is_dunder name = false ->
    Dict.get name vdict = None ->
    Dict.get "Variable" types = Some VariableType ->
    Dict.get "Descriptor" types = Some DescriptorType ->
    Dict.mem "actions" vdict = true ->
    isinstance_type v DescriptorType = true ->
    _validate types vdict name v = Ok v.
Proof.
  intros types vdict VT DT name v Hd Hg HV HD Ha Hi.
  assert (Hv : isinstance v VT = false)
    by (destruct v; try reflexivity; discriminate Hi).
  unfold _validate, validate_body. rewrite Hd, Hg.
  cbn -[isinstance isinstance_type Dict.get Dict.mem].
  rewrite HV, HD, Hv, Hi, Ha. rewrite andb_false_r. reflexivity.
Qed.

Lemma descriptor_passes_unvalidated_witness :
  _validate Sample.types
            [("actions", (Sample.plain_validator (Sample.kind_type Sample.ActionType), true))]
            "restart" (VDescr (m_mro Sample.DescriptorType) None)
  = Ok (VDescr (m_mro Sample.DescriptorType) None).
Proof.
  exact (descriptor_passes_unvalidated
           Sample.types
           [("actions", (Sample.plain_validator (Sample.kind_type Sample.ActionType), true))]
           Sample.VariableType Sample.DescriptorType "restart"
           (VDescr (m_mro Sample.DescriptorType) None)
           eq_refl eq_refl eq_refl eq_refl eq_refl eq_refl).
Defined.

(** ** Class creation *)

Lemma set_absent {V} (k : string) (v : V) (d : Dict.t V) :
  Dict.get k d = None -> Dict.set k v d = d ++ [(k, v)].
Proof.
  induction d as [|[k0 v0] d IH]; cbn; [reflexivity|].
  destruct (String.eqb k k0); [discriminate|].
  intros H. rewrite (IH H). reflexivity.
Qed.

Lemma keys_set {V} (k : string) (v : V) (d : Dict.t V) :
  Dict.keys (Dict.set k v d)
  = if Dict.mem k d then Dict.keys d else Dict.keys d ++ [k].
Proof.
  unfold Dict.mem, Dict.keys. induction d as [|[k0 v0] d IH]; cbn; [reflexivity|].
  destruct (String.eqb_spec k k0) as [->|Hk]; cbn; [reflexivity|].
  rewrite IH. destruct (Dict.get k d); reflexivity.
Qed.

Lemma get_nodup_in {V} (k : string) (v : V) (d : Dict.t V) :
  NoDup (Dict.keys d) -> In (k, v) d -> Dict.get k d = Some v.
Proof.
  induction d as [|[k0 v0] d IH]; cbn; [intros _ []|].
  intros Hn [E|I].
  - inversion E. subst. rewrite String.eqb_refl. reflexivity.
  - inversion Hn as [|? ? Hk Hn']. subst.
    destruct (String.eqb_spec k k0) as [->|_].
    + exfalso. apply Hk. change k0 with (fst (k0, v)). apply in_map. exact I.
    + apply IH; assumption.
Qed.

Lemma get_none_mem {V} (k : string) (d : Dict.t V) :
  Dict.get k d = None -> Dict.mem k d = false.
Proof.
  intros H. unfold Dict.mem. rewrite H. reflexivity.
Qed.

(** The namespace a class is created from holds the given attributes, in
    the order given, each with the value the gate returned for it. *)
Lemma fill_namespace_spec types vd (kwargs : Dict.t value) :
  forall acc ns,
    NoDup (Dict.keys kwargs) ->
    (forall k, In k (Dict.keys kwargs) -> Dict.get k acc = None) ->
    fill_namespace types (Some vd) kwargs acc = Ok ns ->
    Dict.keys ns = Dict.keys acc ++ Dict.keys kwargs
    /\ (forall k v, In (k, v) kwargs ->
          exists w, _validate types vd k v = Ok w /\ Dict.get k ns = Some w)
    /\ (forall k, ~ In k (Dict.keys kwargs) -> Dict.get k ns = Dict.get k acc).
Proof.
  induction kwargs as [|[k0 v0] kwargs IH]; intros acc ns Hn Hf; cbn -[_validate].
  - intros H. inversion H. subst. rewrite app_nil_r.
    split; [reflexivity|]. split; [intros k v []|reflexivity].
  - unfold __setitem__. cbn -[_validate].
    destruct (_validate types vd k0 v0) as [w0|] eqn:Ev; [|discriminate].
    cbn -[_validate]. intros H.
    inversion Hn as [|? ? Hk Hn']. subst.
    assert (Ha : Dict.get k0 acc = None) by (apply Hf; left; reflexivity).
    destruct (IH (Dict.set k0 w0 acc) ns Hn') as [K [G O]]; [|exact H|].
    { intros k Ik. rewrite get_set_other.
      - apply Hf. right. exact Ik.
      - intros ->. exact (Hk Ik). }
    split; [|split].
    + rewrite K, keys_set. rewrite (get_none_mem k0 acc Ha).
      rewrite <- app_assoc. reflexivity.
    + intros k v [E|I].
      * inversion E. subst. exists w0. split; [exact Ev|].
        rewrite (O k Hk). apply get_set_same.
      * apply G. exact I.
    + intros k Nk. rewrite O by (intros I; apply Nk; right; exact I).
      apply get_set_other. intros ->. apply Nk. left. reflexivity.
Qed.

(** A name that is not given does not get into the namespace. *)
Lemma fill_namespace_absent types vd (kwargs : Dict.t value) (k : string) :
  forall acc ns,
    Dict.get k kwargs = None ->
    Dict.get k acc = None ->
    fill_namespace types vd kwargs acc = Ok ns ->
    Dict.get k ns = None.
Proof.
  induction kwargs as [|[k0 v0] kwargs IH]; intros acc ns Hk Ha; cbn -[_validate].
  - intros E. inversion E. subst. exact Ha.
  - cbn in Hk. destruct (String.eqb_spec k k0) as [->|Hne]; [discriminate|].
    destruct vd as [vd|]; cbn -[_validate].
    + unfold __setitem__. cbn -[_validate].
      destruct (_validate types vd k0 v0); [|discriminate]. cbn -[_validate].
      apply IH; [exact Hk|]. rewrite get_set_other by congruence. exact Ha.
    + apply IH; [exact Hk|]. rewrite get_set_other by congruence. exact Ha.
Qed.

Lemma mem_set {V} (k k' : string) (v : V) (d : Dict.t V) :
  Dict.mem k' (Dict.set k v d) = Dict.mem k' d || String.eqb k' k.
Proof.
  unfold Dict.mem. destruct (String.eqb_spec k' k) as [->|Hk].
  - rewrite get_set_same, orb_true_r. reflexivity.
  - rewrite get_set_other by congruence. rewrite orb_false_r. reflexivity.
Qed.

Lemma hasattr_name mcls cls k :
  hasattr mcls cls k = false -> String.eqb k "__name__" = false.
Proof.
  intros H. destruct (String.eqb_spec k "__name__") as [->|]; [|reflexivity].
  unfold hasattr, metaclass_attrs in H. cbn in H.
  rewrite orb_true_r in H. discriminate.
Qed.

Lemma setattr_run types mcls cls k v cls' :
  String.eqb k "__name__" = false ->
  __setattr__ types mcls cls k v = Ok cls' ->
  exists w, validate types mcls k v = Ok w
            /\ cls' = {| e_mro := e_mro cls; e_name := e_name cls;
                         e_dict := Dict.set k w (e_dict cls) |}.
Proof.
  intros Hk. unfold __setattr__, type_setattr. rewrite Hk.
  cbn -[validate]. destruct (validate types mcls k v) as [w|]; [|discriminate].
  cbn. intros H. inversion H. exists w. split; reflexivity.
Qed.

Lemma validate_dunder types mcls k v :
  is_dunder k = true ->
  validate types mcls k v
  = Ok (match m_schema mcls with Some _ => v | None => VNone end).
Proof.
  intros H. unfold validate, validate_with.
  destruct (m_schema mcls); [|reflexivity].
  unfold _validate. apply validate_body_dunder. exact H.
Qed.

(** What the loop over the defaults does to a class. *)
Lemma set_defaults_spec types mcls (defaults : Dict.t value) :
  forall cls cls',
    set_defaults types mcls defaults cls = Ok cls' ->
    e_mro cls' = e_mro cls
    /\ (forall k v, Dict.get k (e_dict cls) = Some v ->
                    Dict.get k (e_dict cls') = Some v)
    /\ (forall k, hasattr mcls cls k = true -> hasattr mcls cls' k = true)
    /\ (forall k, In k (Dict.keys defaults) -> hasattr mcls cls' k = true)
    /\ (NoDup (Dict.keys defaults) ->
        forall k v, In (k, v) defaults -> hasattr mcls cls k = false ->
          exists w, validate types mcls k v = Ok w
                    /\ Dict.get k (e_dict cls') = Some w).
Proof.
  induction defaults as [|[k0 v0] defaults IH]; intros cls cls';
    cbn -[__setattr__ hasattr].
  - intros H. inversion H. subst. split; [reflexivity|]. split; [tauto|].
    split; [tauto|]. split; [intros k [] | intros _ k v []].
  - destruct (hasattr mcls cls k0) eqn:Eh; cbn -[__setattr__ hasattr].
    + intros H. destruct (IH _ _ H) as [M [G [A [D N]]]].
      split; [exact M|]. split; [exact G|]. split; [exact A|]. split.
      * intros k [<-|I]; [apply A; exact Eh | apply D; exact I].
      * intros Hn k v [E|I] Hk.
        -- inversion E. subst. congruence.
        -- inversion Hn. subst. apply N; assumption.
    + destruct (__setattr__ types mcls cls k0 v0) as [c1|] eqn:Es; [|discriminate].
      intros H. destruct (IH _ _ H) as [M [G [A [D N]]]].
      destruct (setattr_run _ _ _ _ _ _ (hasattr_name _ _ _ Eh) Es) as [w0 [Ev Ec]].
      assert (Hg0 : Dict.get k0 (e_dict cls) = None).
      { unfold hasattr in Eh. apply orb_false_iff in Eh. destruct Eh as [Em _].
        apply mem_get_none. exact Em. }
      assert (A1 : forall k, hasattr mcls cls k = true -> hasattr mcls c1 k = true).
      { intros k Hk. subst c1. unfold hasattr in *. cbn [e_dict]. rewrite mem_set.
        apply orb_true_iff in Hk. destruct Hk as [Hk|Hk]; rewrite Hk;
          [reflexivity | apply orb_true_r]. }
      split; [rewrite M; subst c1; reflexivity|]. split; [|split; [|split]].
      * intros k v Hk. apply G. subst c1. cbn.
        rewrite get_set_other; [exact Hk | congruence].
      * intros k Hk. apply A, A1. exact Hk.
      * intros k [<-|I]; [|apply D; exact I].
        apply A. subst c1. unfold hasattr. cbn [e_dict]. rewrite mem_set, String.eqb_refl.
        rewrite orb_true_r. reflexivity.
      * intros Hn k v [E|I] Hk.
        -- inversion E. subst k0 v0. exists w0. split; [exact Ev|].
           apply G. subst c1. cbn. apply get_set_same.
        -- inversion Hn as [|? ? Hk0 Hn']. subst.
           apply N; [exact Hn' | exact I |].
           assert (Hne : k <> k0).
           { intros ->. apply Hk0. change k0 with (fst (k0, v)). apply in_map. exact I. }
           unfold hasattr in *. cbn [e_dict]. rewrite mem_set.
           destruct (String.eqb_spec k k0); [contradiction|].
           rewrite orb_false_r. exact Hk.
Qed.

(** The steps of [__new__]. *)
Lemma new_run types mcls name kwargs cls :
  __new__ types mcls name kwargs = Ok cls ->
  exists validators ns c1,
    (if option_truthy (schema_name mcls)
     then exists sch, m_schema mcls = Some sch /\ validators = Some (validator_dict sch)
     else validators = None)
    /\ fill_namespace types validators kwargs [] = Ok ns
    /\ __setattr__ types mcls
                   {| e_mro := m_mro mcls; e_name := name;
                      e_dict := Dict.setdefault "__doc__" VNone
                                  (Dict.setdefault "__module__" (VStr module_name) ns) |}
                   "__kind__" (option_string_value (openapi_type mcls)) = Ok c1
    /\ set_defaults types mcls (get_default_attrs mcls) c1 = Ok cls.
Proof.
  unfold __new__, get_schema.
  cbn -[__setattr__ set_defaults fill_namespace get_default_attrs Dict.setdefault].
  destruct (option_truthy (schema_name mcls)).
  - destruct (m_schema mcls) as [sch|]; [|discriminate].
    cbn -[__setattr__ set_defaults fill_namespace get_default_attrs Dict.setdefault].
    destruct (fill_namespace types _ kwargs []) as [ns|] eqn:Ef; [|discriminate].
    destruct (__setattr__ types mcls _ "__kind__" _) as [c1|] eqn:Es; [|discriminate].
    intros H. exists (Some (validator_dict sch)), ns, c1. repeat split; eauto.
  - cbn -[__setattr__ set_defaults fill_namespace get_default_attrs Dict.setdefault].
    destruct (fill_namespace types _ kwargs []) as [ns|] eqn:Ef; [|discriminate].
    destruct (__setattr__ types mcls _ "__kind__" _) as [c1|] eqn:Es; [|discriminate].
    intros H. exists None, ns, c1. repeat split; eauto.
Qed.

(** X4.  A class the metaclass creates carries the name it was created under and
    the kind stamp of its metaclass, whatever the attributes say: a
    [__kind__] among them is overwritten (for a metaclass without validator
    dictionary the stamp is [None], since [validate] returns nothing there).
    Afterwards every default of the kind is an attribute of the class. *)
Theorem new_class_is_stamped :
  forall (types : Dict.t mclass) (mcls : mclass) (name : string)
         (kwargs : Dict.t value) (cls : entity),
    __new__ types mcls name kwargs = Ok cls ->
    e_name cls = name
    /\ e_mro cls = m_mro mcls
    /\ Dict.get "__kind__" (e_dict cls)
       = Some (match m_schema mcls with
               | Some _ => option_string_value (openapi_type mcls)
               | None => VNone
               end)
    /\ (forall k, In k (Dict.keys (get_default_attrs mcls)) ->
                  hasattr mcls cls k = true).
Proof.
  intros types mcls name kwargs cls H.
  split; [exact (new_name _ _ _ _ _ H)|].
  destruct (new_run _ _ _ _ _ H) as [vd [ns [c1 [_ [_ [Es Ed]]]]]].
  destruct (setattr_run types mcls _ "__kind__" _ c1 eq_refl Es) as [w [Ev Ec]].
  rewrite validate_dunder in Ev by reflexivity. inversion Ev. subst w. clear Ev.
  destruct (set_defaults_spec _ _ _ _ _ Ed) as [M [G [_ [D _]]]].
  split; [rewrite M; subst c1; reflexivity|]. split; [|exact D].
  apply G. subst c1. cbn -[Dict.setdefault]. apply get_set_same.
Qed.

Lemma new_class_is_stamped_witness :
  exists cls,
    Sample.define Sample.ServiceType "Web" VNone
                  [("__kind__", VStr "Forged"); ("name", VStr "web")] = Ok cls
    /\ e_name cls = "Web"
    /\ Dict.get "__kind__" (e_dict cls) = Some (VStr "Service")
    /\ hasattr Sample.ServiceType cls "variables" = true.
Proof.
  destruct (Sample.define Sample.ServiceType "Web" VNone
                          [("__kind__", VStr "Forged"); ("name", VStr "web")])
    as [cls|x] eqn:E.
  - exists cls. split; [reflexivity|]. unfold Sample.define in E.
    destruct (new_class_is_stamped _ _ _ _ _ E) as [N [_ [K D]]].
    split; [exact N|]. split; [exact K|].
    apply D. cbn. right. right. left. reflexivity.
  - vm_compute in E. discriminate.
Defined.

Lemma new_keeps_given types mcls sch name kwargs cls k v :
  m_schema mcls = Some sch ->
  option_truthy (schema_name mcls) = true ->
  NoDup (Dict.keys kwargs) ->
  In (k, v) kwargs ->
  k <> "__kind__" ->
  __new__ types mcls name kwargs = Ok cls ->
  exists w, _validate types (validator_dict sch) k v = Ok w
            /\ Dict.get k (e_dict cls) = Some w.
Proof.
  intros Hs Ht Hn Hi Hk H.
  destruct (new_run _ _ _ _ _ H) as [vd [ns [c1 [Hv [Ef [Es Ed]]]]]].
  rewrite Ht in Hv. destruct Hv as [sch' [Hs' ->]].
  assert (sch' = sch) by congruence. subst sch'.
  destruct (fill_namespace_spec types (validator_dict sch) kwargs [] ns Hn
                                 (fun _ _ => eq_refl) Ef) as [_ [G _]].
  destruct (G k v Hi) as [w [Ev Eg]].
  exists w. split; [exact Ev|].
  destruct (setattr_run types mcls _ "__kind__" _ c1 eq_refl Es) as [w1 [_ Ec]].
  destruct (set_defaults_spec _ _ _ _ _ Ed) as [_ [K _]].
  apply K. subst c1. cbn -[Dict.setdefault].
  rewrite get_set_other by congruence.
  rewrite !get_setdefault, Eg. reflexivity.
Qed.

(** X5.  An attribute given at creation is the class attribute, with the value
    the gate returned for it: no default replaces it.  The kind stamp is the
    one exception. *)
Theorem given_attributes_win :
  forall (types : Dict.t mclass) (mcls : mclass) (sch : schema) (name : string)
         (kwargs : Dict.t value) (cls : entity) (k : string) (v : value),
    m_schema mcls = Some sch ->
    option_truthy (schema_name mcls) = true ->
    NoDup (Dict.keys kwargs) ->
    In (k, v) kwargs ->
    k <> "__kind__" ->
    __new__ types mcls name kwargs = Ok cls ->
    exists w, _validate types (validator_dict sch) k v = Ok w
              /\ Dict.get k (e_dict cls) = Some w.
Proof.
  exact new_keeps_given.
Qed.

Lemma given_attributes_win_witness :
  exists cls,
    Sample.define Sample.ServiceType "Web" VNone [("name", VStr "web")] = Ok cls
    /\ Dict.get "name" (e_dict cls) = Some (VStr "web").
Proof.
  destruct (Sample.define Sample.ServiceType "Web" VNone [("name", VStr "web")])
    as [cls|x] eqn:E.
  - exists cls. split; [reflexivity|].
    destruct (given_attributes_win
                Sample.types Sample.ServiceType
                {| validator_dict :=
                     map fst [Sample.string_property "name";
                              Sample.string_property "description";
                              Sample.list_property "variables" Sample.VariableType];
                   default_attrs :=
                     map snd [Sample.string_property "name";
                              Sample.string_property "description";
                              Sample.list_property "variables" Sample.VariableType];
                   display_map := [("name", "name"); ("description", "description");
                                   ("variables", "variable_list")] |}
                "Web"
                [("__module__", VStr module_name); ("__doc__", VNone);
                 ("name", VStr "web")]
                cls "name" (VStr "web") eq_refl eq_refl) as [w [Ev Eg]].
    + repeat constructor; cbn; intuition discriminate.
    + right. right. left. reflexivity.
    + discriminate.
    + exact E.
    + vm_compute in Ev. inversion Ev. subst w. exact Eg.
  - vm_compute in E. discriminate.
Defined.

(** X6.  For a definition created with the single base [Entity], as
    [decompile] and [get_ref] create theirs: a default of the kind whose
    name is not dunder-style and that no attribute, given or of the
    metaclass, stands for becomes a class attribute, validated like an
    assignment.  (A class derived from another definition finds the
    defaults by inheritance and gets none of its own.) *)
Theorem missing_defaults_are_set :
  forall (types : Dict.t mclass) (mcls : mclass) (name : string)
         (kwargs : Dict.t value) (cls : entity) (k : string) (v : value),
    NoDup (Dict.keys (get_default_attrs mcls)) ->
    In (k, v) (get_default_attrs mcls) ->
    Dict.mem k kwargs = false ->
    mem_string k (metaclass_attrs mcls) = false ->
    is_dunder k = false ->
    __new__ types mcls name kwargs = Ok cls ->
    exists w, validate types mcls k v = Ok w
              /\ Dict.get k (e_dict cls) = Some w.
Proof.
  intros types mcls name kwargs cls k v Hn Hi Hk Hm Hd H.
  destruct (new_run _ _ _ _ _ H) as [vd [ns [c1 [Hv [Ef [Es Ed]]]]]].
  destruct (set_defaults_spec _ _ _ _ _ Ed) as [_ [_ [_ [_ N]]]].
  apply (N Hn k v Hi).
  destruct (setattr_run types mcls _ "__kind__" _ c1 eq_refl Es) as [w1 [_ Ec]].
  subst c1. unfold hasattr. cbn -[Dict.setdefault metaclass_attrs]. rewrite Hm.
  rewrite orb_false_r. unfold Dict.mem.
  rewrite get_set_other by (intros <-; discriminate Hd).
  rewrite !get_setdefault.
  assert (Eg : Dict.get k ns = None)
    by (apply (fill_namespace_absent types vd kwargs k [] ns
                                     (mem_get_none _ _ Hk) eq_refl Ef)).
  rewrite Eg.
  destruct (String.eqb_spec k "__module__") as [->|]; [discriminate Hd|].
  destruct (String.eqb_spec k "__doc__") as [->|]; [discriminate Hd|].
  reflexivity.
Qed.

Lemma missing_defaults_are_set_witness :
  exists cls,
    Sample.define Sample.ServiceType "Web" VNone [] = Ok cls
    /\ Dict.get "description" (e_dict cls) = Some (VStr Str.empty).
Proof.
  destruct (Sample.define Sample.ServiceType "Web" VNone []) as [cls|x] eqn:E.
  - exists cls. split; [reflexivity|]. unfold Sample.define in E.
    destruct (missing_defaults_are_set
                Sample.types Sample.ServiceType "Web"
                [("__module__", VStr module_name); ("__doc__", VNone)]
                cls "description" (VStr Str.empty)) as [w [Ev Eg]].
    + repeat constructor; cbn; intuition discriminate.
    + right. left. reflexivity.
    + reflexivity.
    + reflexivity.
    + reflexivity.
    + exact E.
    + vm_compute in Ev. inversion Ev. subst w. exact Eg.
  - vm_compute in E. discriminate.
Defined.

(** ** The attributes compile gathers *)

Lemma user_attrs_of_filter A V D (items : Dict.t value) :
  forall acc,
    NoDup (Dict.keys items) ->
    (forall k, In k (Dict.keys items) -> Dict.get k acc = None) ->
    user_attrs_of (Some A) (Some V) (Some D) items acc
    = Ok (acc ++ filter (user_entry A V D) items).
Proof.
  induction items as [|[name v] items IH]; intros acc Hn Hf.
  - cbn. rewrite app_nil_r. reflexivity.
  - inversion Hn as [|? ? Hk Hn']. subst.
    assert (Hrest : forall k, In k (Dict.keys items) ->
                      Dict.get k (Dict.set name v acc) = None).
    { intros k Ik. rewrite get_set_other.
      - apply Hf. right. exact Ik.
      - intros ->. exact (Hk Ik). }
    assert (Hset : Dict.set name v acc = acc ++ [(name, v)])
      by (apply set_absent, Hf; left; reflexivity).
    cbn [user_attrs_of filter]. unfold user_entry at 1, is_member. cbn [fst snd].
    destruct (is_dunder name); cbn -[user_attrs_of isinstance isinstance_type].
    + destruct (isinstance v V); cbn -[user_attrs_of isinstance isinstance_type].
      * rewrite (IH _ Hn' Hrest), Hset, <- app_assoc. reflexivity.
      * destruct (isinstance v A); cbn -[user_attrs_of isinstance isinstance_type].
        -- rewrite (IH _ Hn' Hrest), Hset, <- app_assoc. reflexivity.
        -- destruct (isinstance_type v D); cbn -[user_attrs_of].
           ++ rewrite (IH _ Hn' Hrest), Hset, <- app_assoc. reflexivity.
           ++ apply IH; [exact Hn'|]. intros k Ik. apply Hf. right. exact Ik.
    + rewrite (IH _ Hn' Hrest), Hset, <- app_assoc. reflexivity.
Qed.

Lemma user_attrs_are_filtered_aux types (A V D : mclass) (cls : entity) :
  Dict.get "Action" types = Some A ->
  Dict.get "Variable" types = Some V ->
  Dict.get "Descriptor" types = Some D ->
  NoDup (Dict.keys (e_dict cls)) ->
  get_user_attrs types cls = Ok (filter (user_entry A V D) (e_dict cls)).
Proof.
  intros HA HV HD Hn. unfold get_user_attrs.
  rewrite HA, HV, HD. apply (user_attrs_of_filter A V D (e_dict cls) [] Hn).
  intros k _. reflexivity.
Qed.

(** X7.  With the three capability kinds registered, [get_user_attrs] returns
    the entries of the class [__dict__] in their order, leaving out exactly
    the dunder-style names whose value is no variable or action.  (For a
    class that holds no descriptor objects: reading those is up to the
    descriptor.) *)
Theorem user_attrs_are_filtered :
  forall (types : Dict.t mclass) (A V D : mclass) (cls : entity),
    Dict.get "Action" types = Some A ->
    Dict.get "Variable" types = Some V ->
    Dict.get "Descriptor" types = Some D ->
    NoDup (Dict.keys (e_dict cls)) ->
    no_descriptors (e_dict cls) ->
    get_user_attrs types cls
    = Ok (filter (fun kv => negb (is_dunder (fst kv))
                            || isinstance (snd kv) V || isinstance (snd kv) A)
                 (e_dict cls)).
Proof.
  intros types A V D cls HA HV HD Hn Hd.
  rewrite (user_attrs_are_filtered_aux types A V D cls HA HV HD Hn).
  f_equal. apply filter_ext_in. intros [k v] I.
  unfold user_entry, is_member. cbn [fst snd].
  assert (E : isinstance_type v D = false).
  { specialize (Hd k v I). destruct v; try reflexivity. discriminate Hd. }
  rewrite E, orb_false_r, orb_assoc. reflexivity.
Qed.

Lemma user_attrs_are_filtered_witness :
  get_user_attrs Sample.types (Sample.service "web" "doc")
  = Ok [("name", VStr Str.empty); ("description", VStr Str.empty);
        ("variables", VList [])].
Proof.
  rewrite (user_attrs_are_filtered
             Sample.types Sample.ActionType Sample.VariableType Sample.DescriptorType
             (Sample.service "web" "doc") eq_refl eq_refl eq_refl).
  - reflexivity.
  - repeat constructor; cbn; intuition discriminate.
  - intros k v I. cbn in I.
    repeat (destruct I as [I|I]; [inversion I; reflexivity|]). destruct I.
Defined.

Lemma user_attrs_of_raises A V D (items : Dict.t value) (k : string) (v : value) :
  forall acc,
    A = None \/ V = None \/ D = None ->
    In (k, v) items ->
    is_dunder k = true ->
    is_plain v = true ->
    user_attrs_of A V D items acc = Raise not_a_type.
Proof.
  intros acc Hm Hi Hd Hp. revert acc.
  induction items as [|[k0 v0] items IH]; intros acc; [destruct Hi|].
  assert (Hplain : forall T, isinstance v T = false /\ isinstance_type v T = false)
    by (intros T; destruct v; try discriminate Hp; split; reflexivity).
  cbn [user_attrs_of].
  destruct (is_dunder k0) eqn:Ed0.
  - destruct Hi as [E|I].
    + inversion E. subst k0 v0. clear IH.
      destruct V as [V|]; [|reflexivity].
      cbn -[isinstance isinstance_type]. rewrite (proj1 (Hplain V)).
      destruct A as [A|]; [|reflexivity].
      cbn -[isinstance isinstance_type]. rewrite (proj1 (Hplain A)).
      destruct D as [D|]; [|reflexivity].
      destruct Hm as [Hm|[Hm|Hm]]; discriminate Hm.
    + specialize (IH I).
      destruct V as [V|]; [|reflexivity].
      cbn -[isinstance isinstance_type user_attrs_of].
      destruct (isinstance v0 V); cbn -[isinstance isinstance_type user_attrs_of];
        [apply IH|].
      destruct A as [A|]; [|reflexivity].
      cbn -[isinstance isinstance_type user_attrs_of].
      destruct (isinstance v0 A); cbn -[isinstance isinstance_type user_attrs_of];
        [apply IH|].
      destruct D as [D|]; [|reflexivity].
      cbn -[isinstance isinstance_type user_attrs_of].
      destruct (isinstance_type v0 D); cbn -[user_attrs_of]; apply IH.
  - destruct Hi as [E|I]; [inversion E; subst; congruence|].
    cbn -[user_attrs_of]. apply IH. exact I.
Qed.

Lemma kind_stamp_plain (mcls : mclass) :
  is_plain (match m_schema mcls with
            | Some _ => option_string_value (openapi_type mcls)
            | None => VNone
            end) = true.
Proof.
  destruct (m_schema mcls); [|reflexivity].
  destruct (openapi_type mcls); reflexivity.
Qed.

Lemma created_class_has_stamp types mcls name kwargs cls :
  __new__ types mcls name kwargs = Ok cls ->
  exists v, In ("__kind__", v) (e_dict cls) /\ is_plain v = true.
Proof.
  intros H.
  destruct (new_run _ _ _ _ _ H) as [vd [ns [c1 [_ [_ [Es Ed]]]]]].
  destruct (setattr_run types mcls _ "__kind__" _ c1 eq_refl Es) as [w [Ev Ec]].
  rewrite validate_dunder in Ev by reflexivity. inversion Ev. subst w. clear Ev.
  destruct (set_defaults_spec _ _ _ _ _ Ed) as [_ [G _]].
  eexists. split; [|apply (kind_stamp_plain mcls)].
  apply get_in. apply G. subst c1. cbn -[Dict.setdefault]. apply get_set_same.
Qed.

(** X8.  While one of the kinds Action, Variable and Descriptor is missing from
    the registry, no class created by a metaclass can be compiled: gathering
    its attributes meets the kind stamp, tests it against the missing kind,
    and the [isinstance] test raises [TypeError].  (For a class that holds
    no descriptor objects.) *)
Theorem compile_needs_capability_kinds :
  forall (types0 types : Dict.t mclass) yaml_load yaml_dump object_compile
         (mcls0 mcls : mclass) (name : string) (kwargs : Dict.t value) (cls : entity),
    Dict.get "Action" types = None \/ Dict.get "Variable" types = None
    \/ Dict.get "Descriptor" types = None ->
    __new__ types0 mcls0 name kwargs = Ok cls ->
    no_descriptors (e_dict cls) ->
    get_user_attrs types cls = Raise not_a_type
    /\ snd (run_compile types yaml_load yaml_dump object_compile mcls cls)
       = Raise not_a_type.
Proof.
  intros types0 types yl yd oc mcls0 mcls name kwargs cls Hm H _.
  destruct (created_class_has_stamp _ _ _ _ _ H) as [v [Hi Hp]].
  assert (E : get_user_attrs types cls = Raise not_a_type).
  { unfold get_user_attrs.
    apply (user_attrs_of_raises _ _ _ _ "__kind__" v); auto. }
  split; [exact E|].
  unfold run_compile, compile, compile_wire, get_all_attrs.
  cbn -[get_user_attrs get_default_attrs]. rewrite E. reflexivity.
Qed.

Lemma compile_needs_capability_kinds_witness :
  snd (run_compile [("Service", Sample.ServiceType)] RefYaml.load RefYaml.dump
                   Sample.object_compile Sample.ServiceType
                   {| e_mro := m_mro Sample.ServiceType; e_name := "Web";
                      e_dict := [("__module__", VStr module_name); ("__doc__", VNone);
                                 ("__kind__", VStr "Service");
                                 ("name", VStr Str.empty);
                                 ("description", VStr Str.empty);
                                 ("variables", VList [])] |})
  = Raise not_a_type.
Proof.
  refine (proj2 (compile_needs_capability_kinds
                   Sample.types [("Service", Sample.ServiceType)]
                   RefYaml.load RefYaml.dump Sample.object_compile
                   Sample.ServiceType Sample.ServiceType "Web"
                   [("__module__", VStr module_name); ("__doc__", VNone)] _
                   (or_introl eq_refl) _ _)).
  - reflexivity.
  - intros k v I. cbn in I.
    repeat (destruct I as [I|I]; [inversion I; reflexivity|]). destruct I.
Defined.

Lemma merge_get {V} (k : string) (d2 : Dict.t V) :
  forall d1,
    NoDup (Dict.keys d2) ->
    Dict.get k (Dict.merge d1 d2)
    = match Dict.get k d2 with Some v => Some v | None => Dict.get k d1 end.
Proof.
  unfold Dict.merge.
  induction d2 as [|[k0 v0] d2 IH]; intros d1 Hn; [reflexivity|].
  inversion Hn as [|? ? Hk Hn']. subst. cbn [fold_left fst snd Dict.get].
  rewrite (IH _ Hn').
  destruct (String.eqb_spec k k0) as [->|Hne].
  - rewrite (proj2 (get_none_keys k0 d2) Hk). apply get_set_same.
  - rewrite get_set_other by congruence. reflexivity.
Qed.

Lemma get_filter {V} (p : string * V -> bool) (k : string) (d : Dict.t V) :
  NoDup (Dict.keys d) ->
  Dict.get k (filter p d)
  = match Dict.get k d with
    | Some v => if p (k, v) then Some v else None
    | None => None
    end.
Proof.
  induction d as [|[k0 v0] d IH]; intros Hn; [reflexivity|].
  inversion Hn as [|? ? Hk Hn']. subst. cbn [filter Dict.get].
  destruct (String.eqb_spec k k0) as [->|Hne].
  - destruct (p (k0, v0)); cbn [Dict.get].
    + rewrite String.eqb_refl. reflexivity.
    + rewrite (IH Hn'), (proj2 (get_none_keys k0 d) Hk). reflexivity.
  - destruct (p (k0, v0)); cbn [Dict.get].
    + destruct (String.eqb_spec k k0); [contradiction | apply IH; exact Hn'].
    + apply IH; exact Hn'.
Qed.

Lemma nodup_keys_filter {V} (p : string * V -> bool) (d : Dict.t V) :
  NoDup (Dict.keys d) -> NoDup (Dict.keys (filter p d)).
Proof.
  induction d as [|[k0 v0] d IH]; intros Hn; [constructor|].
  inversion Hn as [|? ? Hk Hn']. subst. cbn [filter].
  destruct (p (k0, v0)); [|apply IH; exact Hn'].
  cbn. constructor; [|apply IH; exact Hn'].
  intros I. apply Hk. unfold Dict.keys in *. apply in_map_iff in I.
  destruct I as [[k1 v1] [E I]]. apply filter_In in I. destruct I as [I _].
  cbn in E. subst k1. change k0 with (fst (k0, v1)). apply in_map. exact I.
Qed.

(** X9.  The attributes [compile] starts from: an attribute of the class that
    [get_user_attrs] returns stands under its name, and under every other
    name stands the value the default factory of the kind gives.  (For a
    class that holds no descriptor objects.) *)
Theorem user_attributes_override_defaults :
  forall (types : Dict.t mclass) (A V D mcls : mclass) (cls : entity),
    Dict.get "Action" types = Some A ->
    Dict.get "Variable" types = Some V ->
    Dict.get "Descriptor" types = Some D ->
    NoDup (Dict.keys (e_dict cls)) ->
    no_descriptors (e_dict cls) ->
    exists attrs,
      get_all_attrs types mcls cls = Ok attrs
      /\ forall k,
           Dict.get k attrs
           = match Dict.get k (e_dict cls) with
             | Some v => if user_entry A V D (k, v) then Some v
                         else Dict.get k (get_default_attrs mcls)
             | None => Dict.get k (get_default_attrs mcls)
             end.
Proof.
  intros types A V D mcls cls HA HV HD Hn _.
  unfold get_all_attrs.
  rewrite (user_attrs_are_filtered_aux types A V D cls HA HV HD Hn).
  eexists. split; [reflexivity|]. intros k.
  rewrite merge_get by (apply nodup_keys_filter; exact Hn).
  rewrite get_filter by exact Hn.
  destruct (Dict.get k (e_dict cls)) as [v|]; [|reflexivity].
  destruct (user_entry A V D (k, v)); reflexivity.
Qed.

Lemma user_attributes_override_defaults_witness :
  exists attrs,
    get_all_attrs Sample.types Sample.ServiceType
                  {| e_mro := m_mro Sample.ServiceType; e_name := "Web";
                     e_dict := [("__doc__", VNone); ("name", VStr "web")] |}
    = Ok attrs
    /\ Dict.get "name" attrs = Some (VStr "web")
    /\ Dict.get "description" attrs = Some (VStr Str.empty)
    /\ Dict.get "__doc__" attrs = None.
Proof.
  destruct (user_attributes_override_defaults
              Sample.types Sample.ActionType Sample.VariableType Sample.DescriptorType
              Sample.ServiceType
              {| e_mro := m_mro Sample.ServiceType; e_name := "Web";
                 e_dict := [("__doc__", VNone); ("name", VStr "web")] |}
              eq_refl eq_refl eq_refl) as [attrs [E G]].
  - repeat constructor; cbn; intuition discriminate.
  - intros k v I. cbn in I.
    repeat (destruct I as [I|I]; [inversion I; reflexivity|]). destruct I.
  - exists attrs. split; [exact E|]. rewrite !G. repeat split; reflexivity.
Defined.

(** ** Promotion of variables and actions *)

Lemma grown_refl (attrs : Dict.t value) : grown attrs attrs.
Proof.
  split; [reflexivity|]. intros k.
  destruct (Dict.get k attrs) as [[]|]; try reflexivity.
  exists []. rewrite app_nil_r. reflexivity.
Qed.

Lemma grown_trans (a b c : Dict.t value) : grown a b -> grown b c -> grown a c.
Proof.
  intros [K1 G1] [K2 G2]. split; [congruence|]. intros k.
  specialize (G1 k). specialize (G2 k).
  destruct (Dict.get k a) as [[]|]; try (rewrite G1 in G2; exact G2).
  destruct G1 as [l1 G1]. rewrite G1 in G2. destruct G2 as [l2 G2].
  exists (l1 ++ l2). rewrite G2, app_assoc. reflexivity.
Qed.

Lemma keys_set_present {V} (k : string) (v w : V) (d : Dict.t V) :
  Dict.get k d = Some w -> Dict.keys (Dict.set k v d) = Dict.keys d.
Proof.
  intros H. rewrite keys_set. rewrite (get_mem _ _ _ H). reflexivity.
Qed.

Lemma append_attr_grown (an : option string) (v : value) (attrs attrs' : Dict.t value) :
  append_attr an v attrs = Ok attrs' -> grown attrs attrs'.
Proof.
  unfold append_attr. destruct an as [a|]; [|discriminate].
  destruct (Dict.get a attrs) as [[]|] eqn:E; try discriminate.
  intros H. inversion H. subst attrs'. clear H. split.
  - apply (keys_set_present _ _ _ _ E).
  - intros k. destruct (String.eqb_spec a k) as [<-|Hne].
    + rewrite E. exists [v]. apply get_set_same.
    + rewrite get_set_other by exact Hne.
      destruct (Dict.get k attrs) as [[]|]; try reflexivity.
      exists []. rewrite app_nil_r. reflexivity.
Qed.

Lemma append_attr_target (a : string) (v : value) (attrs attrs' : Dict.t value) :
  append_attr (Some a) v attrs = Ok attrs' ->
  exists l, Dict.get a attrs' = Some (VList (l ++ [v])).
Proof.
  unfold append_attr. destruct (Dict.get a attrs) as [[]|] eqn:E; try discriminate.
  intros H. inversion H. eexists. apply get_set_same.
Qed.

Lemma grown_mem (a b : Dict.t value) (k : string) :
  grown a b -> Dict.mem k b = Dict.mem k a.
Proof.
  intros [_ G]. specialize (G k). unfold Dict.mem.
  destruct (Dict.get k a) as [[]|]; try (rewrite G; reflexivity).
  destruct G as [l1 G]. rewrite G. reflexivity.
Qed.

(** The promotion loop only appends to lists. *)
Lemma promote_grown vdict A V D (keys : list string) :
  forall attrs an dk attrs' dk',
    promote vdict A V D keys attrs an dk = Ok (attrs', dk') ->
    grown attrs attrs'.
Proof.
  induction keys as [|key keys IH]; intros attrs an dk attrs' dk';
    cbn -[classify append_attr].
  - intros H. inversion H. apply grown_refl.
  - destruct (Dict.get key attrs) as [v|]; [|apply IH].
    destruct (Dict.mem key vdict); [apply IH|].
    destruct (classify A V D key v an) as [an'|]; [|discriminate].
    cbn -[classify append_attr].
    destruct (append_attr an' v attrs) as [attrs1|] eqn:Ea; [|discriminate].
    cbn -[classify append_attr]. intros H.
    exact (grown_trans _ _ _ (append_attr_grown _ _ _ _ Ea) (IH _ _ _ _ _ H)).
Qed.

(** The keys the promotion loop marks for deletion are those that are no
    property of the kind, in the order met. *)
Lemma promote_del_keys vdict A V D (keys : list string) :
  forall attrs an dk attrs' dk',
    (forall k, In k keys -> Dict.mem k attrs = true) ->
    promote vdict A V D keys attrs an dk = Ok (attrs', dk') ->
    dk' = dk ++ filter (fun k => negb (Dict.mem k vdict)) keys.
Proof.
  induction keys as [|key keys IH]; intros attrs an dk attrs' dk' Hk;
    cbn -[classify append_attr].
  - intros H. inversion H. rewrite app_nil_r. reflexivity.
  - assert (Hm : Dict.mem key attrs = true) by (apply Hk; left; reflexivity).
    unfold Dict.mem in Hm.
    destruct (Dict.get key attrs) as [v|]; [clear Hm|discriminate].
    destruct (Dict.mem key vdict); cbn [negb].
    + apply IH. intros k I. apply Hk. right. exact I.
    + destruct (classify A V D key v an) as [an'|]; [|discriminate].
      cbn -[classify append_attr].
      destruct (append_attr an' v attrs) as [attrs1|] eqn:Ea; [|discriminate].
      cbn -[classify append_attr]. intros H.
      assert (Hk1 : forall k, In k keys -> Dict.mem k attrs1 = true).
      { intros k I. rewrite (grown_mem _ _ _ (append_attr_grown _ _ _ _ Ea)).
        apply Hk. right. exact I. }
      rewrite (IH _ _ _ _ _ Hk1 H), <- app_assoc. reflexivity.
Qed.

Lemma filter_filter {A} (P Q : A -> bool) (l : list A) :
  filter P (filter Q l) = filter (fun x => Q x && P x) l.
Proof.
  induction l as [|x l IH]; [reflexivity|].
  cbn [filter]. destruct (Q x); cbn [filter andb]; [|exact IH].
  destruct (P x); rewrite IH; reflexivity.
Qed.

Lemma keys_fold_remove {V} (dk : list string) :
  forall d : Dict.t V,
    Dict.keys (fold_left (fun a k => Dict.remove k a) dk d)
    = filter (fun k => negb (mem_string k dk)) (Dict.keys d).
Proof.
  induction dk as [|k0 dk IH]; intros d; cbn [fold_left].
  - symmetry. apply forallb_filter_id. apply forallb_forall. reflexivity.
  - rewrite IH, keys_remove, filter_filter. apply filter_ext. intros k.
    unfold mem_string. cbn [existsb]. rewrite negb_orb, (String.eqb_sym k k0).
    reflexivity.
Qed.

Lemma mem_string_in (k : string) (l : list string) :
  mem_string k l = true <-> In k l.
Proof.
  unfold mem_string. rewrite existsb_exists. split.
  - intros [x [I E]]. apply String.eqb_eq in E. subst. exact I.
  - intros I. exists k. split; [exact I | apply String.eqb_refl].
Qed.

Lemma in_keys_mem {V} (k : string) (d : Dict.t V) :
  In k (Dict.keys d) -> Dict.mem k d = true.
Proof.
  intros I. unfold Dict.mem. destruct (Dict.get k d) eqn:E; [reflexivity|].
  exfalso. exact (proj1 (get_none_keys k d) E I).
Qed.

(** The steps of [update_attrs] on a kind that promotes. *)
Lemma update_attrs_steps types mcls sch attrs r :
  m_schema mcls = Some sch ->
  promotes mcls = true ->
  update_attrs types mcls attrs = Ok r ->
  exists vars attrs2 attrs' dk,
    list_copy "variables" attrs = Ok vars
    /\ (if Dict.mem "actions" (validator_dict sch)
        then exists acts,
            list_copy "actions" (Dict.set "variables" vars attrs) = Ok acts
            /\ attrs2 = Dict.set "actions" acts (Dict.set "variables" vars attrs)
        else attrs2 = Dict.set "variables" vars attrs)
    /\ promote (validator_dict sch) (Dict.get "Action" types)
               (Dict.get "Variable" types) (Dict.get "Descriptor" types)
               (Dict.keys attrs2) attrs2 None [] = Ok (attrs', dk)
    /\ r = fold_left (fun a k => Dict.remove k a) dk attrs'.
Proof.
  intros Hs Hp. unfold update_attrs, promotes in *. rewrite Hs in *.
  apply orb_true_iff in Hp.
  assert (Hn : negb (Dict.mem "variables" (validator_dict sch))
               && negb (Dict.mem "actions" (validator_dict sch)) = false).
  { destruct Hp as [-> | ->]; [reflexivity | apply andb_false_r]. }
  rewrite Hn. cbn -[list_copy promote Dict.mem Dict.set Dict.keys].
  destruct (list_copy "variables" attrs) as [vars|]; [|discriminate].
  cbn -[list_copy promote Dict.mem Dict.set Dict.keys].
  destruct (Dict.mem "actions" (validator_dict sch)).
  - cbn -[list_copy promote Dict.mem Dict.set Dict.keys].
    destruct (list_copy "actions" _) as [acts|] eqn:Ea; [|discriminate].
    cbn -[list_copy promote Dict.mem Dict.set Dict.keys].
    destruct (promote _ _ _ _ _ _ None []) as [[attrs' dk]|] eqn:Ep; [|discriminate].
    cbn. intros H. inversion H.
    exists vars, (Dict.set "actions" acts (Dict.set "variables" vars attrs)), attrs', dk.
    split; [reflexivity|]. split; [exists acts; split; [exact Ea | reflexivity]|].
    split; [exact Ep | reflexivity].
  - cbn -[list_copy promote Dict.mem Dict.set Dict.keys].
    destruct (promote _ _ _ _ _ _ None []) as [[attrs' dk]|] eqn:Ep; [|discriminate].
    cbn. intros H. inversion H.
    exists vars, (Dict.set "variables" vars attrs), attrs', dk.
    split; [reflexivity|]. split; [reflexivity|]. split; [exact Ep | reflexivity].
Qed.

(** X10.  What [update_attrs] leaves of the attributes of a kind with variables
    or actions are properties of the kind: every other key has been folded
    into a collection and deleted.  For a kind with neither, the attributes
    are left as they are. *)
Theorem update_attrs_keeps_properties_only :
  forall (types : Dict.t mclass) (mcls : mclass) (sch : schema)
         (attrs r : Dict.t value),
    m_schema mcls = Some sch ->
    update_attrs types mcls attrs = Ok r ->
    if promotes mcls
    then forall k, In k (Dict.keys r) -> Dict.mem k (validator_dict sch) = true
    else r = attrs.
Proof.
  intros types mcls sch attrs r Hs H.
  destruct (promotes mcls) eqn:Hp.
  - destruct (update_attrs_steps _ _ _ _ _ Hs Hp H)
      as [vars [attrs2 [attrs' [dk [_ [_ [Ep ->]]]]]]].
    intros k Ik. rewrite keys_fold_remove in Ik. apply filter_In in Ik.
    destruct Ik as [Ik Hk].
    destruct (promote_grown _ _ _ _ _ _ _ _ _ _ Ep) as [K _].
    rewrite K in Ik.
    rewrite (promote_del_keys _ _ _ _ _ _ _ _ _ _ (fun k I => in_keys_mem _ _ I) Ep) in Hk.
    cbn [app] in Hk.
    destruct (Dict.mem k (validator_dict sch)) eqn:Em; [reflexivity|].
    exfalso. apply negb_true_iff in Hk.
    assert (T : mem_string k (filter (fun k0 => negb (Dict.mem k0 (validator_dict sch)))
                                     (Dict.keys attrs2)) = true).
    { apply mem_string_in, filter_In. split; [exact Ik|]. rewrite Em. reflexivity. }
    congruence.
  - unfold update_attrs, promotes in *. rewrite Hs in *.
    apply orb_false_iff in Hp. destruct Hp as [Hv Ha]. rewrite Hv, Ha in H.
    cbn in H. inversion H. reflexivity.
Qed.

Lemma update_attrs_keeps_properties_only_witness :
  exists r,
    update_attrs Sample.types Sample.ServiceType
                 [("name", VStr "web"); ("variables", VList []);
                  ("ENV", Sample.variable "ENV" "DEV")] = Ok r
    /\ forall k, In k (Dict.keys r) ->
                 Dict.mem k (validator_dict_of Sample.ServiceType) = true.
Proof.
  destruct (update_attrs Sample.types Sample.ServiceType
                         [("name", VStr "web"); ("variables", VList []);
                          ("ENV", Sample.variable "ENV" "DEV")]) as [r|x] eqn:E.
  - exists r. split; [reflexivity|].
    exact (update_attrs_keeps_properties_only
             Sample.types Sample.ServiceType _ _ r eq_refl E).
  - vm_compute in E. discriminate.
Defined.

Lemma fold_remove_keep {V} (dk : list string) (k : string) :
  forall d : Dict.t V,
    ~ In k dk ->
    Dict.get k (fold_left (fun a k => Dict.remove k a) dk d) = Dict.get k d.
Proof.
  induction dk as [|k0 dk IH]; intros d Hn; [reflexivity|].
  cbn [fold_left]. rewrite IH by (intros I; apply Hn; right; exact I).
  apply get_remove_other. intros ->. apply Hn. left. reflexivity.
Qed.

Lemma fold_remove_gone {V} (dk : list string) (k : string) (d : Dict.t V) :
  In k dk ->
  Dict.get k (fold_left (fun a k => Dict.remove k a) dk d) = None.
Proof.
  intros I. apply get_none_keys. rewrite keys_fold_remove. intros F.
  apply filter_In in F. destruct F as [_ F].
  rewrite (proj2 (mem_string_in k dk) I) in F. discriminate.
Qed.

Lemma grown_keeps (a b : Dict.t value) (k : string) (v : value) :
  grown a b -> Dict.get k a = Some v -> is_list v = false -> Dict.get k b = Some v.
Proof.
  intros [_ G] E Hl. specialize (G k). rewrite E in G.
  destruct v; try exact G. discriminate.
Qed.

Lemma grown_list (a b : Dict.t value) (k : string) (l : list value) :
  grown a b -> Dict.get k a = Some (VList l) ->
  exists l1, Dict.get k b = Some (VList (l ++ l1)).
Proof.
  intros [_ G] E. specialize (G k). rewrite E in G. exact G.
Qed.

Lemma classify_list_raises A V D k (l : list value) an :
  exists e, classify A V D k (VList l) an = Raise e.
Proof.
  destruct A, V, D; cbn; eauto.
Qed.

(** A list under a key that is no property of the kind stops the promotion
    loop: it is neither a variable nor an action. *)
Lemma promote_raises_on_list vdict A V D (k : string) (keys : list string) :
  forall attrs an dk l,
    In k keys ->
    Dict.get k attrs = Some (VList l) ->
    Dict.mem k vdict = false ->
    exists e, promote vdict A V D keys attrs an dk = Raise e.
Proof.
  induction keys as [|key keys IH]; intros attrs an dk l Hi Hg Hm; [destruct Hi|].
  cbn -[classify append_attr].
  destruct (String.eqb_spec key k) as [->|Hne].
  - rewrite Hg, Hm.
    destruct (classify_list_raises A V D k l an) as [e ->]. eauto.
  - destruct Hi as [E|Hi]; [contradiction|].
    destruct (Dict.get key attrs) as [v0|]; [|apply (IH _ _ _ l); assumption].
    destruct (Dict.mem key vdict); [apply (IH _ _ _ l); assumption|].
    destruct (classify A V D key v0 an) as [an'|]; [|eauto].
    cbn -[classify append_attr].
    destruct (append_attr an' v0 attrs) as [attrs1|] eqn:Ea; [|eauto].
    cbn -[classify append_attr].
    destruct (grown_list _ _ _ _ (append_attr_grown _ _ _ _ Ea) Hg) as [l1 Hg1].
    apply (IH _ _ _ _ Hi Hg1 Hm).
Qed.

Lemma list_copy_is_list key attrs v :
  list_copy key attrs = Ok v -> exists l, v = VList l.
Proof.
  unfold list_copy. destruct (Py.iter _) as [l|]; [|discriminate].
  cbn. intros H. inversion H. eauto.
Qed.

(** X11.  A kind whose schema has actions but no variables cannot be compiled:
    [update_attrs] stores a list under [variables] all the same, and then
    refuses it as a value that is not handled for the entity (or fails
    before that). *)
Theorem update_attrs_needs_variables :
  forall (types : Dict.t mclass) (mcls : mclass) (sch : schema) (attrs : Dict.t value),
    m_schema mcls = Some sch ->
    Dict.mem "variables" (validator_dict sch) = false ->
    Dict.mem "actions" (validator_dict sch) = true ->
    exists e, update_attrs types mcls attrs = Raise e.
Proof.
  intros types mcls sch attrs Hs Hv Ha.
  destruct (update_attrs types mcls attrs) as [r|e] eqn:E; [|eauto].
  exfalso.
  assert (Hp : promotes mcls = true).
  { unfold promotes. rewrite Hs, Ha. apply orb_true_r. }
  destruct (update_attrs_steps _ _ _ _ _ Hs Hp E)
    as [vars [attrs2 [attrs' [dk [Ec [H2 [Ep _]]]]]]].
  rewrite Ha in H2. destruct H2 as [acts [_ ->]].
  destruct (list_copy_is_list _ _ _ Ec) as [l ->].
  assert (Hg : Dict.get "variables"
                        (Dict.set "actions" acts (Dict.set "variables" (VList l) attrs))
               = Some (VList l)).
  { rewrite get_set_other by discriminate. apply get_set_same. }
  destruct (promote_raises_on_list
              (validator_dict sch) (Dict.get "Action" types)
              (Dict.get "Variable" types) (Dict.get "Descriptor" types)
              "variables" _ _ None [] l (in_keys _ _ _ Hg) Hg Hv) as [e Er].
  rewrite Er in Ep. discriminate.
Qed.

Lemma update_attrs_needs_variables_witness :
  exists e,
    update_attrs Sample.types
                 (Sample.kind "TaskType" "Task"
                    [Sample.string_property "name";
                     Sample.list_property "actions" Sample.ActionType]
                    (Sample.same_keys ["name"; "actions"]))
                 [("name", VStr "t"); ("actions", VList [])] = Raise e.
Proof.
  exact (update_attrs_needs_variables
           Sample.types
           (Sample.kind "TaskType" "Task"
              [Sample.string_property "name";
               Sample.list_property "actions" Sample.ActionType]
              (Sample.same_keys ["name"; "actions"]))
           _ [("name", VStr "t"); ("actions", VList [])] eq_refl eq_refl eq_refl).
Defined.

Lemma promote_del_incl vdict A V D (keys : list string) :
  forall attrs an dk attrs' dk' x,
    promote vdict A V D keys attrs an dk = Ok (attrs', dk') ->
    In x dk -> In x dk'.
Proof.
  induction keys as [|key keys IH]; intros attrs an dk attrs' dk' x;
    cbn -[classify append_attr].
  - intros H. inversion H. subst. auto.
  - destruct (Dict.get key attrs) as [v|]; [|apply IH].
    destruct (Dict.mem key vdict); [apply IH|].
    destruct (classify A V D key v an) as [an'|]; [|discriminate].
    cbn -[classify append_attr].
    destruct (append_attr an' v attrs) as [attrs1|]; [|discriminate].
    cbn -[classify append_attr]. intros H I.
    apply (IH _ _ _ _ _ _ H). apply in_or_app. left. exact I.
Qed.

(** A member met by the promotion loop ends up in its collection, and its
    key among those to delete. *)
Lemma promote_collects vdict A V D (k a : string) (v : value) (keys : list string) :
  forall attrs an dk attrs' dk',
    promote vdict A V D keys attrs an dk = Ok (attrs', dk') ->
    In k keys ->
    Dict.get k attrs = Some v ->
    is_list v = false ->
    Dict.mem k vdict = false ->
    (forall an, classify A V D k v an = Ok (Some a)) ->
    (exists l1 l2, Dict.get a attrs' = Some (VList (l1 ++ v :: l2)))
    /\ In k dk'.
Proof.
  induction keys as [|key keys IH]; intros attrs an dk attrs' dk' H Hi Hg Hl Hm Hc;
    [destruct Hi|].
  cbn -[classify append_attr] in H.
  destruct (String.eqb_spec key k) as [->|Hne].
  - rewrite Hg, Hm, Hc in H. cbn -[classify append_attr] in H.
    destruct (append_attr (Some a) v attrs) as [attrs1|] eqn:Ea; [|discriminate].
    cbn -[classify append_attr] in H.
    destruct (append_attr_target _ _ _ _ Ea) as [l Et].
    destruct (grown_list _ _ _ _ (promote_grown _ _ _ _ _ _ _ _ _ _ H) Et) as [l1 E1].
    split.
    + exists l, l1. rewrite E1, <- app_assoc. reflexivity.
    + apply (promote_del_incl _ _ _ _ _ _ _ _ _ _ _ H).
      apply in_or_app. right. left. reflexivity.
  - destruct Hi as [E|Hi]; [contradiction|].
    destruct (Dict.get key attrs) as [v0|]; [|apply (IH _ _ _ _ _ H); assumption].
    destruct (Dict.mem key vdict); [apply (IH _ _ _ _ _ H); assumption|].
    destruct (classify A V D key v0 an) as [an'|]; [|discriminate].
    cbn -[classify append_attr] in H.
    destruct (append_attr an' v0 attrs) as [attrs1|] eqn:Ea; [|discriminate].
    cbn -[classify append_attr] in H.
    apply (IH _ _ _ _ _ H); try assumption.
    apply (grown_keeps _ _ _ _ (append_attr_grown _ _ _ _ Ea) Hg Hl).
Qed.

Lemma isinstance_not_list (v : value) (T : mclass) :
  isinstance v T = true -> is_list v = false.
Proof.
  destruct v; try discriminate. reflexivity.
Qed.

(** X12.  An attribute that is no property of its kind but an action or a
    variable is moved by [update_attrs] into the collection of its sort: it
    is an element of the list under [actions] or [variables], and its own
    key is deleted.  The test for an action comes first. *)
Theorem members_are_collected :
  forall (types : Dict.t mclass) (mcls : mclass) (sch : schema) (A V : mclass)
         (attrs r : Dict.t value) (k : string) (v : value),
    m_schema mcls = Some sch ->
    Dict.get "Action" types = Some A ->
    Dict.get "Variable" types = Some V ->
    Dict.mem "variables" (validator_dict sch) = true ->
    update_attrs types mcls attrs = Ok r ->
    Dict.get k attrs = Some v ->
    Dict.mem k (validator_dict sch) = false ->
    let target := if isinstance v A then "actions" else "variables" in
    isinstance v A || isinstance v V = true ->
    Dict.mem target (validator_dict sch) = true ->
    (exists l1 l2, Dict.get target r = Some (VList (l1 ++ v :: l2)))
    /\ Dict.get k r = None.
Proof.
  intros types mcls sch A V attrs r k v Hs HA HV Hvars H Hg Hm target Hi Ht.
  assert (Hp : promotes mcls = true).
  { unfold promotes. rewrite Hs, Hvars. reflexivity. }
  destruct (update_attrs_steps _ _ _ _ _ Hs Hp H)
    as [vars [attrs2 [attrs' [dk [Ec [H2 [Ep ->]]]]]]].
  assert (Hkv : k <> "variables") by (intros ->; congruence).
  assert (Hl : is_list v = false).
  { apply orb_true_iff in Hi. destruct Hi as [Hi|Hi];
      apply (isinstance_not_list _ _ Hi). }
  assert (Hg2 : Dict.get k attrs2 = Some v).
  { destruct (Dict.mem "actions" (validator_dict sch)) eqn:Ea.
    - destruct H2 as [acts [_ ->]].
      rewrite !get_set_other; [exact Hg | congruence | intros <-; congruence].
    - subst attrs2. rewrite get_set_other; [exact Hg | congruence]. }
  assert (Hc : forall an, classify (Dict.get "Action" types) (Dict.get "Variable" types)
                                   (Dict.get "Descriptor" types) k v an
                          = Ok (Some target)).
  { intros an. unfold classify. rewrite HA, HV. subst target.
    cbn -[isinstance isinstance_type_opt].
    destruct (isinstance v A); [reflexivity|].
    cbn -[isinstance isinstance_type_opt]. cbn in Hi. rewrite Hi. reflexivity. }
  destruct (promote_collects _ _ _ _ k target v _ _ _ _ _ _ Ep
                             (in_keys _ _ _ Hg2) Hg2 Hl Hm Hc) as [[l1 [l2 El]] Id].
  split.
  - exists l1, l2. rewrite fold_remove_keep; [exact El|].
    rewrite (promote_del_keys _ _ _ _ _ _ _ _ _ _ (fun k I => in_keys_mem _ _ I) Ep).
    cbn [app]. intros F. apply filter_In in F. destruct F as [_ F].
    rewrite Ht in F. discriminate.
  - apply fold_remove_gone. exact Id.
Qed.

Lemma members_are_collected_witness :
  exists r,
    update_attrs Sample.types Sample.ServiceType
                 [("name", VStr "web"); ("variables", VList []);
                  ("ENV", Sample.variable "ENV" "DEV")] = Ok r
    /\ (exists l1 l2,
           Dict.get "variables" r
           = Some (VList (l1 ++ Sample.variable "ENV" "DEV" :: l2)))
    /\ Dict.get "ENV" r = None.
Proof.
  destruct (update_attrs Sample.types Sample.ServiceType
                         [("name", VStr "web"); ("variables", VList []);
                          ("ENV", Sample.variable "ENV" "DEV")]) as [r|x] eqn:E.
  - exists r. split; [reflexivity|].
    exact (members_are_collected
             Sample.types Sample.ServiceType _ Sample.ActionType Sample.VariableType
             _ r "ENV" (Sample.variable "ENV" "DEV")
             eq_refl eq_refl eq_refl eq_refl E eq_refl eq_refl eq_refl eq_refl).
  - vm_compute in E. discriminate.
Defined.

(** ** What compile changes and what it sends *)

Lemma append_nl_nonempty (a b : string) : (a ++ Str.nl ++ b)%string <> EmptyString.
Proof. destruct a; discriminate. Qed.

(** The metadata step assigns nothing but the name of the definition and
    the entries [name] and [description] of the mapping. *)
Lemma compile_metadata_frame types yl yd mcls st :
  let st' := fst (compile_metadata types yl yd mcls st) in
  e_dict (cs_cls st') = e_dict (cs_cls st)
  /\ e_mro (cs_cls st') = e_mro (cs_cls st)
  /\ (forall k, k <> "name" -> k <> "description" ->
                Dict.get k (cs_cdict st') = Dict.get k (cs_cdict st)).
Proof.
  unfold compile_metadata. msimpl.
  destruct (Dict.get "description" (cs_cdict st)) as [[]|] eqn:Hd;
    try (msimpl; repeat split; reflexivity).
  destruct (Str.find sep_string s) as [i|]; [|msimpl; repeat split; reflexivity].
  msimpl. unfold set_cls_name, lift, __setattr__, type_setattr.
  repeat (break_match; msimpl).
  all: repeat split; try reflexivity.
  all: intros k Hn Hde; rewrite ?get_set_other by congruence; try reflexivity.
Qed.

(** The metadata step adds no key; a name it writes is truthy, a
    description it writes is not empty. *)
Lemma compile_metadata_keys types yl yd mcls st :
  let st' := fst (compile_metadata types yl yd mcls st) in
  Dict.keys (cs_cdict st') = Dict.keys (cs_cdict st)
  /\ (Dict.get "name" (cs_cdict st') = Dict.get "name" (cs_cdict st)
      \/ exists dn, Dict.get "name" (cs_cdict st') = Some dn /\ Py.truthy dn = true)
  /\ (Dict.get "description" (cs_cdict st') = Dict.get "description" (cs_cdict st)
      \/ exists s, Dict.get "description" (cs_cdict st') = Some (VStr s)
                   /\ s <> EmptyString).
Proof.
  unfold compile_metadata. msimpl.
  destruct (Dict.get "description" (cs_cdict st)) as [[]|] eqn:Hd;
    try (msimpl; rewrite ?Hd; repeat split; left; reflexivity).
  destruct (Str.find sep_string s) as [i|];
    [|msimpl; rewrite ?Hd; repeat split; left; reflexivity].
  msimpl. unfold set_cls_name, lift, __setattr__, type_setattr.
  destruct (Dict.get "name" (cs_cdict st)) as [n|] eqn:Hn.
  2: change (Py.truthy VNone) with false.
  all: repeat (break_match; msimpl).
  all: change (@map (string * value) string fst) with (@Dict.keys value).
  all: repeat match goal with
         | H : _ && _ = true |- _ => apply andb_true_iff in H; destruct H
         end.
  all: split;
    [repeat (erewrite keys_set_present;
             [|rewrite ?get_set_other by discriminate; eassumption]);
     reflexivity|].
  all: repeat first [rewrite get_set_same | rewrite get_set_other by discriminate].
  all: split;
    [first [left; first [exact Hn | reflexivity]
           | right; eexists; split; [reflexivity | assumption]]
    |first [left; first [exact Hd | reflexivity]
           | right; eexists; split; [reflexivity | apply append_nl_nonempty]]].
Qed.

(** The outcome of [compile] in terms of its two halves. *)
Lemma run_compile_cases types yl yd oc mcls cls :
  (exists e, compile_wire types oc mcls cls = Raise e
             /\ run_compile types yl yd oc mcls cls
                = ({| cs_cls := cls; cs_cdict := []; cs_log := [] |}, Raise e))
  \/ (exists cdict0,
         compile_wire types oc mcls cls = Ok cdict0
         /\ let st1 := {| cs_cls := cls; cs_cdict := cdict0; cs_log := [] |} in
            let st2 := fst (compile_metadata types yl yd mcls st1) in
            run_compile types yl yd oc mcls cls
            = (st2, match snd (compile_metadata types yl yd mcls st1) with
                    | Ok _ => Ok (cs_cdict st2)
                    | Raise e => Raise e
                    end)).
Proof.
  destruct (compile_wire types oc mcls cls) as [cdict0|e] eqn:E.
  - right. exists cdict0. split; [reflexivity|].
    unfold run_compile. rewrite compile_run with (cdict := cdict0) by exact E.
    reflexivity.
  - left. exists e. split; [reflexivity|].
    unfold run_compile, compile. cbn -[compile_wire compile_metadata].
    rewrite E. reflexivity.
Qed.

(** X13.  Whatever [compile] returns or raises, the only thing of the definition
    it assigns is [__name__]: the class attributes are those it started
    with. *)
Theorem compile_assigns_only_the_name :
  forall types yaml_load yaml_dump object_compile (mcls : mclass) (cls : entity),
    let after := cs_cls (fst (run_compile types yaml_load yaml_dump object_compile
                                          mcls cls)) in
    e_dict after = e_dict cls /\ e_mro after = e_mro cls.
Proof.
  intros types yl yd oc mcls cls after. subst after.
  destruct (run_compile_cases types yl yd oc mcls cls)
    as [[e [_ ->]] | [cdict0 [_ ->]]]; [split; reflexivity|].
  cbn [fst].
  destruct (compile_metadata_frame types yl yd mcls
              {| cs_cls := cls; cs_cdict := cdict0; cs_log := [] |}) as [D [M _]].
  split; [exact D | exact M].
Qed.

Lemma keys_setdefault_incl {V} (w k : string) (x : V) (d : Dict.t V) :
  In k (Dict.keys (Dict.setdefault w x d)) -> In k (Dict.keys d) \/ k = w.
Proof.
  unfold Dict.setdefault. destruct (Dict.mem w d); [auto|].
  unfold Dict.keys. rewrite map_app. intros I. apply in_app_or in I.
  destruct I as [I|[E|[]]]; [left; exact I | right; symmetry; exact E].
Qed.

(** One round of the translation loop. *)
Lemma to_wire_step oc dm cls k v rest acc cdict :
  to_wire oc dm cls ((k, v) :: rest) acc = Ok cdict ->
  exists w acc1,
    Dict.get k dm = Some w
    /\ to_wire oc dm cls rest acc1 = Ok cdict
    /\ (forall x, In x (Dict.keys acc1) -> In x (Dict.keys acc) \/ x = w)
    /\ (is_object v = false -> acc1 = Dict.setdefault w v acc).
Proof.
  cbn [to_wire].
  destruct (Dict.get k dm) as [w|] eqn:Eg.
  - destruct v; cbn -[to_wire Dict.setdefault];
      try (intros H; exists w; eexists; split; [reflexivity|]; split; [exact H|];
           split; [intros x; apply keys_setdefault_incl | intros _; reflexivity]).
    match goal with
    | |- context [oc ?d cls] =>
        destruct (oc d cls) as [c|]; cbn -[to_wire Dict.setdefault]; [|discriminate]
    end.
    intros H. exists w. eexists. split; [reflexivity|]. split; [exact H|].
    split; [|discriminate].
    intros x I. apply keys_setdefault_incl in I. destruct I as [I|I]; [|auto].
    apply keys_setdefault_incl in I. exact I.
  - destruct v; cbn; discriminate.
Qed.

Lemma to_wire_keys oc dm cls (attrs : Dict.t value) :
  forall acc cdict,
    to_wire oc dm cls attrs acc = Ok cdict ->
    forall k, In k (Dict.keys cdict) -> In k (Dict.keys acc) \/ wire_key dm k.
Proof.
  induction attrs as [|[k0 v0] attrs IH]; intros acc cdict H k I.
  - cbn in H. inversion H. subst. left. exact I.
  - destruct (to_wire_step _ _ _ _ _ _ _ _ H) as [w [acc1 [Eg [H1 [K _]]]]].
    destruct (IH _ _ H1 k I) as [I1|W]; [|right; exact W].
    destruct (K _ I1) as [Ia | ->]; [left; exact Ia|].
    right. exists k0. apply get_in. exact Eg.
Qed.

Lemma keys_name_defaults cls (cdict : Dict.t value) :
  Dict.keys (name_defaults cls cdict) = Dict.keys cdict.
Proof.
  unfold name_defaults.
  assert (K1 : Dict.keys (match Dict.get "name" cdict with
                          | Some v => if Py.eqb v (VStr Str.empty)
                                      then Dict.set "name" (VStr (e_name cls)) cdict
                                      else cdict
                          | None => cdict
                          end) = Dict.keys cdict).
  { destruct (Dict.get "name" cdict) eqn:E; [|reflexivity].
    destruct (Py.eqb v (VStr Str.empty)); [|reflexivity].
    apply (keys_set_present _ _ _ _ E). }
  cbv zeta.
  match goal with
  | |- context [Dict.get "description" ?c] => set (c1 := c) in *
  end.
  destruct (Dict.get "description" c1) eqn:E; [|exact K1].
  destruct (Py.eqb v (VStr Str.empty)); [|exact K1].
  rewrite (keys_set_present _ _ _ _ E). exact K1.
Qed.

Lemma compile_wire_keys types oc mcls sch cls cdict :
  m_schema mcls = Some sch ->
  compile_wire types oc mcls cls = Ok cdict ->
  forall k, In k (Dict.keys cdict) -> wire_key (display_map sch) k.
Proof.
  intros Hs. unfold compile_wire, get_schema. rewrite Hs.
  cbn -[get_all_attrs update_attrs to_wire name_defaults].
  destruct (get_all_attrs types mcls cls) as [a|]; [|discriminate].
  destruct (update_attrs types mcls a) as [a'|]; [|discriminate].
  cbn -[get_all_attrs update_attrs to_wire name_defaults].
  destruct (to_wire oc (display_map sch) cls a' []) as [c|] eqn:Et; [|discriminate].
  cbn -[name_defaults]. intros H. inversion H. subst cdict. intros k I.
  rewrite keys_name_defaults in I.
  destruct (to_wire_keys _ _ _ _ _ _ Et k I) as [[]|W]. exact W.
Qed.

Lemma run_compile_keys types yl yd oc mcls sch cls st cdict :
  m_schema mcls = Some sch ->
  run_compile types yl yd oc mcls cls = (st, Ok cdict) ->
  forall k, In k (Dict.keys cdict) -> wire_key (display_map sch) k.
Proof.
  intros Hs H k I.
  destruct (run_compile_cases types yl yd oc mcls cls)
    as [[e [_ E]] | [cdict0 [Ew E]]]; rewrite E in H; [discriminate|].
  cbv zeta in H.
  destruct (compile_metadata_keys types yl yd mcls
              {| cs_cls := cls; cs_cdict := cdict0; cs_log := [] |}) as [K _].
  cbv zeta in K. cbn [cs_cdict] in K.
  destruct (snd (compile_metadata types yl yd mcls _)); [|discriminate].
  inversion H. subst. rewrite K in I.
  exact (compile_wire_keys _ _ _ _ _ _ Hs Ew k I).
Qed.

(** X14.  Every key of the mapping [compile] returns is a display name of the
    kind: the metadata step adds none, and the kind stamp is not sent. *)
Theorem compile_sends_display_names_only :
  forall types yaml_load yaml_dump object_compile (mcls : mclass) (sch : schema)
         (cls : entity) (st : cstate) (cdict : Dict.t value),
    m_schema mcls = Some sch ->
    run_compile types yaml_load yaml_dump object_compile mcls cls = (st, Ok cdict) ->
    forall k, In k (Dict.keys cdict) -> wire_key (display_map sch) k.
Proof.
  exact run_compile_keys.
Qed.

Lemma compile_sends_display_names_only_witness :
  exists st cdict,
    Sample.compile Sample.ServiceType (Sample.service "web" "doc") = (st, Ok cdict)
    /\ forall k, In k (Dict.keys cdict) ->
                 wire_key [("name", "name"); ("description", "description");
                           ("variables", "variable_list")] k.
Proof.
  destruct (Sample.compile Sample.ServiceType (Sample.service "web" "doc"))
    as [st [cdict|x]] eqn:E.
  - exists st, cdict. split; [reflexivity|].
    exact (compile_sends_display_names_only
             Sample.types RefYaml.load RefYaml.dump Sample.object_compile
             Sample.ServiceType _ (Sample.service "web" "doc") st cdict eq_refl E).
  - vm_compute in E. discriminate.
Defined.

Lemma name_defaults_name cls (cdict : Dict.t value) :
  Dict.get "name" (name_defaults cls cdict) = Some (VStr Str.empty) ->
  e_name cls = Str.empty.
Proof.
  unfold name_defaults. cbv zeta.
  match goal with
  | |- context [Dict.get "description" ?c] => set (c1 := c) in *
  end.
  assert (H1 : Dict.get "name" c1 = Some (VStr Str.empty) -> e_name cls = Str.empty).
  { subst c1. destruct (Dict.get "name" cdict) eqn:E; [|rewrite E; discriminate].
    destruct (Py.eqb v (VStr Str.empty)) eqn:Ee.
    - rewrite get_set_same. intros H. inversion H. reflexivity.
    - rewrite E. intros H. inversion H. subst v. discriminate Ee. }
  destruct (Dict.get "description" c1); [|exact H1].
  destruct (Py.eqb v (VStr Str.empty)); [|exact H1].
  rewrite get_set_other by discriminate. exact H1.
Qed.

Lemma name_defaults_description cls (cdict : Dict.t value) :
  Dict.get "description" (name_defaults cls cdict) = Some (VStr Str.empty) ->
  Py.truthy (doc_of cls) = false.
Proof.
  unfold name_defaults. cbv zeta.
  match goal with
  | |- context [match Dict.get "description" ?c with _ => _ end] =>
      set (c1 := c) in *
  end.
  destruct (Dict.get "description" c1) eqn:E; [|rewrite E; discriminate].
  destruct (Py.eqb v (VStr Str.empty)) eqn:Ee.
  - rewrite get_set_same. destruct (Py.truthy (doc_of cls)) eqn:Et; [|reflexivity].
    intros H. inversion H as [H']. rewrite H' in Et. discriminate Et.
  - rewrite E. intros H. inversion H. subst v. discriminate Ee.
Qed.

(** X15.  [compile] sends no empty name for a definition whose identifier is not
    empty, and no empty description for one that has a documentation text:
    an empty [name] is replaced by the identifier, an empty [description] by
    the documentation text, and the metadata step writes neither. *)
Theorem compile_fills_name_and_description :
  forall types yaml_load yaml_dump object_compile (mcls : mclass) (cls : entity)
         (st : cstate) (cdict : Dict.t value),
    run_compile types yaml_load yaml_dump object_compile mcls cls = (st, Ok cdict) ->
    (Dict.get "name" cdict = Some (VStr Str.empty) -> e_name cls = Str.empty)
    /\ (Dict.get "description" cdict = Some (VStr Str.empty) ->
        Py.truthy (doc_of cls) = false).
Proof.
  intros types yl yd oc mcls cls st cdict H.
  destruct (run_compile_cases types yl yd oc mcls cls)
    as [[e [_ E]] | [cdict0 [Ew E]]]; rewrite E in H; [discriminate|].
  cbv zeta in H.
  destruct (compile_metadata_keys types yl yd mcls
              {| cs_cls := cls; cs_cdict := cdict0; cs_log := [] |}) as [_ [N D]].
  cbv zeta in N, D. cbn [cs_cdict] in N, D.
  destruct (snd (compile_metadata types yl yd mcls _)) as [u|]; [|discriminate].
  inversion H. subst. clear H.
  assert (Ec : exists c, cdict0 = name_defaults cls c).
  { revert Ew. unfold compile_wire.
    cbn -[get_all_attrs update_attrs to_wire name_defaults get_schema].
    destruct (get_all_attrs types mcls cls) as [a|]; [|discriminate].
    destruct (update_attrs types mcls a) as [a'|]; [|discriminate].
    destruct (get_schema mcls "__display_map__") as [sch|]; [|discriminate].
    destruct (to_wire oc (display_map sch) cls a' []) as [c|]; [|discriminate].
    cbn -[name_defaults]. intros H. inversion H. eauto. }
  destruct Ec as [c ->]. split.
  - intros Hn. destruct N as [N | [dn [N T]]].
    + rewrite N in Hn. exact (name_defaults_name _ _ Hn).
    + rewrite N in Hn. inversion Hn. subst dn. discriminate T.
  - intros Hd. destruct D as [D | [s [D Ne]]].
    + rewrite D in Hd. exact (name_defaults_description _ _ Hd).
    + rewrite D in Hd. inversion Hd. unfold Str.empty in *. congruence.
Qed.

Lemma compile_fills_name_and_description_witness :
  exists st cdict,
    Sample.compile Sample.ServiceType (Sample.service "web" "doc") = (st, Ok cdict)
    /\ Dict.get "name" cdict = Some (VStr "web")
    /\ (Dict.get "name" cdict = Some (VStr Str.empty) -> "web" = Str.empty).
Proof.
  destruct (Sample.compile Sample.ServiceType (Sample.service "web" "doc"))
    as [st [cdict|x]] eqn:E.
  - exists st, cdict. split; [reflexivity|]. split.
    + vm_compute in E. inversion E. reflexivity.
    + exact (proj1 (compile_fills_name_and_description
                      Sample.types RefYaml.load RefYaml.dump Sample.object_compile
                      Sample.ServiceType (Sample.service "web" "doc") st cdict E)).
  - vm_compute in E. discriminate.
Defined.

(** ** Property names and wire keys *)

Lemma invert_fold_keep (dm : Dict.t string) (w : string) :
  forall acc,
    ~ In w (map snd dm) ->
    Dict.get w (fold_left (fun acc kv => Dict.set (snd kv) (fst kv) acc) dm acc)
    = Dict.get w acc.
Proof.
  induction dm as [|[k0 w0] dm IH]; intros acc Hn; [reflexivity|].
  cbn [fold_left fst snd]. rewrite IH by (intros I; apply Hn; right; exact I).
  apply get_set_other. intros ->. apply Hn. left. reflexivity.
Qed.

Lemma invert_get (dm : Dict.t string) (k w : string) :
  NoDup (map snd dm) -> In (k, w) dm -> Dict.get w (invert dm) = Some k.
Proof.
  unfold invert. generalize (@nil (string * string)) as acc.
  induction dm as [|[k0 w0] dm IH]; intros acc Hn Hi; [destruct Hi|].
  cbn [map snd] in Hn. inversion Hn as [|? ? Hw Hn']. subst.
  cbn [fold_left fst snd]. destruct Hi as [E|I].
  - inversion E. subst. rewrite invert_fold_keep by exact Hw. apply get_set_same.
  - apply IH; assumption.
Qed.

Lemma wire_of_get (dm : Dict.t string) (k : string) :
  Dict.mem k dm = true -> Dict.get k dm = Some (wire_of dm k).
Proof.
  unfold Dict.mem, wire_of. destruct (Dict.get k dm); [reflexivity|discriminate].
Qed.

Lemma invert_wire_of (dm : Dict.t string) (k : string) :
  NoDup (map snd dm) -> Dict.mem k dm = true ->
  Dict.get (wire_of dm k) (invert dm) = Some k.
Proof.
  intros Hn Hm. apply invert_get; [exact Hn|]. apply get_in, wire_of_get, Hm.
Qed.

Lemma to_wire_cons_plain oc dm cls k v w rest acc :
  is_object v = false ->
  Dict.get k dm = Some w ->
  to_wire oc dm cls ((k, v) :: rest) acc
  = to_wire oc dm cls rest (Dict.setdefault w v acc).
Proof.
  intros Ho Hg. cbn [to_wire]. rewrite Hg. destruct v; try reflexivity. discriminate.
Qed.

Lemma setdefault_absent {V} (k : string) (v : V) (d : Dict.t V) :
  Dict.get k d = None -> Dict.setdefault k v d = d ++ [(k, v)].
Proof.
  intros H. unfold Dict.setdefault. rewrite (get_none_mem _ _ H). reflexivity.
Qed.

Lemma to_wire_map oc dm cls (attrs : Dict.t value) :
  forall acc,
    (forall k v, In (k, v) attrs -> Dict.mem k dm = true /\ is_object v = false) ->
    NoDup (map (wire_of dm) (Dict.keys attrs)) ->
    (forall k, In k (Dict.keys attrs) -> Dict.get (wire_of dm k) acc = None) ->
    to_wire oc dm cls attrs acc
    = Ok (acc ++ map (fun kv => (wire_of dm (fst kv), snd kv)) attrs).
Proof.
  induction attrs as [|[k v] attrs IH]; intros acc Ha Hn Hf.
  - cbn. rewrite app_nil_r. reflexivity.
  - destruct (Ha k v (or_introl eq_refl)) as [Hm Ho].
    rewrite (to_wire_cons_plain _ _ _ _ _ _ _ _ Ho (wire_of_get _ _ Hm)).
    rewrite setdefault_absent by (apply Hf; left; reflexivity).
    cbn [Dict.keys map fst] in Hn. inversion Hn as [|? ? Hw Hn']. subst.
    rewrite IH.
    + rewrite <- app_assoc. reflexivity.
    + intros k' v' I. apply Ha. right. exact I.
    + exact Hn'.
    + intros k' I. rewrite get_app. rewrite (Hf k' (or_intror I)). cbn.
      destruct (String.eqb_spec (wire_of dm k') (wire_of dm k)) as [E|]; [|reflexivity].
      exfalso. apply Hw. rewrite <- E. apply in_map. exact I.
Qed.

Lemma from_wire_map dm inverse (attrs : Dict.t value) :
  forall acc,
    (forall k, In k (Dict.keys attrs) ->
               Dict.get (wire_of dm k) inverse = Some k /\ k <> EmptyString) ->
    NoDup (Dict.keys attrs) ->
    (forall k, In k (Dict.keys attrs) -> Dict.get k acc = None) ->
    from_wire inverse (map (fun kv => (wire_of dm (fst kv), snd kv)) attrs) acc
    = acc ++ attrs.
Proof.
  induction attrs as [|[k v] attrs IH]; intros acc Hi Hn Hf.
  - cbn. rewrite app_nil_r. reflexivity.
  - cbn [map from_wire fst snd].
    destruct (Hi k (or_introl eq_refl)) as [Hg Hk]. rewrite Hg.
    assert (He : Str.is_empty k = false) by (destruct k; [congruence | reflexivity]).
    rewrite He. rewrite setdefault_absent by (apply Hf; left; reflexivity).
    inversion Hn as [|? ? Hk' Hn']. subst.
    rewrite IH.
    + rewrite <- app_assoc. reflexivity.
    + intros k' I. apply Hi. right. exact I.
    + exact Hn'.
    + intros k' I. rewrite get_app. rewrite (Hf k' (or_intror I)). cbn.
      destruct (String.eqb_spec k' k) as [->|]; [contradiction | reflexivity].
Qed.

(** X16.  Translating property names to wire keys and back gives the attributes
    again, in their order, when no two properties share a display name, no
    property name is empty and no value is an object dictionary (which
    [compile] would replace by its compiled form). *)
Theorem wire_keys_round_trip :
  forall object_compile (display_map : Dict.t string) (cls : entity)
         (attrs : Dict.t value),
    NoDup (map snd display_map) ->
    NoDup (Dict.keys attrs) ->
    (forall k v, In (k, v) attrs ->
       Dict.mem k display_map = true /\ k <> EmptyString /\ is_object v = false) ->
    exists cdict,
      to_wire object_compile display_map cls attrs [] = Ok cdict
      /\ Dict.keys cdict = map (wire_of display_map) (Dict.keys attrs)
      /\ from_wire (invert display_map) cdict [] = attrs.
Proof.
  intros oc dm cls attrs Hd Hn Ha.
  assert (Hmem : forall k, In k (Dict.keys attrs) ->
                   Dict.mem k dm = true /\ k <> EmptyString).
  { intros k I. unfold Dict.keys in I. apply in_map_iff in I.
    destruct I as [[k' v] [E I]]. cbn in E. subst k'.
    destruct (Ha k v I) as [A [B _]]. split; assumption. }
  assert (Hinj : NoDup (map (wire_of dm) (Dict.keys attrs))).
  { apply NoDup_map_NoDup_ForallPairs; [|exact Hn].
    intros k1 k2 I1 I2 E.
    pose proof (invert_wire_of dm k1 Hd (proj1 (Hmem k1 I1))) as G1.
    pose proof (invert_wire_of dm k2 Hd (proj1 (Hmem k2 I2))) as G2.
    rewrite E in G1. congruence. }
  eexists. split; [|split].
  - apply to_wire_map.
    + intros k v I. destruct (Ha k v I) as [A [_ C]]. split; assumption.
    + exact Hinj.
    + reflexivity.
  - cbn [app]. unfold Dict.keys. rewrite !map_map. reflexivity.
  - cbn [app]. apply (from_wire_map dm (invert dm) attrs []).
    + intros k I. split; [apply invert_wire_of; [exact Hd | apply Hmem; exact I]
                         | apply Hmem; exact I].
    + exact Hn.
    + reflexivity.
Qed.

Lemma wire_keys_round_trip_witness :
  exists cdict,
    to_wire Sample.object_compile
            [("name", "name"); ("description", "description");
             ("variables", "variable_list")]
            (Sample.service "web" "doc")
            [("variables", VList []); ("name", VStr "web")] [] = Ok cdict
    /\ Dict.keys cdict = ["variable_list"; "name"]
    /\ from_wire (invert [("name", "name"); ("description", "description");
                          ("variables", "variable_list")]) cdict []
       = [("variables", VList []); ("name", VStr "web")].
Proof.
  destruct (wire_keys_round_trip
              Sample.object_compile
              [("name", "name"); ("description", "description");
               ("variables", "variable_list")]
              (Sample.service "web" "doc")
              [("variables", VList []); ("name", VStr "web")])
    as [cdict [E [K R]]].
  - repeat constructor; cbn; intuition discriminate.
  - repeat constructor; cbn; intuition discriminate.
  - intros k v [E|[E|[]]]; inversion E; subst; repeat split; discriminate.
  - exists cdict. split; [exact E|]. split; [exact K | exact R].
Defined.

(** ** Colliding display names *)

Lemma to_wire_keeps oc dm cls (attrs : Dict.t value) (w : string) (v : value) :
  forall acc cdict,
    to_wire oc dm cls attrs acc = Ok cdict ->
    Dict.get w acc = Some v ->
    Dict.get w cdict = Some v.
Proof.
  induction attrs as [|[k0 v0] attrs IH]; intros acc cdict H Hg.
  - cbn in H. inversion H. subst. exact Hg.
  - cbn [to_wire] in H.
    destruct (Dict.get k0 dm) as [w0|]; [|destruct v0; discriminate H].
    assert (Hs : forall x, Dict.get w (Dict.setdefault w0 x acc) = Some v)
      by (intros x; rewrite get_setdefault, Hg; reflexivity).
    destruct v0; cbn -[to_wire Dict.setdefault] in H;
      try (apply (IH _ _ H); apply Hs).
    match type of H with
    | context [oc ?d cls] =>
        destruct (oc d cls) as [c|]; cbn -[to_wire Dict.setdefault] in H;
          [|discriminate]
    end.
    apply (IH _ _ H). rewrite get_setdefault, Hs. reflexivity.
Qed.

(** X17.  When several attributes have the same display name, the mapping
    [compile] builds holds the first of them under that wire key: the
    later ones are dropped without notice. *)
Theorem first_attribute_keeps_wire_key :
  forall object_compile (display_map : Dict.t string) (cls : entity)
         (pre post : Dict.t value) (k w : string) (v : value)
         (cdict : Dict.t value),
    to_wire object_compile display_map cls (pre ++ (k, v) :: post) [] = Ok cdict ->
    Dict.get k display_map = Some w ->
    (forall k', In k' (Dict.keys pre) -> Dict.get k' display_map <> Some w) ->
    is_object v = false ->
    Dict.get w cdict = Some v.
Proof.
  intros oc dm cls pre post k w v cdict H Hk Hpre Ho.
  assert (G : forall acc, Dict.get w acc = None ->
                to_wire oc dm cls (pre ++ (k, v) :: post) acc = Ok cdict ->
                Dict.get w cdict = Some v).
  { clear H. induction pre as [|[k0 v0] pre IH]; intros acc Ha H.
    - cbn [app] in H. rewrite (to_wire_cons_plain _ _ _ _ _ _ _ _ Ho Hk) in H.
      apply (to_wire_keeps _ _ _ _ _ _ _ _ H).
      rewrite get_setdefault, Ha, String.eqb_refl. reflexivity.
    - cbn [app] in H.
      destruct (to_wire_step _ _ _ _ _ _ _ _ H) as [w0 [acc1 [Eg [H1 [K _]]]]].
      apply (IH (fun k' I => Hpre k' (or_intror I)) acc1); [|exact H1].
      apply get_none_keys. intros I. destruct (K _ I) as [Ia|E].
      + exact (proj1 (get_none_keys _ _) Ha Ia).
      + subst w0. exact (Hpre k0 (or_introl eq_refl) Eg). }
  exact (G [] eq_refl H).
Qed.

Lemma first_attribute_keeps_wire_key_witness :
  exists cdict,
    to_wire Sample.object_compile [("name", "name"); ("title", "name")]
            (Sample.service "web" "doc")
            [("name", VStr "first"); ("title", VStr "second")] [] = Ok cdict
    /\ Dict.get "name" cdict = Some (VStr "first")
    /\ Dict.keys cdict = ["name"].
Proof.
  eexists. split; [reflexivity|]. split; [|reflexivity].
  exact (first_attribute_keeps_wire_key
           Sample.object_compile [("name", "name"); ("title", "name")]
           (Sample.service "web" "doc")
           [] [("title", VStr "second")] "name" "name" (VStr "first") _
           eq_refl eq_refl (fun _ I => match I with end) eq_refl).
Defined.

(** ** Display names and references *)





(** X20.  Without a registered Ref kind [get_ref] returns [None] and does
    nothing else.  With one whose [name] and [kind] properties have plain
    validators, the reference it returns is named after the schema name of
    the Ref kind, holds under [name] what [get_name] answers, and under
    [kind] the kind asked for or, when that is falsy, the kind stamp of the
    definition. *)
Theorem reference_carries_name_and_kind :
  forall (types : Dict.t mclass) yaml_load (cls : entity) (kind : value)
         (log : list string),
    (Dict.get "Ref" types = None ->
     get_ref types yaml_load cls kind log = (log, Ok None))
    /\ (forall (ref : mclass) (rsch : schema) (n : string)
               (Vn Vk : validator) (an ak : bool) (log' : list string) (r : entity),
          Dict.get "Ref" types = Some ref ->
          schema_name ref = Some n ->
          n <> EmptyString ->
          m_schema ref = Some rsch ->
          Dict.get "name" (validator_dict rsch) = Some (Vn, an) ->
          v_is_object Vn = false ->
          Dict.get "kind" (validator_dict rsch) = Some (Vk, ak) ->
          v_is_object Vk = false ->
          get_ref types yaml_load cls kind log = (log', Ok (Some r)) ->
          exists name,
            get_name yaml_load cls log = (log', Ok name)
            /\ e_name r = n
            /\ Dict.get "name" (e_dict r) = Some name
            /\ Dict.get "kind" (e_dict r) = Some (or_else kind (kind_of cls))).
Proof.
  intros types yl cls kind log. split.
  - intros H. unfold get_ref. rewrite H. reflexivity.
  - intros ref rsch n Vn Vk an ak log' r HR Hn Hne Hs Hvn Hon Hvk Hok H.
    unfold get_ref in H. rewrite HR, Hn in H.
    cbn -[get_name __new__ or_else kind_of] in H.
    destruct (get_name yl cls log) as [log1 [name|e]]; [|discriminate].
    unfold lift in H.
    destruct (__new__ types ref n _) as [r'|] eqn:En; [|discriminate].
    inversion H. subst log1 r'. clear H.
    exists name. split; [reflexivity|]. split; [exact (new_name _ _ _ _ _ En)|].
    assert (Ht : option_truthy (schema_name ref) = true).
    { rewrite Hn. destruct n; [congruence | reflexivity]. }
    assert (Hnd : NoDup (Dict.keys [("name", name); ("kind", or_else kind (kind_of cls))])).
    { repeat constructor; cbn; intuition discriminate. }
    split.
    + destruct (new_keeps_given _ _ _ _ _ _ "name" name Hs Ht Hnd
                                (or_introl eq_refl) ltac:(discriminate) En)
        as [w [Ev Eg]].
      unfold _validate in Ev.
      rewrite (validate_body_plain types _ _ "name" Vn an name eq_refl Hvn Hon) in Ev.
      destruct (v_validate Vn name an); inversion Ev. subst w. exact Eg.
    + destruct (new_keeps_given _ _ _ _ _ _ "kind" (or_else kind (kind_of cls))
                                Hs Ht Hnd (or_intror (or_introl eq_refl))
                                ltac:(discriminate) En)
        as [w [Ev Eg]].
      unfold _validate in Ev.
      rewrite (validate_body_plain types _ _ "kind" Vk ak _ eq_refl Hvk Hok) in Ev.
      destruct (v_validate Vk _ ak); inversion Ev. subst w. exact Eg.
Qed.

Lemma reference_carries_name_and_kind_witness :
  exists r,
    SampleRef.get_ref Sample.my_kind VNone [] = ([], Ok (Some r))
    /\ e_name r = "Ref"
    /\ Dict.get "name" (e_dict r) = Some (VStr "Friendly Name")
    /\ Dict.get "kind" (e_dict r) = Some (VStr "Service").
Proof.
  destruct (SampleRef.get_ref Sample.my_kind VNone []) as [lg [[r|]|x]] eqn:E.
  - assert (lg = []) by (vm_compute in E; inversion E; reflexivity). subst lg.
    exists r. split; [reflexivity|].
    destruct (proj2 (reference_carries_name_and_kind
                       SampleRef.types RefYaml.load Sample.my_kind VNone [])
                    SampleRef.RefType _ "Ref"
                    (Sample.plain_validator Sample.str_type)
                    (Sample.plain_validator Sample.str_type) false false [] r
                    eq_refl eq_refl ltac:(discriminate) eq_refl eq_refl eq_refl
                    eq_refl eq_refl E) as [name [G [N [A K]]]].
    vm_compute in G. inversion G. subst name.
    split; [exact N|]. split; [exact A | exact K].
  - vm_compute in E. discriminate.
  - vm_compute in E. discriminate.
Defined.

(** ** The JSON decoder hook and compile *)

(** X21.  The mapping [compile] returns carries no kind stamp, unless the display
    map of the kind sends a property to [__kind__]: the decoder hook
    therefore hands it back as the plain mapping it is, untouched, and
    decompiles nothing. *)
Theorem hook_leaves_compiled_mappings :
  forall types types' yaml_load yaml_dump object_compile get_valid_identifier
         provider_spec (mcls : mclass) (sch : schema) (cls : entity)
         (st : cstate) (cdict : Dict.t value),
    m_schema mcls = Some sch ->
    ~ wire_key (display_map sch) "__kind__" ->
    run_compile types yaml_load yaml_dump object_compile mcls cls = (st, Ok cdict) ->
    Dict.get "__kind__" cdict = None
    /\ object_hook types' yaml_load yaml_dump get_valid_identifier provider_spec cdict
       = ({| ds_cdict := cdict; ds_log := []; ds_name := VNone;
             ds_description := VNone |}, Ok (VDict cdict)).
Proof.
  intros types types' yl yd oc gvi ps mcls sch cls st cdict Hs Hw H.
  assert (E : Dict.get "__kind__" cdict = None).
  { apply get_none_keys. intros I. apply Hw.
    exact (run_compile_keys _ _ _ _ _ _ _ _ _ Hs H _ I). }
  split; [exact E|]. unfold object_hook. rewrite E. reflexivity.
Qed.

Lemma hook_leaves_compiled_mappings_witness :
  exists st cdict,
    Sample.compile Sample.ServiceType (Sample.service "web" "doc") = (st, Ok cdict)
    /\ SampleRef.object_hook cdict
       = ({| ds_cdict := cdict; ds_log := []; ds_name := VNone;
             ds_description := VNone |}, Ok (VDict cdict)).
Proof.
  destruct (Sample.compile Sample.ServiceType (Sample.service "web" "doc"))
    as [st [cdict|x]] eqn:E.
  - exists st, cdict. split; [reflexivity|].
    refine (proj2 (hook_leaves_compiled_mappings
                     Sample.types SampleRef.types RefYaml.load RefYaml.dump
                     Sample.object_compile Sample.get_valid_identifier
                     Sample.provider_spec Sample.ServiceType _
                     (Sample.service "web" "doc") st cdict eq_refl _ E)).
    intros [p I]. cbn in I. intuition discriminate.
  - vm_compute in E. discriminate.
Defined.

(** ** Decompile without metadata *)

Lemma decompile_metadata_plain yl yd st :
  ds_description st = VNone
  \/ (exists d, ds_description st = VStr d /\ Str.find sep_string d = None) ->
  decompile_metadata yl yd st = (st, Ok tt).
Proof.
  intros [H | [d [H F]]]; unfold decompile_metadata; cbn -[Str.find];
    rewrite H; [|rewrite F]; reflexivity.
Qed.

(** A property that is not handed to a nested [decompile] logs nothing. *)
Lemma decompile_attr_log ps vd (p : string) (v : value) :
  decompiles vd p = false -> c_log (decompile_attr ps vd p v) = [].
Proof.
  unfold decompiles, decompile_attr, decompile_with.
  destruct (Dict.get p vd) as [[validator is_array]|]; [|reflexivity].
  destruct (v_kind validator) as [entity_type|].
  - destruct (String.eqb (ty_name entity_type) "ProviderSpecType"); [reflexivity|].
    destruct (ty_decompile entity_type); [discriminate | reflexivity].
  - destruct (ty_decompile (v_type validator)); [discriminate | reflexivity].
Qed.

Lemma decompile_attrs_log ps vd (attrs : Dict.t value) :
  (forall p, decompiles vd p = false) ->
  c_log (decompile_attrs ps vd attrs) = [].
Proof.
  intros Hq. induction attrs as [|[k v] attrs IH]; [reflexivity|].
  cbn [decompile_attrs].
  destruct (c_result (decompile_attr ps vd k v)); cbn [c_log];
    rewrite decompile_attr_log by apply Hq; [exact IH | reflexivity].
Qed.

(** X22.  A wire mapping whose description is missing or holds no marker
    decompiles, when it does, to a definition whose documentation text is
    that description ([None] when missing) and whose identifier is the
    coerced wire name, the schema name of the kind standing in for a
    missing name.  The metadata step logs nothing: the log holds the
    warnings of the nested [decompile] calls alone, and is empty for a kind
    without nested kinds. *)
Theorem decompile_moves_description_to_doc :
  forall types yaml_load yaml_dump get_valid_identifier provider_spec
         (mcls : mclass) (cdict : Dict.t value) (st : dstate) (e : entity),
    Dict.get "description" cdict = None
    \/ (exists d, Dict.get "description" cdict = Some (VStr d)
                  /\ Str.find sep_string d = None) ->
    run_decompile types yaml_load yaml_dump get_valid_identifier provider_spec
                  mcls cdict = (st, Ok e) ->
    doc_of e = match Dict.get "description" cdict with
               | Some v => v
               | None => VNone
               end
    /\ get_valid_identifier (wire_name mcls cdict) = Ok (e_name e)
    /\ ds_log st
       = c_log (decompile_attrs provider_spec (validator_dict_of mcls)
                                (from_wire (inverse_of mcls)
                                           (Dict.remove "description" cdict) []))
    /\ ((forall p, decompiles (validator_dict_of mcls) p = false) -> ds_log st = []).
Proof.
  intros types yl yd gvi ps mcls cdict st e Hd H.
  unfold run_decompile in H. rewrite decompile_run in H.
  cbv zeta in H. cbn [ds_cdict ds_log] in H.
  rewrite decompile_metadata_plain in H.
  - cbn [fst snd ds_cdict ds_log ds_name ds_description app] in H.
    inversion H as [[Hst Hb]].
    pose proof (decompile_build_result _ _ _ _ _ _ _ _ Hb) as [N D].
    split; [exact D|]. split; [exact N|].
    assert (L : c_log (decompile_build types gvi ps mcls
                         match Dict.get "name" cdict with
                         | Some v => v
                         | None => option_string_value (schema_name mcls)
                         end
                         match Dict.get "description" cdict with
                         | Some v => v
                         | None => VNone
                         end (Dict.remove "description" cdict))
                = c_log (decompile_attrs ps (validator_dict_of mcls)
                           (from_wire (inverse_of mcls)
                                      (Dict.remove "description" cdict) []))).
    { revert Hb. unfold decompile_build, get_schema, validator_dict_of, inverse_of.
      destruct (gvi _); [|discriminate].
      destruct (m_schema mcls); [reflexivity | discriminate]. }
    split; [exact L|]. intros Hq. rewrite L. apply decompile_attrs_log. exact Hq.
  - cbn. destruct Hd as [Hd | [d [Hd F]]]; rewrite Hd; [left; reflexivity|].
    right. exists d. split; [reflexivity | exact F].
Qed.

Lemma decompile_moves_description_to_doc_witness :
  exists st e,
    Sample.decompile Sample.ServiceType [("description", VStr "A web service")]
    = (st, Ok e)
    /\ doc_of e = VStr "A web service"
    /\ e_name e = "Service"
    /\ ds_log st = [].
Proof.
  destruct (Sample.decompile Sample.ServiceType [("description", VStr "A web service")])
    as [st [e|x]] eqn:E.
  - exists st, e. split; [reflexivity|].
    destruct (decompile_moves_description_to_doc
                Sample.types RefYaml.load RefYaml.dump Sample.get_valid_identifier
                Sample.provider_spec Sample.ServiceType
                [("description", VStr "A web service")] st e
                (or_intror (ex_intro _ "A web service" (conj eq_refl eq_refl))) E)
      as [D [N [L _]]].
    split; [exact D|]. split; [cbn in N; inversion N; reflexivity|].
    rewrite L. reflexivity.
  - vm_compute in E. discriminate.
Defined.

(** ** What decompile makes of the wire entries *)

Lemma invert_fold_in (dm : Dict.t string) (w p : string) :
  forall acc,
    Dict.get w (fold_left (fun acc kv => Dict.set (snd kv) (fst kv) acc) dm acc)
    = Some p ->
    In (p, w) dm \/ Dict.get w acc = Some p.
Proof.
  induction dm as [|[k0 w0] dm IH]; intros acc H; [right; exact H|].
  cbn [fold_left fst snd] in H. destruct (IH _ H) as [I|G].
  - left. right. exact I.
  - destruct (String.eqb_spec w0 w) as [->|Hne].
    + rewrite get_set_same in G. inversion G. left. left. reflexivity.
    + rewrite get_set_other in G by exact Hne. right. exact G.
Qed.

Lemma invert_in (dm : Dict.t string) (w p : string) :
  Dict.get w (invert dm) = Some p -> In (p, w) dm.
Proof.
  intros H. destruct (invert_fold_in dm w p [] H) as [I|G]; [exact I|discriminate].
Qed.

(** Two wire keys do not stand for one property. *)
Lemma invert_injective (dm : Dict.t string) (w1 w2 p : string) :
  NoDup (Dict.keys dm) ->
  Dict.get w1 (invert dm) = Some p ->
  Dict.get w2 (invert dm) = Some p ->
  w1 = w2.
Proof.
  intros Hn H1 H2.
  pose proof (get_nodup_in _ _ _ Hn (invert_in _ _ _ H1)) as G1.
  pose proof (get_nodup_in _ _ _ Hn (invert_in _ _ _ H2)) as G2.
  congruence.
Qed.

Lemma nodup_keys_setdefault {V} (k : string) (v : V) (d : Dict.t V) :
  NoDup (Dict.keys d) -> NoDup (Dict.keys (Dict.setdefault k v d)).
Proof.
  intros Hn. unfold Dict.setdefault, Dict.mem.
  destruct (Dict.get k d) eqn:E; [exact Hn|].
  unfold Dict.keys. rewrite map_app. cbn.
  apply NoDup_app; [exact Hn | repeat constructor; intros [] |].
  intros x Ix [<-|[]]. exact (proj1 (get_none_keys _ _) E Ix).
Qed.

Lemma from_wire_nodup inverse (cdict : Dict.t value) :
  forall acc, NoDup (Dict.keys acc) -> NoDup (Dict.keys (from_wire inverse cdict acc)).
Proof.
  induction cdict as [|[k0 v0] cdict IH]; intros acc H; [exact H|].
  cbn [from_wire]. destruct (Dict.get k0 inverse) as [p0|]; [|apply IH; exact H].
  destruct (Str.is_empty p0); apply IH; [exact H|].
  apply nodup_keys_setdefault. exact H.
Qed.

Lemma from_wire_get inverse (k p : string) (v : value) (cdict : Dict.t value) :
  (forall k1 k2 q, Dict.get k1 inverse = Some q -> Dict.get k2 inverse = Some q ->
                   k1 = k2) ->
  Dict.get k inverse = Some p ->
  Str.is_empty p = false ->
  forall acc,
    NoDup (Dict.keys cdict) ->
    In (k, v) cdict ->
    Dict.get p acc = None ->
    Dict.get p (from_wire inverse cdict acc) = Some v.
Proof.
  intros Hinj Hk Hp.
  induction cdict as [|[k0 v0] cdict IH]; intros acc Hn Hi Ha; [destruct Hi|].
  inversion Hn as [|? ? Hk0 Hn']. subst.
  cbn [from_wire]. destruct Hi as [E|I].
  - inversion E. subst k0 v0. rewrite Hk, Hp.
    apply from_wire_keeps. rewrite get_setdefault, Ha, String.eqb_refl. reflexivity.
  - assert (Hne : k0 <> k).
    { intros ->. apply Hk0. change k with (fst (k, v)). apply in_map. exact I. }
    destruct (Dict.get k0 inverse) as [p0|] eqn:E0; [|apply IH; assumption].
    destruct (Str.is_empty p0); apply IH; try assumption.
    rewrite get_setdefault, Ha.
    destruct (String.eqb_spec p p0) as [->|]; [|reflexivity].
    exfalso. apply Hne. exact (Hinj _ _ _ E0 Hk).
Qed.

Lemma decompile_attrs_spec ps vd (attrs : Dict.t value) :
  forall attrs1,
    c_result (decompile_attrs ps vd attrs) = Ok attrs1 ->
    Dict.keys attrs1 = Dict.keys attrs
    /\ forall p v, In (p, v) attrs ->
         exists v', c_result (decompile_attr ps vd p v) = Ok v' /\ In (p, v') attrs1.
Proof.
  induction attrs as [|[k v] attrs IH]; intros attrs1; cbn [decompile_attrs].
  - intros H. inversion H. split; [reflexivity | intros p v []].
  - destruct (c_result (decompile_attr ps vd k v)) as [nv|] eqn:Ea; [|discriminate].
    cbn [c_result].
    destruct (c_result (decompile_attrs ps vd attrs)) as [rest|]; [|discriminate].
    cbn. intros H. inversion H. subst attrs1.
    destruct (IH rest eq_refl) as [K G]. split.
    + unfold Dict.keys in *. cbn. rewrite K. reflexivity.
    + intros p v0 [E|I].
      * inversion E. subst. exists nv. split; [exact Ea | left; reflexivity].
      * destruct (G p v0 I) as [v' [A B]]. exists v'. split; [exact A | right; exact B].
Qed.

(** X23.  A wire entry whose key stands for a property of the kind becomes that
    property of the decompiled definition: its value converted by the rule
    of the property's validator, then passed through the attribute gate.
    (The description is taken out before, and the kind stamp and the
    documentation text are set afterwards.) *)
Theorem decompile_sets_mapped_properties :
  forall types yaml_load yaml_dump get_valid_identifier provider_spec
         (mcls : mclass) (sch : schema) (cdict : Dict.t value)
         (st : dstate) (e : entity) (k p : string) (v : value),
    m_schema mcls = Some sch ->
    option_truthy (schema_name mcls) = true ->
    NoDup (Dict.keys (display_map sch)) ->
    NoDup (Dict.keys cdict) ->
    In (k, v) cdict ->
    k <> "description" ->
    Dict.get k (invert (display_map sch)) = Some p ->
    p <> EmptyString -> p <> "__kind__" -> p <> "__doc__" ->
    run_decompile types yaml_load yaml_dump get_valid_identifier provider_spec
                  mcls cdict = (st, Ok e) ->
    exists v' w,
      c_result (decompile_attr provider_spec (validator_dict sch) p v) = Ok v'
      /\ _validate types (validator_dict sch) p v' = Ok w
      /\ Dict.get p (e_dict e) = Some w.
Proof.
  intros types yl yd gvi ps mcls sch cdict st e k p v
         Hs Ht Hdm Hn Hi Hkd Hinv Hp Hpk Hpd H.
  unfold run_decompile in H. rewrite decompile_run in H.
  cbv zeta in H. cbn [ds_cdict ds_log] in H.
  match type of H with
  | context [decompile_metadata yl yd ?s] =>
      pose proof (decompile_metadata_keeps_cdict yl yd s) as K0;
      destruct (decompile_metadata yl yd s) as [st2 [[]|x]]
  end; cbn [fst snd ds_cdict] in *; [|discriminate].
  rewrite K0 in H. inversion H as [[Hst Hb]]. clear H Hst.
  revert Hb. unfold decompile_build, get_schema. rewrite Hs.
  destruct (gvi _) as [id|]; [|discriminate].
  cbn -[__new__ __setattr__ decompile_attrs from_wire invert Dict.remove].
  set (attrs0 := from_wire (invert (display_map sch)) (Dict.remove "description" cdict) []).
  destruct (c_result (decompile_attrs ps (validator_dict sch) attrs0)) as [attrs1|] eqn:Ed;
    [|discriminate].
  cbn -[__new__ __setattr__ decompile_attrs from_wire invert Dict.remove].
  destruct (__new__ types mcls id attrs1) as [cls|] eqn:En; [|discriminate].
  rewrite (setattr_doc types mcls sch cls _ Hs). intros Hb. inversion Hb. subst e.
  clear Hb.
  assert (Hpe : Str.is_empty p = false) by (destruct p; [congruence | reflexivity]).
  assert (G0 : Dict.get p attrs0 = Some v).
  { apply (from_wire_get _ k p v); try assumption.
    - intros k1 k2 q. apply invert_injective. exact Hdm.
    - apply nodup_keys_filter. exact Hn.
    - unfold Dict.remove. apply filter_In. split; [exact Hi|]. cbn [fst].
      destruct (String.eqb_spec "description" k); [congruence | reflexivity].
    - reflexivity. }
  destruct (decompile_attrs_spec _ _ _ _ Ed) as [K G].
  destruct (G p v (get_in _ _ _ G0)) as [v' [Ea Ia]].
  assert (N1 : NoDup (Dict.keys attrs1)).
  { rewrite K. apply from_wire_nodup. constructor. }
  destruct (new_keeps_given _ _ _ _ _ _ p v' Hs Ht N1 Ia Hpk En) as [w [Ev Eg]].
  exists v', w. split; [exact Ea|]. split; [exact Ev|].
  cbn. rewrite get_set_other by congruence. exact Eg.
Qed.

Lemma decompile_sets_mapped_properties_witness :
  exists st e,
    Sample.decompile Sample.ServiceType
                     [("name", VStr "web"); ("variable_list", VList [])] = (st, Ok e)
    /\ Dict.get "variables" (e_dict e) = Some (VList []).
Proof.
  destruct (Sample.decompile Sample.ServiceType
                             [("name", VStr "web"); ("variable_list", VList [])])
    as [st [e|x]] eqn:E.
  - exists st, e. split; [reflexivity|].
    destruct (decompile_sets_mapped_properties
                Sample.types RefYaml.load RefYaml.dump Sample.get_valid_identifier
                Sample.provider_spec Sample.ServiceType _
                [("name", VStr "web"); ("variable_list", VList [])] st e
                "variable_list" "variables" (VList []) eq_refl eq_refl)
      as [v' [w [Ea [Ev Eg]]]]; try discriminate; try reflexivity; try exact E.
    + repeat constructor; cbn; intuition discriminate.
    + repeat constructor; cbn; intuition discriminate.
    + right. left. reflexivity.
    + vm_compute in Ea. inversion Ea. subst v'.
      vm_compute in Ev. inversion Ev. subst w. exact Eg.
  - vm_compute in E. discriminate.
Defined.

(** ** Launch contexts *)

Lemma split_nonempty (sep : ascii) (s : string) : Bps.split sep s <> [].
Proof.
  destruct s as [|c s]; cbn; [discriminate|].
  destruct (Ascii.eqb c sep); [discriminate|].
  destruct (Bps.split sep s); discriminate.
Qed.

Lemma split_app (sep : ascii) (a b : string) :
  Bps.split sep (a ++ String sep b) = Bps.split sep a ++ Bps.split sep b.
Proof.
  induction a as [|c a IH]; cbn.
  - rewrite Ascii.eqb_refl. reflexivity.
  - destruct (Ascii.eqb c sep); [rewrite IH; reflexivity|].
    rewrite IH. destruct (Bps.split sep a) eqn:E; [|reflexivity].
    exfalso. exact (split_nonempty _ _ E).
Qed.

Lemma split_plain (sep : ascii) (s : string) :
  Str.has_char sep s = false -> Bps.split sep s = [s].
Proof.
  induction s as [|c s IH]; cbn; [reflexivity|].
  rewrite Ascii.eqb_sym. destruct (Ascii.eqb c sep); [discriminate|].
  cbn. intros H. rewrite (IH H). reflexivity.
Qed.

Lemma split_single (sep : ascii) (s s1 : string) :
  Bps.split sep s = [s1] -> s = s1.
Proof.
  revert s1. induction s as [|c s IH]; intros s1; cbn.
  - intros H. inversion H. reflexivity.
  - destruct (Ascii.eqb c sep).
    + intros H. inversion H as [[H1 H2]]. exfalso. exact (split_nonempty _ _ H2).
    + destruct (Bps.split sep s) as [|s0 [|]] eqn:E.
      * exfalso. exact (split_nonempty _ _ E).
      * intros H. inversion H. f_equal. apply IH. reflexivity.
      * discriminate.
Qed.

(** No segment holds the separator. *)
Lemma split_segments (sep : ascii) (s : string) :
  forall seg, In seg (Bps.split sep s) -> Str.has_char sep seg = false.
Proof.
  induction s as [|c s IH]; cbn; intros seg I.
  - destruct I as [<-|[]]. reflexivity.
  - destruct (Ascii.eqb c sep) eqn:E.
    + destruct I as [<-|I]; [reflexivity | apply IH; exact I].
    + destruct (Bps.split sep s) as [|s0 rest] eqn:Es.
      * destruct I as [<-|[]]. cbn. rewrite Ascii.eqb_sym, E. reflexivity.
      * destruct I as [<-|I].
        -- cbn. rewrite Ascii.eqb_sym, E. cbn. apply IH. left. reflexivity.
        -- apply IH. right. exact I.
Qed.

Lemma nth_in_or_default {A} (n : nat) (l : list A) (d : A) :
  In (nth n l d) l \/ nth n l d = d.
Proof.
  destruct (Nat.lt_ge_cases n (length l)) as [H|H].
  - left. apply nth_In. exact H.
  - right. apply nth_overflow. exact H.
Qed.

(** A segment of a context is not a launch context with a dot in it. *)
Lemma segment_differs (context ctx : string) (n : nat) :
  length (Bps.split Bps.dot ctx) <> 1 ->
  String.eqb (nth n (Bps.split Bps.dot context) EmptyString) ctx = false.
Proof.
  intros Hl. destruct (String.eqb_spec (nth n (Bps.split Bps.dot context) EmptyString) ctx)
    as [E|]; [|reflexivity].
  exfalso. apply Hl. rewrite <- E.
  destruct (nth_in_or_default n (Bps.split Bps.dot context) EmptyString) as [I| ->];
    [|reflexivity].
  rewrite (split_plain _ _ (split_segments _ _ _ I)). reflexivity.
Qed.

Lemma matching_rules :
  forall (ctx context : string),
    let context_list := Bps.split Bps.dot context in
    Bps.is_launch_runtime_vars_context_matching (VStr ctx) context
    = Ok (Nat.ltb 1 (length context_list)
          && String.eqb (last context_list EmptyString) "variable"
          && match Bps.split Bps.dot ctx with
             | [name] =>
                 String.eqb (nth (length context_list - 2) context_list EmptyString)
                            name
             | [p; a] =>
                 Nat.leb 4 (length context_list)
                 && (String.eqb (nth 1 context_list EmptyString) p
                     && String.eqb (nth 3 context_list EmptyString) a)
             | _ => false
             end).
Proof.
  intros ctx context context_list.
  unfold Bps.is_launch_runtime_vars_context_matching. fold context_list.
  destruct (Nat.ltb 1 (length context_list)
            && String.eqb (last context_list EmptyString) "variable");
    [|reflexivity].
  cbn [andb Py.eqb]. unfold Bps.is_launch_runtime_var_action_match, Bps.split_value.
  destruct (Bps.split Bps.dot ctx) as [|s1 [|s2 [|s3 l]]] eqn:Es.
  - exfalso. exact (split_nonempty _ _ Es).
  - assert (E : ctx = s1) by (apply (split_single _ _ _ Es)).
    subst s1. cbn -[nth String.eqb Nat.leb context_list].
    destruct (String.eqb _ ctx); reflexivity.
  - unfold context_list. rewrite segment_differs by (rewrite Es; discriminate).
    cbn -[nth String.eqb Nat.leb]. reflexivity.
  - unfold context_list. rewrite segment_differs by (rewrite Es; discriminate).
    cbn -[nth String.eqb Nat.leb]. reflexivity.
Qed.

(** X24.  How a launch context is matched against the context of a variable.
    Only a context of at least two segments that ends in [variable] is
    matched at all.  A launch context without a dot is compared with the
    segment before [variable]; one with a single dot, [p.a], is compared
    with the second and the fourth segment of a context of at least four;
    one with more dots matches nothing. *)
Theorem launch_context_matching_rules :
  forall (ctx context : string),
    let context_list := Bps.split Bps.dot context in
    Bps.is_launch_runtime_vars_context_matching (VStr ctx) context
    = Ok (Nat.ltb 1 (length context_list)
          && String.eqb (last context_list EmptyString) "variable"
          && match Bps.split Bps.dot ctx with
             | [name] =>
                 String.eqb (nth (length context_list - 2) context_list EmptyString)
                            name
             | [p; a] =>
                 Nat.leb 4 (length context_list)
                 && (String.eqb (nth 1 context_list EmptyString) p
                     && String.eqb (nth 3 context_list EmptyString) a)
             | _ => false
             end).
Proof.
  exact matching_rules.
Qed.

Lemma nodot_variable : Str.has_char Bps.dot "variable" = false.
Proof. reflexivity. Qed.

(** X25.  The variables of an entity are matched by the name of the entity: a
    launch context [name] without a dot matches every context that ends in
    [.name.variable]. *)
Theorem variable_context_matches_its_entity :
  forall (pre name : string),
    Str.has_char Bps.dot name = false ->
    Bps.is_launch_runtime_vars_context_matching
      (VStr name) (pre ++ String Bps.dot (name ++ String Bps.dot "variable"))
    = Ok true.
Proof.
  intros pre name Hn. rewrite matching_rules. cbv zeta.
  rewrite !split_app, (split_plain _ _ Hn), (split_plain _ _ nodot_variable).
  set (l := Bps.split Bps.dot pre).
  assert (Hl : length (l ++ [name] ++ ["variable"]) = length l + 2).
  { rewrite !length_app. cbn. lia. }
  rewrite Hl.
  assert (H1 : Nat.ltb 1 (length l + 2) = true) by (apply Nat.ltb_lt; lia).
  rewrite H1.
  assert (H2 : last (l ++ [name] ++ ["variable"]) EmptyString = "variable").
  { rewrite app_assoc. apply last_last. }
  rewrite H2.
  replace (length l + 2 - 2) with (length l) by lia.
  rewrite app_nth2 by lia. rewrite Nat.sub_diag. cbn [nth app].
  rewrite !String.eqb_refl. reflexivity.
Qed.

Lemma variable_context_matches_its_entity_witness :
  Bps.is_launch_runtime_vars_context_matching
    (VStr "MySQLService") "app_profile.Default.deployment.d1.service.MySQLService.variable"
  = Ok true.
Proof.
  exact (variable_context_matches_its_entity
           "app_profile.Default.deployment.d1.service" "MySQLService" eq_refl).
Defined.

Lemma filter_result_skip {A} (f : A -> result bool) (x : A) (l1 l2 : list A) :
  f x = Ok false ->
  Bps.filter_result f (l1 ++ x :: l2) = Bps.filter_result f (l1 ++ l2).
Proof.
  intros H. induction l1 as [|y l1 IH]; cbn.
  - rewrite H. cbn. destruct (Bps.filter_result f l2); reflexivity.
  - destruct (f y); [|reflexivity]. cbn. rewrite IH. reflexivity.
Qed.

(** X26.  A launch entry whose context has two or more dots supplies no value:
    the lookup of a variable's value gives, for any variable, what it gives
    with that entry left out. *)
Theorem deep_context_entries_are_ignored :
  forall (l1 l2 : list value) (d : Dict.t value) (c : string)
         (field : string) (path : value) (context : string),
    Dict.get "context" d = Some (VStr c) ->
    2 < length (Bps.split Bps.dot c) ->
    Bps.get_val_launch_runtime_vars (l1 ++ VDict d :: l2) field path context
    = Bps.get_val_launch_runtime_vars (l1 ++ l2) field path context.
Proof.
  intros l1 l2 d c field path context Hc Hl.
  unfold Bps.get_val_launch_runtime_vars. f_equal.
  apply filter_result_skip.
  cbn -[Bps.is_launch_runtime_vars_context_matching]. rewrite Hc.
  cbn -[Bps.is_launch_runtime_vars_context_matching].
  rewrite matching_rules. cbv zeta.
  destruct (Bps.split Bps.dot c) as [|s1 [|s2 [|s3 l]]]; cbn in Hl; try lia.
  rewrite andb_false_r. reflexivity.
Qed.

Lemma deep_context_entries_are_ignored_witness :
  Bps.get_val_launch_runtime_vars
    [VDict [("context", VStr "Default.action.extra"); ("name", VStr "foo")];
     VDict [("context", VStr "MySQLService"); ("name", VStr "foo");
            ("value", VDict [("value", VStr "bar")])]]
    "value" (VStr "foo") "service.MySQLService.variable"
  = ([], Bps.Return (VStr "bar")).
Proof.
  refine (eq_trans
            (deep_context_entries_are_ignored
               [] [VDict [("context", VStr "MySQLService"); ("name", VStr "foo");
                          ("value", VDict [("value", VStr "bar")])]]
               [("context", VStr "Default.action.extra"); ("name", VStr "foo")]
               "Default.action.extra" "value" (VStr "foo")
               "service.MySQLService.variable" eq_refl _) _).
  - cbn. lia.
  - reflexivity.
Defined.

(** ** Compiled payloads *)

Lemma getitem_with_items (v : value) (d d' : Dict.t value) (k : string) :
  v = VDict d \/ v = VObject d ->
  Py.getitem (Bps.with_items v d') k
  = match Dict.get k d' with Some w => Ok w | None => Raise (KeyError k) end.
Proof.
  intros [-> | ->]; reflexivity.
Qed.

Lemma scrub_credential_spec (cred cred' : value) (hit : bool) :
  Bps.scrub_credential cred = Ok (cred', hit) ->
  Bps.shows_secret cred = Ok hit
  /\ Bps.shows_secret cred' = Ok false
  /\ (hit = false -> cred' = cred)
  /\ (hit = true ->
      Bps.scrubbed cred cred'
      /\ forall d inner,
          cred = VDict d ->
          Dict.get "secret" d = Some (VDict inner) ->
          cred' = VDict (Dict.set "secret"
                                  (VDict (Dict.set "value" (VStr Str.empty)
                                                   (Dict.remove "secret" inner)))
                                  d)).
Proof.
  unfold Bps.scrub_credential, Bps.shows_secret.
  destruct (Py.getitem cred "secret") as [secret|] eqn:Eg; [|discriminate].
  cbn -[Py.get Py.getitem Py.truthy Dict.get Dict.set Dict.remove].
  destruct (Py.get secret "secret") as [flag|] eqn:Ef; [|discriminate].
  cbn -[Py.get Py.getitem Py.truthy Dict.get Dict.set Dict.remove].
  destruct (Py.truthy flag) eqn:Et.
  - assert (Hs : exists inner, (secret = VDict inner \/ secret = VObject inner)).
    { destruct secret; try discriminate Ef; eauto. }
    assert (Hc : exists d, (cred = VDict d \/ cred = VObject d)).
    { destruct cred; try discriminate Eg; eauto. }
    destruct Hs as [inner Hs]. destruct Hc as [d Hc].
    set (inner' := Dict.set "value" (VStr Str.empty) (Dict.remove "secret" inner)).
    assert (Hn : Dict.get "secret" inner' = None).
    { unfold inner'. rewrite get_set_other by discriminate. apply get_remove_same. }
    assert (Hv : Dict.get "value" inner' = Some (VStr Str.empty))
      by apply get_set_same.
    assert (Hk : forall k, k <> "secret" -> k <> "value" ->
                           Dict.get k inner' = Dict.get k inner).
    { intros k K1 K2. unfold inner'. rewrite get_set_other by congruence.
      apply get_remove_other. congruence. }
    assert (G : forall k, Py.getitem cred k
                          = match Dict.get k d with
                            | Some w => Ok w
                            | None => Raise (KeyError k)
                            end).
    { intros k. destruct Hc as [-> | ->]; reflexivity. }
    assert (G' : forall k, Py.getitem secret k
                           = match Dict.get k inner with
                             | Some w => Ok w
                             | None => Raise (KeyError k)
                             end).
    { intros k. destruct Hs as [-> | ->]; reflexivity. }
    intros H.
    assert (E' : cred' = Bps.with_items cred
                           (Dict.set "secret" (Bps.with_items secret inner') d)
                 /\ hit = true).
    { destruct Hs as [-> | ->]; destruct Hc as [-> | ->]; inversion H; split;
        reflexivity. }
    destruct E' as [-> ->]. clear H.
    split; [reflexivity|]. split.
    { rewrite (@getitem_with_items _ _ _ "secret" Hc), get_set_same.
      cbn -[Py.get Py.truthy].
      assert (P : Py.get (Bps.with_items secret inner') "secret" = Ok VNone).
      { destruct Hs as [-> | ->]; cbn -[Dict.get]; rewrite Hn; reflexivity. }
      rewrite P. reflexivity. }
    split; [discriminate|]. intros _. split.
    + exists secret, (Bps.with_items secret inner').
      split; [exact Eg|].
      split; [rewrite (@getitem_with_items _ _ _ "secret" Hc), get_set_same; reflexivity|].
      split.
      { destruct Hs as [-> | ->]; cbn -[Dict.get]; unfold Dict.mem; rewrite Hn;
          reflexivity. }
      split; [rewrite (@getitem_with_items _ _ _ "value" Hs), Hv; reflexivity|].
      split.
      * intros k K1 K2. rewrite (@getitem_with_items _ _ _ k Hs), G', Hk by assumption.
        reflexivity.
      * intros k K1. rewrite (@getitem_with_items _ _ _ k Hc), G.
        rewrite get_set_other by congruence. reflexivity.
    + intros d0 inner0 Ec Ei. subst cred. destruct Hc as [Hc|Hc]; inversion Hc. subst d0.
      cbn -[Dict.get] in Eg. rewrite Ei in Eg. inversion Eg. subst secret.
      destruct Hs as [Hs|Hs]; inversion Hs. subst inner0. reflexivity.
  - intros H. inversion H. subst cred' hit.
    split; [reflexivity|]. split; [|split; [reflexivity | discriminate]].
    rewrite Eg. cbn -[Py.get Py.truthy]. rewrite Ef. cbn -[Py.truthy]. rewrite Et.
    reflexivity.
Qed.

Lemma scrub_secrets_spec (creds : list value) :
  forall flag creds' b,
    Bps.scrub_secrets creds flag = (creds', Ok b) ->
    Forall2 (fun cred cred' =>
               Bps.shows_secret cred' = Ok false
               /\ (Bps.shows_secret cred = Ok false -> cred' = cred)
               /\ (Bps.shows_secret cred = Ok true ->
                   Bps.scrubbed cred cred'
                   /\ forall d inner,
                       cred = VDict d ->
                       Dict.get "secret" d = Some (VDict inner) ->
                       cred' = VDict (Dict.set "secret"
                                        (VDict (Dict.set "value" (VStr Str.empty)
                                                         (Dict.remove "secret" inner)))
                                        d)))
            creds creds'
    /\ (b = true <->
        flag = true \/ Exists (fun cred => Bps.shows_secret cred = Ok true) creds).
Proof.
  induction creds as [|cred creds IH]; intros flag creds' b;
    cbn -[Bps.scrub_credential Bps.shows_secret].
  - intros H. inversion H. subst. split; [constructor|].
    split; [intros ->; left; reflexivity|].
    intros [E|E]; [exact E | inversion E].
  - destruct (Bps.scrub_credential cred) as [[cred1 hit]|] eqn:Ec; [|discriminate].
    destruct (Bps.scrub_secrets creds (flag || hit)) as [rest r] eqn:Er.
    cbn [fst snd]. intros H. inversion H. subst creds' r. clear H.
    destruct (scrub_credential_spec _ _ _ Ec) as [S0 [S1 [S2 S3]]].
    destruct (IH _ _ _ Er) as [F B]. split.
    + constructor; [|exact F]. split; [exact S1|]. split.
      * intros Hs. apply S2. congruence.
      * intros Hs. apply S3. congruence.
    + rewrite B. split.
      * intros [E|E].
        -- apply orb_true_iff in E. destruct E as [E|E]; [left; exact E|].
           right. left. rewrite S0, E. reflexivity.
        -- right. right. exact E.
      * intros [E|E].
        -- left. rewrite E. reflexivity.
        -- inversion E as [? ? Hh|? ? Ht]; subst.
           ++ left. rewrite S0 in Hh. inversion Hh. apply orb_true_r.
           ++ right. exact Ht.
Qed.

(** X27.  After the loop over the credentials of a compiled payload no
    credential shows a secret any more.  Where the secret mapping of a
    credential held a truthy [secret] entry, that entry is gone, [value] is
    the empty string, and every other entry of the secret mapping and of
    the credential is as it was; every other credential is unchanged.  The
    loop reports a secret exactly when one of the credentials showed one. *)
Theorem secrets_are_scrubbed :
  forall (creds creds' : list value) (is_secret_avl : bool),
    Bps.scrub_secrets creds false = (creds', Ok is_secret_avl) ->
    Forall2 (fun cred cred' =>
               Bps.shows_secret cred' = Ok false
               /\ (Bps.shows_secret cred = Ok false -> cred' = cred)
               /\ (Bps.shows_secret cred = Ok true ->
                   Bps.scrubbed cred cred'
                   /\ forall d inner,
                       cred = VDict d ->
                       Dict.get "secret" d = Some (VDict inner) ->
                       cred' = VDict (Dict.set "secret"
                                        (VDict (Dict.set "value" (VStr Str.empty)
                                                         (Dict.remove "secret" inner)))
                                        d)))
            creds creds'
    /\ (is_secret_avl = true <->
        Exists (fun cred => Bps.shows_secret cred = Ok true) creds).
Proof.
  intros creds creds' b H.
  destruct (scrub_secrets_spec _ _ _ _ H) as [F B]. split; [exact F|].
  rewrite B. split; [intros [E|E]; [discriminate | exact E] | auto].
Qed.

Lemma secrets_are_scrubbed_witness :
  let cred := VDict [("username", VStr "admin");
                     ("secret", VDict [("attrs", VDict []); ("secret", VBool true);
                                       ("value", VStr "s3cr3t")])] in
  exists creds',
    Bps.scrub_secrets [cred] false = (creds', Ok true)
    /\ creds' = [VDict [("username", VStr "admin");
                        ("secret", VDict [("attrs", VDict []); ("value", VStr Str.empty)])]]
    /\ Forall (fun c => Bps.shows_secret c = Ok false) creds'.
Proof.
  cbv zeta. eexists. split; [reflexivity|]. split; [reflexivity|].
  destruct (secrets_are_scrubbed
              [VDict [("username", VStr "admin");
                      ("secret", VDict [("attrs", VDict []); ("secret", VBool true);
                                        ("value", VStr "s3cr3t")])]]
              _ true eq_refl) as [F _].
  inversion F as [|? ? ? ? [S _] F']. subst. inversion F'. subst.
  constructor; [exact S | constructor].
Defined.

Lemma remove_absent {V} (k : string) (d : Dict.t V) :
  Dict.mem k d = false -> Dict.remove k d = d.
Proof.
  intros Hm. unfold Dict.remove. apply forallb_filter_id.
  apply forallb_forall. intros [k0 v] I. cbn [fst].
  destruct (String.eqb_spec k k0) as [<-|]; [|reflexivity].
  exfalso. apply (proj1 (get_none_keys k d) (mem_get_none _ _ Hm)).
  change k with (fst (k, v)). apply in_map. exact I.
Qed.

Lemma strip_package_spec (package package' : value) :
  Bps.strip_package package = Ok package' ->
  Bps.contains package' "action_list" = Ok false
  /\ (Bps.contains package "action_list" = Ok false -> package' = package)
  /\ (forall d, package = VDict d -> package' = VDict (Dict.remove "action_list" d)).
Proof.
  unfold Bps.strip_package.
  destruct (Bps.contains package "action_list") as [[|]|] eqn:Ec; [| |discriminate].
  - destruct package; try discriminate Ec;
      cbn -[Dict.remove Dict.mem Str.find] in *; try discriminate.
    + assert (Hm : Dict.mem "action_list" d = true) by congruence.
      intros H. rewrite Hm in H. inversion H.
      cbn -[Dict.remove]. unfold Dict.mem. rewrite get_remove_same.
      split; [reflexivity|]. split; [discriminate|].
      intros d0 E. inversion E. reflexivity.
    + assert (Hm : Dict.mem "action_list" d = true) by congruence.
      intros H. rewrite Hm in H. inversion H.
      cbn -[Dict.remove]. unfold Dict.mem. rewrite get_remove_same.
      split; [reflexivity|]. split; [discriminate|]. intros d0 E. discriminate E.
  - cbn. intros H. inversion H. subst package'. split; [exact Ec|].
    split; [reflexivity|]. intros d ->. cbn in Ec.
    assert (Hm : Dict.mem "action_list" d = false) by congruence.
    rewrite (remove_absent _ _ Hm). reflexivity.
Qed.

(** X28.  After the loop over the packages of a compiled payload no package has
    an [action_list]: a mapping that had one is left with its other entries,
    in their order, and a package without one is as it was. *)
Theorem package_actions_are_stripped :
  forall (packages packages' : list value),
    Bps.strip_package_actions packages = (packages', Ok tt) ->
    Forall2 (fun package package' =>
               Bps.contains package' "action_list" = Ok false
               /\ (Bps.contains package "action_list" = Ok false ->
                   package' = package)
               /\ (forall d, package = VDict d ->
                     package' = VDict (Dict.remove "action_list" d)))
            packages packages'.
Proof.
  induction packages as [|package packages IH]; intros packages';
    cbn -[Bps.strip_package].
  - intros H. inversion H. constructor.
  - destruct (Bps.strip_package package) as [p1|] eqn:Ep; [|discriminate].
    destruct (Bps.strip_package_actions packages) as [rest r] eqn:Er.
    cbn. intros H. inversion H. subst packages' r.
    constructor; [exact (strip_package_spec _ _ Ep) | apply IH; reflexivity].
Qed.

Lemma package_actions_are_stripped_witness :
  Bps.strip_package_actions
    [VDict [("name", VStr "MySQLPackage"); ("action_list", VList []);
            ("type", VStr "DEB")]]
  = ([VDict [("name", VStr "MySQLPackage"); ("type", VStr "DEB")]], Ok tt).
Proof.
  pose proof (package_actions_are_stripped
                [VDict [("name", VStr "MySQLPackage"); ("action_list", VList []);
                        ("type", VStr "DEB")]]
                _ eq_refl) as F.
  inversion F as [|? ? ? ? [_ [_ S]] _]. subst.
  reflexivity.
Defined.
